(** * AWS IP ranges service: a shallow embedding and its properties

    The development follows [src/aws-ip-ranges/ip-ranges.service.ts] and the
    REST controller in front of it.  It is organised as follows.

    - [JS]: the JavaScript primitives the service relies on (string
      splitting, [parseInt], [padStart], 32-bit integer operators,
      insertion-ordered [Set] and [Map]).
    - the data model of [interfaces/ip-ranges.interface.ts];
    - [IpRangesService]: the cached state and every method of the
      service; the refresh path, which assigns the cached fields, is
      written in a small state-and-exception monad in which a thrown
      exception keeps the assignments made before it, and the queries,
      which only read, are functions of the state;
    - [IpRangesController]: the four endpoints and [ensureDataLoaded];
    - [Scheduler]: the interleaving of refresh triggers and settled
      requests;
    - [Literal]: what the text of an address literal denotes, used to
      state what a valid address is;
    - the lemmas and the theorems.

    Modelling conventions.  A JavaScript string is a [string]; the
    documents handled by the service are ASCII text and [toUpperCase] is
    modelled on ASCII letters.  A JavaScript number that results from
    [parseInt] is [NaN] or an exact integer; this agrees with IEEE-754
    doubles for magnitudes below 2^53.  A [Date] is represented by its ISO
    string. *)

From Stdlib Require Import ZArith Lia List Bool Ascii String.
From Stdlib Require Import Sorting.Sorted.
Import ListNotations.

Local Open Scope string_scope.
Local Open Scope list_scope.
Local Open Scope Z_scope.

(* ===================================================================== *)
(** * JavaScript primitives *)
(* ===================================================================== *)

Module JS.

(** The result of a call: a returned value or a thrown exception.  The
    message of a [NotFoundException] quotes the arguments of the request;
    [ServiceUnavailableException] always carries the same message, and
    the messages of the other exceptions are read by no code. *)
Inductive JsError : Type :=
| TypeError
| RangeError
| AxiosError
| ServiceUnavailableException
| NotFoundException (message : string).

Inductive Result (A : Type) : Type :=
| Return (a : A)
| Throw (e : JsError).

Arguments Return {A} a.
Arguments Throw {A} e.

Definition rbind {A B : Type} (r : Result A) (k : A -> Result B) : Result B :=
  match r with
  | Return a => k a
  | Throw e => Throw e
  end.

(** Numbers produced by [parseInt]. *)
Inductive num : Type :=
| NaN
| Num (z : Z).

(** ** Characters *)

Definition code (c : ascii) : Z := Z.of_N (N_of_ascii c).

(** White space and line terminators skipped by [parseInt] (ASCII range). *)
Definition isWhiteSpace (c : ascii) : bool :=
  let n := code c in
  (n =? 9) || (n =? 10) || (n =? 11) || (n =? 12) || (n =? 13) || (n =? 32).

(** The value of an alphanumeric digit, [0-9], [a-z] or [A-Z]. *)
Definition digitValue (c : ascii) : option Z :=
  let n := code c in
  if (48 <=? n) && (n <=? 57) then Some (n - 48)
  else if (97 <=? n) && (n <=? 122) then Some (n - 87)
  else if (65 <=? n) && (n <=? 90) then Some (n - 55)
  else None.

Definition radixDigit (R : Z) (c : ascii) : option Z :=
  match digitValue c with
  | Some d => if d <? R then Some d else None
  | None => None
  end.

Definition upperChar (c : ascii) : ascii :=
  let n := code c in
  if (97 <=? n) && (n <=? 122) then ascii_of_N (Z.to_N (n - 32)) else c.

(** ** Strings *)

Fixpoint toUpperCase (s : string) : string :=
  match s with
  | EmptyString => EmptyString
  | String c s' => String (upperChar c) (toUpperCase s')
  end.

(** [s.includes(needle)] *)
Fixpoint includes (needle s : string) : bool :=
  String.prefix needle s ||
  match s with
  | EmptyString => false
  | String _ s' => includes needle s'
  end.

(** [s.split(sep)] for a non-empty separator: the pieces between the
    non-overlapping occurrences of [sep], scanned from the left.  [skip]
    counts the characters of a matched separator still to be dropped. *)
Fixpoint splitFrom (sep : string) (skip : nat) (s : string) : list string :=
  match s with
  | EmptyString => [EmptyString]
  | String c s' =>
      match skip with
      | S k => splitFrom sep k s'
      | O =>
          if String.prefix sep s
          then EmptyString :: splitFrom sep (Nat.pred (String.length sep)) s'
          else match splitFrom sep O s' with
               | piece :: rest => String c piece :: rest
               | [] => [String c EmptyString]
               end
      end
  end.

Fixpoint chars (s : string) : list string :=
  match s with
  | EmptyString => []
  | String c s' => String c EmptyString :: chars s'
  end.

Definition split (sep s : string) : list string :=
  match sep with
  | EmptyString => chars s
  | _ => splitFrom sep O s
  end.

(** [arr.join(sep)] *)
Definition join (sep : string) (parts : list string) : string :=
  String.concat sep parts.

Fixpoint repeatChar (c : ascii) (n : nat) : string :=
  match n with
  | O => EmptyString
  | S k => String c (repeatChar c k)
  end.

(** [s.padStart(target, c)] for a one-character filler. *)
Definition padStart (target : nat) (c : ascii) (s : string) : string :=
  String.append (repeatChar c (target - String.length s)) s.

(** [s.substring(0, e)]: [NaN] and negative ends count as 0, an end past
    the string as its length. *)
Definition substring0 (e : num) (s : string) : string :=
  match e with
  | NaN => EmptyString
  | Num z => String.substring 0 (Z.to_nat z) s
  end.

(** ** parseInt *)

Fixpoint trimStart (s : string) : string :=
  match s with
  | EmptyString => EmptyString
  | String c s' => if isWhiteSpace c then trimStart s' else s
  end.

Fixpoint digitsPrefix (R : Z) (s : string) : list Z :=
  match s with
  | EmptyString => []
  | String c s' =>
      match radixDigit R c with
      | Some d => d :: digitsPrefix R s'
      | None => []
      end
  end.

Definition digitsValue (R : Z) (ds : list Z) : Z :=
  fold_left (fun acc d => acc * R + d) ds 0.

Definition stripSign (s : string) : Z * string :=
  match s with
  | String "-" r => (-1, r)
  | String "+" r => (1, r)
  | _ => (1, s)
  end.

Definition stripHexPrefix (R : Z) (s : string) : string :=
  if R =? 16 then
    match s with
    | String "0" (String "x" r) => r
    | String "0" (String "X" r) => r
    | _ => s
    end
  else s.

(** [parseInt(s, R)] for an explicit radix [R] (10 or 16 in the service). *)
Definition parseInt (s : string) (R : Z) : num :=
  let '(sign, s1) := stripSign (trimStart s) in
  match digitsPrefix R (stripHexPrefix R s1) with
  | [] => NaN
  | ds => Num (sign * digitsValue R ds)
  end.

(** [parseInt(x, R)] where [x] may be [undefined]: the argument is first
    converted to the string "undefined". *)
Definition parseIntOpt (x : option string) (R : Z) : num :=
  match x with
  | Some s => parseInt s R
  | None => parseInt "undefined" R
  end.

(** ** Number.prototype.toString(2) *)

Fixpoint posToBinary (p : positive) : string :=
  match p with
  | xH => "1"
  | xO q => String.append (posToBinary q) "0"
  | xI q => String.append (posToBinary q) "1"
  end.

Definition toBinaryString (n : num) : string :=
  match n with
  | NaN => "NaN"
  | Num Z0 => "0"
  | Num (Zpos p) => posToBinary p
  | Num (Zneg p) => String "-" (posToBinary p)
  end.

(** ** 32-bit integer operators *)

Definition wrapInt32 (z : Z) : Z := (z + 2 ^ 31) mod 2 ^ 32 - 2 ^ 31.

(** [ToInt32]; [undefined] converts like [NaN]. *)
Definition toInt32 (n : num) : Z :=
  match n with
  | NaN => 0
  | Num z => wrapInt32 z
  end.

(** [a << k] *)
Definition shl (a : num) (k : Z) : Z :=
  wrapInt32 (Z.shiftl (toInt32 a) (k mod 32)).

(** [a | b] and [a & b] on values already in the int32 range *)
Definition bor (a b : Z) : Z := Z.lor a b.
Definition band (a b : Z) : Z := Z.land a b.

(** [a >>> 0] *)
Definition toUint32 (a : Z) : Z := a mod 2 ^ 32.

(** [~(2 ** k - 1)] for an integer [k], evaluated in IEEE-754 doubles and
    converted by [ToInt32]:
    - [0 <= k <= 31]: [2 ** k - 1] is exact and its complement is [-(2^k)];
    - [32 <= k <= 53]: [2 ** k - 1] is exact, its low 32 bits are all ones,
      so [ToInt32] gives [-1] and the complement is [0];
    - [54 <= k]: [2 ** k - 1] rounds to [2 ** k] (or is [Infinity]), which
      [ToInt32] maps to [0]; the complement is [-1];
    - [-53 <= k <= -1]: [2 ** k - 1] lies strictly between [-1] and [0] and
      truncates to [0]; the complement is [-1];
    - [k <= -54]: [2 ** k - 1] rounds to [-1]; the complement is [0]. *)
Definition notPow2Minus1 (k : Z) : Z :=
  if k <? -53 then 0
  else if k <? 0 then -1
  else if k <? 32 then Z.lnot (2 ^ k - 1)
  else if k <? 54 then 0
  else -1.

(** ** Set<string> and Map<string, V> in insertion order *)

Definition setHas (x : string) (s : list string) : bool :=
  existsb (String.eqb x) s.

Definition setAdd (x : string) (s : list string) : list string :=
  if setHas x s then s else s ++ [x].

Fixpoint mapGet {V : Type} (k : string) (m : list (string * V)) : option V :=
  match m with
  | [] => None
  | (k', v) :: m' => if String.eqb k k' then Some v else mapGet k m'
  end.

Definition mapHas {V : Type} (k : string) (m : list (string * V)) : bool :=
  match mapGet k m with
  | Some _ => true
  | None => false
  end.

(** [m.set(k, v)]: an existing key keeps its position. *)
Fixpoint mapSet {V : Type} (k : string) (v : V) (m : list (string * V))
  : list (string * V) :=
  match m with
  | [] => [(k, v)]
  | (k', v') :: m' =>
      if String.eqb k k' then (k, v) :: m' else (k', v') :: mapSet k v m'
  end.

Definition mapKeys {V : Type} (m : list (string * V)) : list string :=
  map fst m.

(** ** Array.prototype.sort() on strings: ascending code-unit order *)

Fixpoint strLeb (a b : string) : bool :=
  match a, b with
  | EmptyString, _ => true
  | String _ _, EmptyString => false
  | String x a', String y b' =>
      if code x <? code y then true
      else if code y <? code x then false
      else strLeb a' b'
  end.

Fixpoint insertSorted (x : string) (l : list string) : list string :=
  match l with
  | [] => [x]
  | y :: l' => if strLeb x y then x :: l else y :: insertSorted x l'
  end.

(** A stable insertion sort: elements are inserted from the right, and an
    element goes before the first one it does not exceed. *)
Definition sort (l : list string) : list string :=
  fold_right insertSorted [] l.

End JS.

Import JS.

(* ===================================================================== *)
(** * Data model ([interfaces/ip-ranges.interface.ts]) *)
(* ===================================================================== *)

Module IPPrefix.
Record t : Type := mk {
  ip_prefix : string;
  region : string;
  service : string;
  network_border_group : string
}.
End IPPrefix.

Module IPv6Prefix.
Record t : Type := mk {
  ipv6_prefix : string;
  region : string;
  service : string;
  network_border_group : string
}.
End IPv6Prefix.

(** The upstream document.  Types are erased at run time, so a property
    may be absent ([None] stands for [undefined]); a prefix list that is
    present is an array of well-typed records. *)
Module AWSIpRangesResponse.
Record t : Type := mk {
  syncToken : option string;
  createDate : option string;
  prefixes : option (list IPPrefix.t);
  ipv6_prefixes : option (list IPv6Prefix.t)
}.
End AWSIpRangesResponse.

Module Count.
Record t : Type := mk {
  ipv4 : nat;
  ipv6 : nat
}.
End Count.

Module ServiceIpRanges.
Record t : Type := mk {
  service : string;
  ipv4_prefixes : list string;
  ipv6_prefixes : list string;
  count : Count.t
}.
End ServiceIpRanges.

(** [Omit<ServiceIpRanges, 'service'>] *)
Module ServiceIpRangesRest.
Record t : Type := mk {
  ipv4_prefixes : list string;
  ipv6_prefixes : list string;
  count : Count.t
}.
End ServiceIpRangesRest.

Module ServicesListResponse.
Record t : Type := mk {
  services : list string;
  syncToken : string;
  lastUpdated : string
}.
End ServicesListResponse.

Module RegionsListResponse.
Record t : Type := mk {
  regions : list string;
  syncToken : string;
  lastUpdated : string
}.
End RegionsListResponse.

(** [services] is a [Record<string, ...>]; it is kept as the list of its
    properties.  The statements only look properties up by name: the
    enumeration order of a JavaScript object and its special property
    [__proto__] are not modelled. *)
Module AllServicesIpRanges.
Record t : Type := mk {
  syncToken : string;
  lastUpdated : string;
  services : list (string * ServiceIpRangesRest.t)
}.
End AllServicesIpRanges.

Module IpSearchMatch.
Record t : Type := mk {
  service : string;
  region : string;
  prefix : string;
  network_border_group : string
}.
End IpSearchMatch.

Module IpSearchResult.
Record t : Type := mk {
  ip : string;
  found : bool;
  matches : list IpSearchMatch.t
}.
End IpSearchResult.

(** What [response.data] can hold once the request has resolved: [null],
    a text that could not be decoded as structured data, or an object. *)
Inductive Body : Type :=
| BodyNull
| BodyText (s : string)
| BodyDoc (d : AWSIpRangesResponse.t).

(** The outcome of [httpService.get]: the promise rejects (transport
    failure, timeout, error status) or resolves with a response. *)
Inductive HttpOutcome : Type :=
| Rejected
| Resolved (data : Body).

(** What [fetchIpRanges] writes to the log when it finishes. *)
Inductive RefreshLog : Type :=
| LogSuccess
| LogFailure.

(* ===================================================================== *)
(** * The service ([ip-ranges.service.ts]) *)
(* ===================================================================== *)

Module IpRangesService.

(** The cached fields of the service. *)
Record State : Type := mkState {
  ipRangesData : Body;
  serviceIpRangesMap : list (string * ServiceIpRanges.t);
  lastUpdated : option string
}.

Definition initial : State :=
  {| ipRangesData := BodyNull; serviceIpRangesMap := []; lastUpdated := None |}.

(** ** Reading a body *)

(** JavaScript truthiness of the cached body. *)
Definition truthy (b : Body) : bool :=
  match b with
  | BodyNull => false
  | BodyText s => negb (String.eqb s "")
  | BodyDoc _ => true
  end.

Definition bodyPrefixes (b : Body) : option (list IPPrefix.t) :=
  match b with
  | BodyDoc d => AWSIpRangesResponse.prefixes d
  | _ => None
  end.

Definition bodyIpv6Prefixes (b : Body) : option (list IPv6Prefix.t) :=
  match b with
  | BodyDoc d => AWSIpRangesResponse.ipv6_prefixes d
  | _ => None
  end.

(** [this.ipRangesData?.syncToken || ''] *)
Definition syncTokenOrEmpty (b : Body) : string :=
  match b with
  | BodyDoc d =>
      match AWSIpRangesResponse.syncToken d with
      | Some t => t
      | None => ""
      end
  | _ => ""
  end.

(** [this.lastUpdated?.toISOString() || ''] *)
Definition lastUpdatedOrEmpty (st : State) : string :=
  match lastUpdated st with
  | Some iso => iso
  | None => ""
  end.

(** [for (const x of xs)] over a property: [undefined] is not iterable. *)
Definition iterable {A : Type} (xs : option (list A)) : Result (list A) :=
  match xs with
  | Some l => Return l
  | None => Throw TypeError
  end.

(** ** State-and-exception monad

    A computation takes the cached state and gives a result together with
    the state it leaves behind; an exception does not undo assignments. *)

Definition M (A : Type) : Type := State -> Result A * State.

Definition ret {A : Type} (a : A) : M A := fun st => (Return a, st).

Definition throw {A : Type} (e : JsError) : M A := fun st => (Throw e, st).

Definition bind {A B : Type} (c : M A) (k : A -> M B) : M B :=
  fun st =>
    match c st with
    | (Return a, st') => k a st'
    | (Throw e, st') => (Throw e, st')
    end.

Definition get : M State := fun st => (Return st, st).

Definition lift {A : Type} (r : Result A) : M A := fun st => (r, st).

Definition tryCatch {A : Type} (body : M A) (handler : JsError -> M A) : M A :=
  fun st =>
    match body st with
    | (Return a, st') => (Return a, st')
    | (Throw e, st') => handler e st'
    end.

Definition setIpRangesData (b : Body) : M unit :=
  fun st => (Return tt,
             {| ipRangesData := b;
                serviceIpRangesMap := serviceIpRangesMap st;
                lastUpdated := lastUpdated st |}).

Definition setLastUpdated (d : string) : M unit :=
  fun st => (Return tt,
             {| ipRangesData := ipRangesData st;
                serviceIpRangesMap := serviceIpRangesMap st;
                lastUpdated := Some d |}).

Definition setServiceIpRangesMap (m : list (string * ServiceIpRanges.t)) : M unit :=
  fun st => (Return tt,
             {| ipRangesData := ipRangesData st;
                serviceIpRangesMap := m;
                lastUpdated := lastUpdated st |}).

Declare Scope service_scope.
Delimit Scope service_scope with service.
Notation "x <- c ;; k" := (bind c (fun x => k))
  (at level 61, c at next level, right associativity) : service_scope.
Notation "c ;;; k" := (bind c (fun _ => k))
  (at level 61, right associativity) : service_scope.
Local Open Scope service_scope.

(** ** groupByService *)

(** The two sets kept per service while grouping. *)
Record Grouped : Type := mkGrouped {
  ipv4 : list string;
  ipv6 : list string
}.

Definition emptyGrouped : Grouped := {| ipv4 := []; ipv6 := [] |}.

(** [if (!serviceMap.has(s)) serviceMap.set(s, {ipv4: new Set(), ipv6: new Set()})] *)
Definition ensureService (s : string) (m : list (string * Grouped))
  : list (string * Grouped) :=
  if mapHas s m then m else mapSet s emptyGrouped m.

(** [serviceMap.get(s)!.ipv4.add(p)]: the entry is updated in place. *)
Definition addIpv4 (m : list (string * Grouped)) (prefix : IPPrefix.t)
  : list (string * Grouped) :=
  let s := IPPrefix.service prefix in
  let m' := ensureService s m in
  match mapGet s m' with
  | Some g =>
      mapSet s {| ipv4 := setAdd (IPPrefix.ip_prefix prefix) (ipv4 g);
                  ipv6 := ipv6 g |} m'
  | None => m'
  end.

Definition addIpv6 (m : list (string * Grouped)) (prefix : IPv6Prefix.t)
  : list (string * Grouped) :=
  let s := IPv6Prefix.service prefix in
  let m' := ensureService s m in
  match mapGet s m' with
  | Some g =>
      mapSet s {| ipv4 := ipv4 g;
                  ipv6 := setAdd (IPv6Prefix.ipv6_prefix prefix) (ipv6 g) |} m'
  | None => m'
  end.

Definition toServiceIpRanges (service : string) (ranges : Grouped)
  : ServiceIpRanges.t :=
  let ipv4Array := ipv4 ranges in
  let ipv6Array := ipv6 ranges in
  {| ServiceIpRanges.service := service;
     ServiceIpRanges.ipv4_prefixes := ipv4Array;
     ServiceIpRanges.ipv6_prefixes := ipv6Array;
     ServiceIpRanges.count :=
       {| Count.ipv4 := List.length ipv4Array;
          Count.ipv6 := List.length ipv6Array |} |}.

(** The grouping loops of [groupByService], as a function of the two
    prefix lists. *)
Definition groupPrefixes (prefixes : list IPPrefix.t)
    (ipv6_prefixes : option (list IPv6Prefix.t)) : list (string * Grouped) :=
  let serviceMap := fold_left addIpv4 prefixes [] in
  match ipv6_prefixes with
  | Some l => fold_left addIpv6 l serviceMap
  | None => serviceMap
  end.

(** [this.serviceIpRangesMap.clear()] followed by one [set] per service. *)
Definition rebuildMap (serviceMap : list (string * Grouped))
  : list (string * ServiceIpRanges.t) :=
  fold_left
    (fun acc entry => mapSet (fst entry) (toServiceIpRanges (fst entry) (snd entry)) acc)
    serviceMap [].

Definition groupByService : M unit :=
  st <- get ;;
  if negb (truthy (ipRangesData st)) then ret tt
  else
    prefixes <- lift (iterable (bodyPrefixes (ipRangesData st))) ;;
    setServiceIpRangesMap
      (rebuildMap (groupPrefixes prefixes (bodyIpv6Prefixes (ipRangesData st)))).

(** ** fetchIpRanges *)

(** [await firstValueFrom(this.httpService.get(...))] *)
Definition awaitGet (http : HttpOutcome) : M Body :=
  match http with
  | Rejected => throw AxiosError
  | Resolved data => ret data
  end.

(** The success message reads [this.ipRangesData.syncToken] and
    [this.ipRangesData.prefixes.length]; both throw on a missing object. *)
Definition logSuccess : M RefreshLog :=
  st <- get ;;
  match ipRangesData st with
  | BodyNull => throw TypeError
  | b =>
      match bodyPrefixes b with
      | Some _ => ret LogSuccess
      | None => throw TypeError
      end
  end.

(** The part of [fetchIpRanges] that runs once the request has settled
    with outcome [http] at time [now]. *)
Definition fetchIpRanges (http : HttpOutcome) (now : string) : M RefreshLog :=
  tryCatch
    (data <- awaitGet http ;;
     setIpRangesData data ;;;
     setLastUpdated now ;;;
     groupByService ;;;
     logSuccess)
    (fun _ => ret LogFailure).

(** The state left by one refresh cycle. *)
Definition refresh (st : State) (http : HttpOutcome) (now : string) : State :=
  snd (fetchIpRanges http now st).

Definition refreshLog (st : State) (http : HttpOutcome) (now : string) : RefreshLog :=
  match fst (fetchIpRanges http now st) with
  | Return l => l
  | Throw _ => LogFailure
  end.

(** ** Listing queries *)

(** [getServices] *)
Definition getServices (st : State) : ServicesListResponse.t :=
  let services := JS.sort (mapKeys (serviceIpRangesMap st)) in
  {| ServicesListResponse.services := services;
     ServicesListResponse.syncToken := syncTokenOrEmpty (ipRangesData st);
     ServicesListResponse.lastUpdated := lastUpdatedOrEmpty st |}.

(** The region set built by the two loops of [getRegions]. *)
Definition regionSet (prefixes : list IPPrefix.t)
    (ipv6_prefixes : option (list IPv6Prefix.t)) : list string :=
  let s := fold_left (fun acc prefix => setAdd (IPPrefix.region prefix) acc) prefixes [] in
  match ipv6_prefixes with
  | Some l => fold_left (fun acc prefix => setAdd (IPv6Prefix.region prefix) acc) l s
  | None => s
  end.

(** [getRegions] *)
Definition getRegions (st : State) : Result RegionsListResponse.t :=
  rbind
    (if truthy (ipRangesData st)
     then rbind (iterable (bodyPrefixes (ipRangesData st)))
            (fun prefixes =>
               Return (regionSet prefixes (bodyIpv6Prefixes (ipRangesData st))))
     else Return [])
    (fun regionSet =>
       Return {| RegionsListResponse.regions := JS.sort regionSet;
                 RegionsListResponse.syncToken := syncTokenOrEmpty (ipRangesData st);
                 RegionsListResponse.lastUpdated := lastUpdatedOrEmpty st |}).

(** ** Service queries *)

(** Truthiness of the optional [region] argument: [undefined] and the
    empty string are falsy. *)
Definition regionGiven (region : option string) : option string :=
  match region with
  | Some r => if String.eqb r "" then None else Some r
  | None => None
  end.

Definition matches4 (service upperRegion : string) (prefix : IPPrefix.t) : bool :=
  String.eqb (toUpperCase (IPPrefix.service prefix)) service &&
  String.eqb (toUpperCase (IPPrefix.region prefix)) upperRegion.

Definition matches6 (service upperRegion : string) (prefix : IPv6Prefix.t) : bool :=
  String.eqb (toUpperCase (IPv6Prefix.service prefix)) service &&
  String.eqb (toUpperCase (IPv6Prefix.region prefix)) upperRegion.

(** The loop [for (...) if (...) out.push(...)] *)
Definition pushMatching {A : Type} (keep : A -> bool) (field : A -> string)
    (xs : list A) : list string :=
  fold_left (fun out x => if keep x then out ++ [field x] else out) xs [].

(** [filterByServiceAndRegion]; [service] arrives upper-cased. *)
Definition filterByServiceAndRegion (st : State) (service region : string)
  : Result (option ServiceIpRanges.t) :=
  if negb (truthy (ipRangesData st)) then Return None
  else
    let upperRegion := toUpperCase region in
    rbind (iterable (bodyPrefixes (ipRangesData st))) (fun prefixes =>
      let ipv4Prefixes :=
        pushMatching (matches4 service upperRegion) IPPrefix.ip_prefix prefixes in
      let ipv6Prefixes :=
        match bodyIpv6Prefixes (ipRangesData st) with
        | Some l => pushMatching (matches6 service upperRegion) IPv6Prefix.ipv6_prefix l
        | None => []
        end in
      if (Nat.eqb (List.length ipv4Prefixes) 0 && Nat.eqb (List.length ipv6Prefixes) 0)%bool
      then Return None
      else Return (Some
        {| ServiceIpRanges.service := service;
           ServiceIpRanges.ipv4_prefixes := ipv4Prefixes;
           ServiceIpRanges.ipv6_prefixes := ipv6Prefixes;
           ServiceIpRanges.count :=
             {| Count.ipv4 := List.length ipv4Prefixes;
                Count.ipv6 := List.length ipv6Prefixes |} |})).

(** The loop of [getServiceIpRanges] over the map: the first entry whose
    upper-cased key equals [upperService]. *)
Fixpoint firstByUpperKey (upperService : string)
    (m : list (string * ServiceIpRanges.t)) : option ServiceIpRanges.t :=
  match m with
  | [] => None
  | (key, value) :: m' =>
      if String.eqb (toUpperCase key) upperService then Some value
      else firstByUpperKey upperService m'
  end.

(** [getServiceIpRanges(service, region?)] *)
Definition getServiceIpRanges (st : State) (service : string)
    (region : option string) : Result (option ServiceIpRanges.t) :=
  let upperService := toUpperCase service in
  match regionGiven region, truthy (ipRangesData st) with
  | Some r, true => filterByServiceAndRegion st upperService r
  | _, _ => Return (firstByUpperKey upperService (serviceIpRangesMap st))
  end.

(** [const { service: _, ...rest } = ranges] *)
Definition omitService (ranges : ServiceIpRanges.t) : ServiceIpRangesRest.t :=
  {| ServiceIpRangesRest.ipv4_prefixes := ServiceIpRanges.ipv4_prefixes ranges;
     ServiceIpRangesRest.ipv6_prefixes := ServiceIpRanges.ipv6_prefixes ranges;
     ServiceIpRangesRest.count := ServiceIpRanges.count ranges |}.

(** One turn of the region-filtered loop of [getAllServiceIpRanges]. *)
Definition addFiltered (st : State) (region : string)
    (acc : Result (list (string * ServiceIpRangesRest.t))) (serviceName : string)
  : Result (list (string * ServiceIpRangesRest.t)) :=
  rbind acc (fun services =>
    rbind (filterByServiceAndRegion st (toUpperCase serviceName) region) (fun filtered =>
      match filtered with
      | Some f =>
          if (Nat.ltb 0 (Count.ipv4 (ServiceIpRanges.count f)) ||
              Nat.ltb 0 (Count.ipv6 (ServiceIpRanges.count f)))%bool
          then Return (mapSet serviceName (omitService f) services)
          else Return services
      | None => Return services
      end)).

(** [getAllServiceIpRanges(region?)] *)
Definition getAllServiceIpRanges (st : State) (region : option string)
  : Result AllServicesIpRanges.t :=
  rbind
    (match regionGiven region, truthy (ipRangesData st) with
     | Some r, true =>
         fold_left (addFiltered st r) (mapKeys (serviceIpRangesMap st)) (Return [])
     | _, _ =>
         Return (fold_left
                   (fun services entry => mapSet (fst entry) (omitService (snd entry)) services)
                   (serviceIpRangesMap st) [])
     end)
    (fun services =>
       Return {| AllServicesIpRanges.syncToken := syncTokenOrEmpty (ipRangesData st);
                 AllServicesIpRanges.lastUpdated := lastUpdatedOrEmpty st;
                 AllServicesIpRanges.services := services |}).

(** [isDataLoaded] *)
Definition isDataLoaded (st : State) : bool :=
  match ipRangesData st with
  | BodyNull => false
  | _ => true
  end.

(** ** Address arithmetic *)

(** [const [range, bits] = cidr.split('/')]: [split] always yields a first
    piece (see [splitFrom_nonempty]); the second may be [undefined]. *)
Definition cidrRange (cidr : string) : string := nth 0 (split "/" cidr) "".

Definition cidrBits (cidr : string) : option string := nth_error (split "/" cidr) 1.

(** [ipv4ToNumber]: a missing part is [undefined], which [<<] and [|]
    convert to 0 exactly as they convert [NaN]. *)
Definition ipv4ToNumber (ip : string) : Z :=
  let parts := map (fun p => parseInt p 10) (split "." ip) in
  let part := fun i => nth i parts NaN in
  toUint32
    (bor (bor (bor (shl (part 0%nat) 24) (shl (part 1%nat) 16))
              (shl (part 2%nat) 8))
         (toInt32 (part 3%nat))).

(** [~(2 ** (32 - parseInt(bits, 10)) - 1)]; with [NaN] the operand of [~]
    is [NaN], which converts to 0. *)
Definition cidrMask (bits : option string) : Z :=
  match parseIntOpt bits 10 with
  | NaN => Z.lnot 0
  | Num n => notPow2Minus1 (32 - n)
  end.

(** [isIpv4InCidr] *)
Definition isIpv4InCidr (ip cidr : string) : bool :=
  let range := cidrRange cidr in
  let mask := cidrMask (cidrBits cidr) in
  let ipNum := ipv4ToNumber ip in
  let rangeNum := ipv4ToNumber range in
  band (wrapInt32 ipNum) mask =? band (wrapInt32 rangeNum) mask.

(** [parts[i] ? parts[i].split(':') : []] *)
Definition splitSide (part : option string) : list string :=
  match part with
  | Some p => if String.eqb p "" then [] else split ":" p
  | None => []
  end.

(** [expandIpv6]; [Array(missing)] throws a [RangeError] when [missing] is
    negative. *)
Definition expandIpv6 (ip : string) : Result string :=
  if includes "::" ip then
    let parts := split "::" ip in
    let left := splitSide (nth_error parts 0) in
    let right := splitSide (nth_error parts 1) in
    let missing := 8 - Z.of_nat (List.length left) - Z.of_nat (List.length right) in
    if missing <? 0 then Throw RangeError
    else
      let middle := repeat "0000" (Z.to_nat missing) in
      let all := left ++ middle ++ right in
      Return (join ":" (map (padStart 4 "0") all))
  else
    Return (join ":" (map (padStart 4 "0") (split ":" ip))).

(** [ipv6ToBinary] *)
Definition ipv6ToBinary (ip : string) : string :=
  join ""
    (map (fun hex => padStart 16 "0" (toBinaryString (parseInt hex 16)))
         (split ":" ip)).

(** [isIpv6InCidr] *)
Definition isIpv6InCidr (ip cidr : string) : Result bool :=
  let range := cidrRange cidr in
  let prefixBits := parseIntOpt (cidrBits cidr) 10 in
  rbind (expandIpv6 ip) (fun ipExpanded =>
  rbind (expandIpv6 range) (fun rangeExpanded =>
    let ipBinary := ipv6ToBinary ipExpanded in
    let rangeBinary := ipv6ToBinary rangeExpanded in
    Return (String.eqb (substring0 prefixBits ipBinary)
                       (substring0 prefixBits rangeBinary)))).

(** ** searchByIp *)

Definition match4 (prefix : IPPrefix.t) : IpSearchMatch.t :=
  {| IpSearchMatch.service := IPPrefix.service prefix;
     IpSearchMatch.region := IPPrefix.region prefix;
     IpSearchMatch.prefix := IPPrefix.ip_prefix prefix;
     IpSearchMatch.network_border_group := IPPrefix.network_border_group prefix |}.

Definition match6 (prefix : IPv6Prefix.t) : IpSearchMatch.t :=
  {| IpSearchMatch.service := IPv6Prefix.service prefix;
     IpSearchMatch.region := IPv6Prefix.region prefix;
     IpSearchMatch.prefix := IPv6Prefix.ipv6_prefix prefix;
     IpSearchMatch.network_border_group := IPv6Prefix.network_border_group prefix |}.

(** One turn of the IPv4 loop. *)
Definition scan4 (ip : string) (matches : list IpSearchMatch.t) (prefix : IPPrefix.t)
  : list IpSearchMatch.t :=
  if isIpv4InCidr ip (IPPrefix.ip_prefix prefix)
  then matches ++ [match4 prefix] else matches.

(** One turn of the IPv6 loop; an exception ends the loop. *)
Definition scan6 (ip : string) (acc : Result (list IpSearchMatch.t))
    (prefix : IPv6Prefix.t) : Result (list IpSearchMatch.t) :=
  rbind acc (fun matches =>
    rbind (isIpv6InCidr ip (IPv6Prefix.ipv6_prefix prefix)) (fun inside =>
      Return (if inside then matches ++ [match6 prefix] else matches))).

Definition searchResult (ip : string) (matches : list IpSearchMatch.t)
  : IpSearchResult.t :=
  {| IpSearchResult.ip := ip;
     IpSearchResult.found := Nat.ltb 0 (List.length matches);
     IpSearchResult.matches := matches |}.

(** [searchByIp] *)
Definition searchByIp (st : State) (ip : string) : Result IpSearchResult.t :=
  if negb (truthy (ipRangesData st))
  then Return {| IpSearchResult.ip := ip;
                 IpSearchResult.found := false;
                 IpSearchResult.matches := [] |}
  else
    let isIPv6 := includes ":" ip in
    rbind
      (if isIPv6 then
         match bodyIpv6Prefixes (ipRangesData st) with
         | Some l => fold_left (scan6 ip) l (Return [])
         | None => Return []
         end
       else
         rbind (iterable (bodyPrefixes (ipRangesData st)))
           (fun prefixes => Return (fold_left (scan4 ip) prefixes [])))
      (fun matches => Return (searchResult ip matches)).

End IpRangesService.

(* ===================================================================== *)
(** * The controller *)
(* ===================================================================== *)

Module IpRangesController.

Import IpRangesService.

(** [ensureDataLoaded] *)
Definition ensureDataLoaded (st : State) : Result unit :=
  if negb (isDataLoaded st) then Throw ServiceUnavailableException
  else Return tt.

(** GET /ip-ranges/services *)
Definition getServices (st : State) : Result ServicesListResponse.t :=
  rbind (ensureDataLoaded st) (fun _ => Return (IpRangesService.getServices st)).

(** GET /ip-ranges/regions *)
Definition getRegions (st : State) : Result RegionsListResponse.t :=
  rbind (ensureDataLoaded st) (fun _ => IpRangesService.getRegions st).

(** GET /ip-ranges?region=... *)
Definition getAllIpRanges (st : State) (region : option string)
  : Result AllServicesIpRanges.t :=
  rbind (ensureDataLoaded st) (fun _ => IpRangesService.getAllServiceIpRanges st region).

(** The message of the [NotFoundException]: [service] and [region] are
    quoted as they were given. *)
Definition notFoundMessage (service : string) (region : option string) : string :=
  let regionMsg :=
    match regionGiven region with
    | Some r => String.append " in region '" (String.append r "'")
    | None => ""
    end in
  String.append "Service '"
    (String.append service
       (String.append "'"
          (String.append regionMsg
             " not found. Use GET /ip-ranges/services to see available services."))).

(** GET /ip-ranges/:service?region=... *)
Definition getServiceIpRanges (st : State) (service : string)
    (region : option string) : Result ServiceIpRanges.t :=
  rbind (ensureDataLoaded st) (fun _ =>
    rbind (IpRangesService.getServiceIpRanges st service region) (fun result =>
      match result with
      | None => Throw (NotFoundException (notFoundMessage service region))
      | Some r => Return r
      end)).

End IpRangesController.

(* ===================================================================== *)
(** * Refresh triggers *)
(* ===================================================================== *)

Module Scheduler.

Import IpRangesService.

(** The service together with the requests that [fetchIpRanges] has
    issued and that have not settled yet, oldest first, each named by its
    rank among the requests issued.  JavaScript runs each piece of code
    between two [await]s without interruption, so a run of the system is
    a sequence of such pieces: a trigger runs [fetchIpRanges] up to its
    [await], and a settlement runs the rest of the call that issued the
    request. *)
Record System : Type := mkSystem {
  service : State;
  pending : list nat;
  issued : nat
}.

Definition boot : System := {| service := initial; pending := []; issued := 0 |}.

(** The refreshes in flight. *)
Definition inFlight (sys : System) : nat := List.length (pending sys).

(** [fetchIpRanges] up to its [await]: the request is issued; no cached
    field is read or written. *)
Definition startFetch (sys : System) : System :=
  {| service := service sys;
     pending := pending sys ++ [issued sys];
     issued := S (issued sys) |}.

(** [onModuleInit] and [handleCron] log a line and call [fetchIpRanges]. *)
Definition onModuleInit (sys : System) : System := startFetch sys.

Definition handleCron (sys : System) : System := startFetch sys.

(** The pending request [id] settles and the rest of its [fetchIpRanges]
    runs on the state it finds. *)
Definition settle (id : nat) (http : HttpOutcome) (now : string) (sys : System)
  : System :=
  if existsb (Nat.eqb id) (pending sys)
  then {| service := refresh (service sys) http now;
          pending := filter (fun i => negb (Nat.eqb i id)) (pending sys);
          issued := issued sys |}
  else sys.

Inductive Event : Type :=
| ModuleInit
| CronTick
| Settled (id : nat) (http : HttpOutcome) (now : string).

Definition step (sys : System) (ev : Event) : System :=
  match ev with
  | ModuleInit => onModuleInit sys
  | CronTick => handleCron sys
  | Settled id http now => settle id http now sys
  end.

Definition run (evs : list Event) (sys : System) : System :=
  fold_left step evs sys.

End Scheduler.

(* ===================================================================== *)
(** * Address literals *)
(* ===================================================================== *)

(** What the text of an address denotes, stated independently of the
    parsing code: digit tables, positional notation, and the layout of
    dotted-decimal and colon-hexadecimal literals (hexadecimal groups with
    at most one [::] run of zero groups). *)

Module Literal.

(** The position of a character in an alphabet of digits. *)
Fixpoint indexOf (c : ascii) (alphabet : string) : option Z :=
  match alphabet with
  | EmptyString => None
  | String a rest =>
      if Ascii.eqb c a then Some 0 else option_map Z.succ (indexOf c rest)
  end.

Definition decDigit (c : ascii) : option Z := indexOf c "0123456789".

Definition hexDigit (c : ascii) : option Z :=
  match indexOf c "0123456789abcdef" with
  | Some d => Some d
  | None => indexOf c "0123456789ABCDEF"
  end.

(** The digits of a numeral, most significant first. *)
Fixpoint digitsOf (digit : ascii -> option Z) (s : string) : option (list Z) :=
  match s with
  | EmptyString => Some []
  | String c s' =>
      match digit c, digitsOf digit s' with
      | Some d, Some ds => Some (d :: ds)
      | _, _ => None
      end
  end.

Fixpoint positional (R : Z) (ds : list Z) : Z :=
  match ds with
  | [] => 0
  | d :: ds' => d * R ^ Z.of_nat (List.length ds') + positional R ds'
  end.

(** [numeral digit R s v]: [s] is a non-empty numeral in radix [R] whose
    value is [v]. *)
Definition numeral (digit : ascii -> option Z) (R : Z) (s : string) (v : Z) : Prop :=
  s <> EmptyString /\
  exists ds, digitsOf digit s = Some ds /\ positional R ds = v.

Definition Octet (s : string) (v : Z) : Prop :=
  numeral decDigit 10 s v /\ v <= 255.

Definition HexGroup (s : string) (v : Z) : Prop :=
  numeral hexDigit 16 s v /\ (String.length s <= 4)%nat.

(** The integer made of 16-bit groups, most significant first. *)
Definition groupsValue (gs : list Z) : Z :=
  fold_left (fun acc g => acc * 2 ^ 16 + g) gs 0.

(** [Ipv4Text s a]: [s] is the dotted-decimal text of the 32-bit address
    [a]. *)
Inductive Ipv4Text : string -> Z -> Prop :=
| Ipv4Dotted (o1 o2 o3 o4 : string) (v1 v2 v3 v4 : Z) :
    Octet o1 v1 -> Octet o2 v2 -> Octet o3 v3 -> Octet o4 v4 ->
    Ipv4Text (join "." [o1; o2; o3; o4])
             (v1 * 2 ^ 24 + v2 * 2 ^ 16 + v3 * 2 ^ 8 + v4).

(** [Ipv6Text s a]: [s] is the colon-hexadecimal text of the 128-bit
    address [a], written in full or with one [::]. *)
Inductive Ipv6Text : string -> Z -> Prop :=
| Ipv6Full (gs : list string) (vs : list Z) :
    List.length gs = 8%nat ->
    Forall2 HexGroup gs vs ->
    Ipv6Text (join ":" gs) (groupsValue vs)
| Ipv6Compressed (l r : list string) (vl vr : list Z) :
    (List.length l + List.length r <= 7)%nat ->
    Forall2 HexGroup l vl ->
    Forall2 HexGroup r vr ->
    Ipv6Text (String.append (join ":" l) (String.append "::" (join ":" r)))
             (groupsValue
                (vl ++ repeat 0 (8 - List.length l - List.length r) ++ vr)).

(** [CidrText addr width s base len]: [s] is [address/len] with [address]
    the text of [base] and [len] a decimal prefix length within [width]. *)
Inductive CidrText (addr : string -> Z -> Prop) (width : Z)
  : string -> Z -> Z -> Prop :=
| CidrSlash (a bits : string) (base len : Z) :
    addr a base ->
    numeral decDigit 10 bits len ->
    len <= width ->
    CidrText addr width (String.append a (String "/" bits)) base len.

(** Two [width]-bit integers agree on their top [len] bits. *)
Definition sameTopBits (width len x y : Z) : Prop :=
  Z.shiftr x (width - len) = Z.shiftr y (width - len).


(** Case-insensitive equality of names. *)
Definition sameName (a b : string) : Prop := toUpperCase a = toUpperCase b.

End Literal.

(* ===================================================================== *)
(** * Vocabulary of the statements *)
(* ===================================================================== *)

Import IpRangesService.

(** A sequence of refresh cycles, each with the outcome of its request and
    the time at which it settled. *)
Definition runRefreshes (cycles : list (HttpOutcome * string)) (st : State) : State :=
  fold_left (fun s c => refresh s (fst c) (snd c)) cycles st.

(** The states the service can be in. *)
Definition Reachable (st : State) : Prop :=
  exists cycles, st = runRefreshes cycles initial.

(** [st] was published by a successful refresh that fetched [doc]. *)
Definition Loaded (st : State) (doc : AWSIpRangesResponse.t) : Prop :=
  exists st0 now,
    refreshLog st0 (Resolved (BodyDoc doc)) now = LogSuccess /\
    st = refresh st0 (Resolved (BodyDoc doc)) now.

(** The IPv6 records of a document, none when the list is absent. *)
Definition ipv6Records (doc : AWSIpRangesResponse.t) : list IPv6Prefix.t :=
  match AWSIpRangesResponse.ipv6_prefixes doc with
  | Some l => l
  | None => []
  end.

(** The prefixes listed for a service in an all-services answer. *)
Definition ipv4Of (s : string) (all : AllServicesIpRanges.t) : list string :=
  match mapGet s (AllServicesIpRanges.services all) with
  | Some rest => ServiceIpRangesRest.ipv4_prefixes rest
  | None => []
  end.

Definition ipv6Of (s : string) (all : AllServicesIpRanges.t) : list string :=
  match mapGet s (AllServicesIpRanges.services all) with
  | Some rest => ServiceIpRangesRest.ipv6_prefixes rest
  | None => []
  end.

(** Every service name of the document that equals [s] up to letter case
    is [s] itself. *)
Definition CaseUnique (doc : AWSIpRangesResponse.t) (ps : list IPPrefix.t)
    (s : string) : Prop :=
  (forall rec, In rec ps ->
     toUpperCase (IPPrefix.service rec) = toUpperCase s -> IPPrefix.service rec = s) /\
  (forall rec, In rec (ipv6Records doc) ->
     toUpperCase (IPv6Prefix.service rec) = toUpperCase s -> IPv6Prefix.service rec = s).

(** The count fields of an answer equal the lengths of its lists. *)
Definition CountsAgree (r : ServiceIpRanges.t) : Prop :=
  Count.ipv4 (ServiceIpRanges.count r) = List.length (ServiceIpRanges.ipv4_prefixes r) /\
  Count.ipv6 (ServiceIpRanges.count r) = List.length (ServiceIpRanges.ipv6_prefixes r).

Definition RestCountsAgree (r : ServiceIpRangesRest.t) : Prop :=
  Count.ipv4 (ServiceIpRangesRest.count r) = List.length (ServiceIpRangesRest.ipv4_prefixes r) /\
  Count.ipv6 (ServiceIpRangesRest.count r) = List.length (ServiceIpRangesRest.ipv6_prefixes r).

(** The sets grouped so far for a service, empty when it has no entry. *)
Definition entryOf (s : string) (m : list (string * Grouped)) : Grouped :=
  match mapGet s m with
  | Some g => g
  | None => emptyGrouped
  end.

(** The service names of a document, IPv4 records first. *)
Definition serviceNames (ps : list IPPrefix.t) (qs : list IPv6Prefix.t) : list string :=
  map IPPrefix.service ps ++ map IPv6Prefix.service qs.

(** What an entry of the per-service map is made from. *)
Definition publishEntry (e : string * Grouped) : string * ServiceIpRanges.t :=
  (fst e, toServiceIpRanges (fst e) (snd e)).

(** The prefixes of the records that pass the region filter. *)
Definition regionIpv4 (service region : string) (ps : list IPPrefix.t) : list string :=
  map IPPrefix.ip_prefix (filter (matches4 service (toUpperCase region)) ps).

Definition regionIpv6 (service region : string) (qs : list IPv6Prefix.t) : list string :=
  map IPv6Prefix.ipv6_prefix (filter (matches6 service (toUpperCase region)) qs).

(** The records accepted by the two loops of [searchByIp]. *)
Definition inside4 (ip : string) (rec : IPPrefix.t) : bool :=
  isIpv4InCidr ip (IPPrefix.ip_prefix rec).

Definition inside6 (ip : string) (rec : IPv6Prefix.t) : bool :=
  match isIpv6InCidr ip (IPv6Prefix.ipv6_prefix rec) with
  | Return true => true
  | _ => false
  end.

(** An accumulated [services] object agrees with the region filter on the
    service names seen so far and has no other property. *)
Definition FilteredSoFar (doc : AWSIpRangesResponse.t) (ps : list IPPrefix.t)
    (region : string) (seen : list string)
    (acc : list (string * ServiceIpRangesRest.t)) : Prop :=
  forall s,
    (In s seen ->
     match mapGet s acc with
     | Some rest =>
         ServiceIpRangesRest.ipv4_prefixes rest = regionIpv4 (toUpperCase s) region ps /\
         ServiceIpRangesRest.ipv6_prefixes rest =
           regionIpv6 (toUpperCase s) region (ipv6Records doc)
     | None =>
         regionIpv4 (toUpperCase s) region ps = [] /\
         regionIpv6 (toUpperCase s) region (ipv6Records doc) = []
     end) /\
    (~ In s seen -> mapGet s acc = None).

(** Every character of a string satisfies [P]. *)
Fixpoint Every (P : ascii -> Prop) (s : string) : Prop :=
  match s with
  | EmptyString => True
  | String c s' => P c /\ Every P s'
  end.

(** The [w] low bits of [v] as a string of binary digits, most significant
    first. *)
Fixpoint binaryBE (w : nat) (v : Z) : string :=
  match w with
  | O => EmptyString
  | S w' => String.append (binaryBE w' (v / 2)) (if Z.odd v then "1" else "0")
  end.

(** A character that [parseInt] neither skips nor reads as a sign, and
    that is none of the separators of an address or of the hexadecimal
    prefix. *)
Definition PlainChar (c : ascii) : Prop :=
  isWhiteSpace c = false /\
  c <> "-"%char /\ c <> "+"%char /\ c <> "x"%char /\ c <> "X"%char /\
  c <> "."%char /\ c <> ":"%char /\ c <> "/"%char.

(** The state in which the caught exception leaves the service once the
    body has been stored. *)
Definition stored (st : State) (data : Body) (now : string) : State :=
  {| ipRangesData := data;
     serviceIpRangesMap := serviceIpRangesMap st;
     lastUpdated := Some now |}.

(** Ascending code-unit order, the order of [Array.prototype.sort()]. *)
Definition codeUnitLe (a b : string) : Prop := strLeb a b = true.

(** The elements of a list in order of first appearance, each once: the
    iteration order of a [Set] or of the keys of a [Map] filled from the
    list. *)
Fixpoint firstOccurrences (l : list string) : list string :=
  match l with
  | [] => []
  | x :: r => x :: filter (fun y => negb (String.eqb y x)) (firstOccurrences r)
  end.

(** An outcome of the request from which no index can be built: a
    rejection, or a body without a [prefixes] list. *)
Definition Unusable (http : HttpOutcome) : Prop :=
  match http with
  | Rejected => True
  | Resolved data => bodyPrefixes data = None
  end.


(** Two answers of an endpoint are the same payload or exceptions of
    the same kind, the message of a [NotFoundException] apart. *)
Definition SameUpToMessage {A : Type} (x y : Result A) : Prop :=
  match x, y with
  | Return a, Return b => a = b
  | Throw (NotFoundException _), Throw (NotFoundException _) => True
  | Throw e, Throw e' => e = e'
  | _, _ => False
  end.

(** An event that calls [fetchIpRanges] from its start. *)
Definition isTrigger (ev : Scheduler.Event) : bool :=
  match ev with
  | Scheduler.Settled _ _ _ => false
  | _ => true
  end.

(** ** Sample documents *)

Module Sample.

Definition ec2East : IPPrefix.t :=
  {| IPPrefix.ip_prefix := "1.2.3.0/24"; IPPrefix.region := "us-east-1";
     IPPrefix.service := "EC2"; IPPrefix.network_border_group := "us-east-1" |}.

Definition ec2West : IPPrefix.t :=
  {| IPPrefix.ip_prefix := "1.2.4.0/24"; IPPrefix.region := "us-west-2";
     IPPrefix.service := "EC2"; IPPrefix.network_border_group := "us-west-2" |}.


Definition lowerEast : IPPrefix.t :=
  {| IPPrefix.ip_prefix := "1.2.4.0/24"; IPPrefix.region := "us-east-1";
     IPPrefix.service := "ec2"; IPPrefix.network_border_group := "us-east-1" |}.

Definition upperNoRegion : IPPrefix.t :=
  {| IPPrefix.ip_prefix := "1.2.3.0/24"; IPPrefix.region := "";
     IPPrefix.service := "EC2"; IPPrefix.network_border_group := "" |}.

Definition lowerNoRegion : IPPrefix.t :=
  {| IPPrefix.ip_prefix := "1.2.4.0/24"; IPPrefix.region := "";
     IPPrefix.service := "ec2"; IPPrefix.network_border_group := "" |}.

Definition cloudfront6 : IPv6Prefix.t :=
  {| IPv6Prefix.ipv6_prefix := "2600:9000:5206::/48"; IPv6Prefix.region := "GLOBAL";
     IPv6Prefix.service := "CLOUDFRONT"; IPv6Prefix.network_border_group := "GLOBAL" |}.

Definition document (ps : list IPPrefix.t) (qs : list IPv6Prefix.t)
  : AWSIpRangesResponse.t :=
  {| AWSIpRangesResponse.syncToken := Some "1766626705";
     AWSIpRangesResponse.createDate := Some "2025-12-25-01-38-25";
     AWSIpRangesResponse.prefixes := Some ps;
     AWSIpRangesResponse.ipv6_prefixes := Some qs |}.

(** An object that carries a token but neither prefix list. *)
Definition noLists : AWSIpRangesResponse.t :=
  {| AWSIpRangesResponse.syncToken := Some "1766626705";
     AWSIpRangesResponse.createDate := None;
     AWSIpRangesResponse.prefixes := None;
     AWSIpRangesResponse.ipv6_prefixes := None |}.

Definition loadedWith (ps : list IPPrefix.t) (qs : list IPv6Prefix.t) : State :=
  refresh initial (Resolved (BodyDoc (document ps qs))) "2025-12-30T10:22:32.506Z".

(** States used in the examples: a published document, and the same
    service after a later response that carries no prefix list. *)
Definition published : State := loadedWith [ec2East; ec2West] [cloudfront6].

Definition afterBadDocument : State :=
  refresh published (Resolved (BodyDoc noLists)) "2025-12-30T10:52:32.506Z".

Definition firstBadDocument : State :=
  refresh initial (Resolved (BodyDoc noLists)) "2025-12-30T10:22:32.506Z".

(** The same record twice, and service names that differ by case only. *)
Definition duplicated : State := loadedWith [ec2East; ec2East] [].

Definition mixedCase : State := loadedWith [ec2East; lowerEast] [].

Definition mixedCaseNoRegion : State := loadedWith [upperNoRegion; lowerNoRegion] [].


End Sample.

(* ===================================================================== *)
(** * Tactics *)
(* ===================================================================== *)

Import Scheduler.

(** Runs the monadic code of a refresh cycle as far as the stored body
    allows. *)
Ltac run_refresh :=
  cbv beta iota zeta delta
    [refresh refreshLog fetchIpRanges tryCatch bind awaitGet ret
     setIpRangesData setLastUpdated groupByService logSuccess get lift
     setServiceIpRangesMap throw fst snd truthy negb iterable bodyPrefixes
     bodyIpv6Prefixes ipRangesData serviceIpRangesMap lastUpdated].

(** Case analysis on the eight bits of a character. *)
Ltac each_ascii c :=
  destruct c as [[] [] [] [] [] [] [] []].

(* ===================================================================== *)
(** * Lemmas on the primitives *)
(* ===================================================================== *)

Section Containers.

Context {V : Type}.

Lemma mapGet_mapSet_same (k : string) (v : V) (m : list (string * V)) :
  mapGet k (mapSet k v m) = Some v.
Proof.
  induction m as [|[k' v'] m IH]; simpl.
  - now rewrite String.eqb_refl.
  - destruct (String.eqb k k') eqn:E; simpl.
    + now rewrite String.eqb_refl.
    + now rewrite E.
Qed.

Lemma mapGet_mapSet_other (k k' : string) (v : V) (m : list (string * V)) :
  k <> k' -> mapGet k (mapSet k' v m) = mapGet k m.
Proof.
  intros Hne. induction m as [|[k2 v2] m IH]; simpl.
  - destruct (String.eqb_spec k k'); [contradiction | reflexivity].
  - destruct (String.eqb_spec k' k2) as [->|Hk]; simpl.
    + destruct (String.eqb_spec k k2); [contradiction | reflexivity].
    + destruct (String.eqb_spec k k2); [reflexivity | exact IH].
Qed.

Lemma mapGet_mapSet (k k' : string) (v : V) (m : list (string * V)) :
  mapGet k (mapSet k' v m) = if String.eqb k k' then Some v else mapGet k m.
Proof.
  destruct (String.eqb_spec k k') as [->|Hne].
  - apply mapGet_mapSet_same.
  - now apply mapGet_mapSet_other.
Qed.

Lemma In_mapSet (e : string * V) (k : string) (v : V) (m : list (string * V)) :
  In e (mapSet k v m) -> e = (k, v) \/ In e m.
Proof.
  induction m as [|[k' v'] m IH]; simpl.
  - intros [H|[]]; auto.
  - destruct (String.eqb k k'); simpl; intros [H|H]; auto.
    destruct (IH H); auto.
Qed.

Lemma mapGet_In (k : string) (v : V) (m : list (string * V)) :
  mapGet k m = Some v -> In (k, v) m.
Proof.
  induction m as [|[k' v'] m IH]; simpl; [discriminate|].
  destruct (String.eqb_spec k k') as [->|Hne].
  - intros [= ->]. now left.
  - intros H. right. now apply IH.
Qed.

Lemma mapKeys_mapSet_In (k k' : string) (v : V) (m : list (string * V)) :
  In k (mapKeys (mapSet k' v m)) <-> k = k' \/ In k (mapKeys m).
Proof.
  unfold mapKeys. induction m as [|[k2 v2] m IH]; simpl.
  - intuition.
  - destruct (String.eqb_spec k' k2) as [->|Hne]; simpl.
    + intuition.
    + rewrite IH. intuition.
Qed.

Lemma mapGet_None_keys (k : string) (m : list (string * V)) :
  mapGet k m = None <-> ~ In k (mapKeys m).
Proof.
  unfold mapKeys. induction m as [|[k' v'] m IH]; simpl.
  - intuition.
  - destruct (String.eqb_spec k k') as [->|Hne].
    + split; [discriminate | intros H; exfalso; apply H; now left].
    + rewrite IH. intuition congruence.
Qed.

End Containers.

Lemma setHas_In (x : string) (s : list string) :
  setHas x s = true <-> In x s.
Proof.
  unfold setHas. rewrite existsb_exists. split.
  - intros [y [Hy E]]. apply String.eqb_eq in E. now subst.
  - intros H. exists x. split; [assumption | apply String.eqb_refl].
Qed.

Lemma In_setAdd (x y : string) (s : list string) :
  In y (setAdd x s) <-> y = x \/ In y s.
Proof.
  unfold setAdd. destruct (setHas x s) eqn:E.
  - apply setHas_In in E. split; [auto | intros [->|H]; assumption].
  - rewrite in_app_iff. simpl. intuition.
Qed.

Lemma NoDup_setAdd (x : string) (s : list string) :
  NoDup s -> NoDup (setAdd x s).
Proof.
  intros H. unfold setAdd. destruct (setHas x s) eqn:E; [assumption|].
  assert (Hx : ~ In x s).
  { intros Hin. apply setHas_In in Hin. congruence. }
  clear E. induction H as [|y s Hy Hs IH]; simpl.
  - constructor; [intros [] | constructor].
  - constructor.
    + rewrite in_app_iff. simpl. intros [H1|[H1|[]]]; [contradiction|].
      subst. apply Hx. now left.
    + apply IH. intros H1. apply Hx. now right.
Qed.

(* ===================================================================== *)
(** * The refresh cycle *)
(* ===================================================================== *)

Lemma refresh_rejected (st : State) (now : string) :
  refresh st Rejected now = st /\ refreshLog st Rejected now = LogFailure.
Proof. split; reflexivity. Qed.

Lemma refresh_document (st : State) (d : AWSIpRangesResponse.t) (now : string)
    (ps : list IPPrefix.t) :
  AWSIpRangesResponse.prefixes d = Some ps ->
  refresh st (Resolved (BodyDoc d)) now =
    {| ipRangesData := BodyDoc d;
       serviceIpRangesMap :=
         rebuildMap (groupPrefixes ps (AWSIpRangesResponse.ipv6_prefixes d));
       lastUpdated := Some now |} /\
  refreshLog st (Resolved (BodyDoc d)) now = LogSuccess.
Proof.
  intros Hps. run_refresh. rewrite Hps. run_refresh. rewrite Hps.
  split; reflexivity.
Qed.

Lemma refresh_unusable (st : State) (data : Body) (now : string) :
  bodyPrefixes data = None ->
  refresh st (Resolved data) now = stored st data now /\
  refreshLog st (Resolved data) now = LogFailure.
Proof.
  intros Hnone. unfold stored.
  destruct data as [|s|d]; simpl in Hnone.
  - split; reflexivity.
  - run_refresh. destruct (String.eqb s ""); split; reflexivity.
  - run_refresh. rewrite Hnone. split; reflexivity.
Qed.

Lemma refresh_failure_keeps_map (st : State) (http : HttpOutcome) (now : string) :
  refreshLog st http now = LogFailure ->
  serviceIpRangesMap (refresh st http now) = serviceIpRangesMap st.
Proof.
  destruct http as [|data].
  - intros _. now rewrite (proj1 (refresh_rejected st now)).
  - destruct (bodyPrefixes data) as [ps|] eqn:E.
    + destruct data as [|s|d]; simpl in E; try discriminate.
      rewrite (proj2 (refresh_document st d now ps E)). discriminate.
    + intros _. now rewrite (proj1 (refresh_unusable st data now E)).
Qed.

Lemma Loaded_state (st : State) (doc : AWSIpRangesResponse.t) :
  Loaded st doc ->
  exists ps now,
    AWSIpRangesResponse.prefixes doc = Some ps /\
    st = {| ipRangesData := BodyDoc doc;
            serviceIpRangesMap :=
              rebuildMap (groupPrefixes ps (AWSIpRangesResponse.ipv6_prefixes doc));
            lastUpdated := Some now |}.
Proof.
  intros (st0 & now & Hlog & ->).
  destruct (AWSIpRangesResponse.prefixes doc) as [ps|] eqn:E.
  - exists ps, now. split; [reflexivity|].
    apply (refresh_document st0 doc now ps E).
  - rewrite (proj2 (refresh_unusable st0 (BodyDoc doc) now E)) in Hlog.
    discriminate.
Qed.

Lemma Loaded_intro (st0 : State) (doc : AWSIpRangesResponse.t) (now : string)
    (ps : list IPPrefix.t) :
  AWSIpRangesResponse.prefixes doc = Some ps ->
  Loaded (refresh st0 (Resolved (BodyDoc doc)) now) doc.
Proof.
  intros E. exists st0, now. split; [|reflexivity].
  apply (refresh_document st0 doc now ps E).
Qed.

(** C2 (amended).  A refresh cycle whose request is rejected logs a
    failure and leaves [ipRangesData], the per-service map and
    [lastUpdated] exactly as they were, so every query answers as it did
    before the cycle; and in every failed cycle, whatever its cause, the
    per-service map is left as it was. *)
Theorem rejected_fetch_keeps_cache :
  forall (st : State) (now : string),
    refreshLog st Rejected now = LogFailure /\
    refresh st Rejected now = st /\
    IpRangesController.getServices (refresh st Rejected now) =
      IpRangesController.getServices st /\
    IpRangesController.getRegions (refresh st Rejected now) =
      IpRangesController.getRegions st /\
    (forall region,
       IpRangesController.getAllIpRanges (refresh st Rejected now) region =
       IpRangesController.getAllIpRanges st region) /\
    (forall service region,
       IpRangesController.getServiceIpRanges (refresh st Rejected now) service region =
       IpRangesController.getServiceIpRanges st service region) /\
    (forall ip, searchByIp (refresh st Rejected now) ip = searchByIp st ip) /\
    (forall http,
       refreshLog st http now = LogFailure ->
       serviceIpRangesMap (refresh st http now) = serviceIpRangesMap st).
Proof.
  intros st now.
  destruct (refresh_rejected st now) as [Hst Hlog].
  rewrite Hst. repeat split; try assumption.
  intros http. apply refresh_failure_keeps_map.
Qed.

Lemma rejected_fetch_keeps_cache_witness :
  refreshLog Sample.published (Resolved (BodyDoc Sample.noLists))
    "2025-12-30T10:52:32.506Z" = LogFailure /\
  serviceIpRangesMap Sample.afterBadDocument = serviceIpRangesMap Sample.published.
Proof.
  split.
  - reflexivity.
  - apply (rejected_fetch_keeps_cache Sample.published "2025-12-30T10:52:32.506Z").
    reflexivity.
Defined.

(** C2, as stated, fails: a response without prefix lists makes the cycle
    fail after [ipRangesData] and [lastUpdated] have been overwritten, and
    the region query that answered before now throws. *)
Lemma unusable_document_overwrites_cache :
  refreshLog Sample.published (Resolved (BodyDoc Sample.noLists))
    "2025-12-30T10:52:32.506Z" = LogFailure /\
  ipRangesData Sample.afterBadDocument <> ipRangesData Sample.published /\
  lastUpdated Sample.afterBadDocument <> lastUpdated Sample.published /\
  IpRangesController.getRegions Sample.published =
    Return {| RegionsListResponse.regions := ["GLOBAL"; "us-east-1"; "us-west-2"];
              RegionsListResponse.syncToken := "1766626705";
              RegionsListResponse.lastUpdated := "2025-12-30T10:22:32.506Z" |} /\
  IpRangesController.getRegions Sample.afterBadDocument = Throw TypeError.
Proof.
  repeat split; try reflexivity; vm_compute; discriminate.
Qed.

(* ===================================================================== *)
(** * Refresh triggers are independent *)
(* ===================================================================== *)


Lemma settle_pending (id : nat) (http : HttpOutcome) (now : string) (sys : System) :
  In id (pending sys) ->
  service (settle id http now sys) = refresh (service sys) http now /\
  ~ In id (pending (settle id http now sys)) /\
  (forall other, other <> id ->
     (In other (pending (settle id http now sys)) <-> In other (pending sys))).
Proof.
  intros Hin. unfold settle.
  assert (E : existsb (Nat.eqb id) (pending sys) = true).
  { apply existsb_exists. exists id. split; [exact Hin | apply Nat.eqb_refl]. }
  rewrite E. simpl. split; [reflexivity|]. split.
  - intros H. apply filter_In in H as [_ H]. now rewrite Nat.eqb_refl in H.
  - intros other Hne. rewrite filter_In. split; [tauto|].
    intros H. split; [exact H|].
    destruct (Nat.eqb_spec other id); [contradiction | reflexivity].
Qed.




(* ===================================================================== *)
(** * Loaded and not loaded *)
(* ===================================================================== *)

Lemma rejected_cycles_keep_state (nows : list string) (st : State) :
  runRefreshes (map (fun now => (Rejected, now)) nows) st = st.
Proof.
  revert st. induction nows as [|now nows IH]; intros st; simpl.
  - reflexivity.
  - rewrite (proj1 (refresh_rejected st now)). apply IH.
Qed.

Lemma not_loaded_unavailable (st : State) :
  isDataLoaded st = false ->
  IpRangesController.getServices st = Throw ServiceUnavailableException /\
  IpRangesController.getRegions st = Throw ServiceUnavailableException /\
  (forall region,
     IpRangesController.getAllIpRanges st region = Throw ServiceUnavailableException) /\
  (forall service region,
     IpRangesController.getServiceIpRanges st service region =
     Throw ServiceUnavailableException).
Proof.
  intros H.
  unfold IpRangesController.getServices, IpRangesController.getRegions,
    IpRangesController.getAllIpRanges, IpRangesController.getServiceIpRanges,
    IpRangesController.ensureDataLoaded.
  rewrite H. simpl. repeat split.
Qed.

Lemma empty_document_queries (st0 : State) (doc : AWSIpRangesResponse.t)
    (now : string) :
  AWSIpRangesResponse.prefixes doc = Some [] ->
  ipv6Records doc = [] ->
  let st := refresh st0 (Resolved (BodyDoc doc)) now in
  refreshLog st0 (Resolved (BodyDoc doc)) now = LogSuccess /\
  isDataLoaded st = true /\
  IpRangesController.getServices st =
    Return {| ServicesListResponse.services := [];
              ServicesListResponse.syncToken := syncTokenOrEmpty (BodyDoc doc);
              ServicesListResponse.lastUpdated := now |} /\
  IpRangesController.getRegions st =
    Return {| RegionsListResponse.regions := [];
              RegionsListResponse.syncToken := syncTokenOrEmpty (BodyDoc doc);
              RegionsListResponse.lastUpdated := now |} /\
  (forall region,
     IpRangesController.getAllIpRanges st region =
     Return {| AllServicesIpRanges.syncToken := syncTokenOrEmpty (BodyDoc doc);
               AllServicesIpRanges.lastUpdated := now;
               AllServicesIpRanges.services := [] |}) /\
  (forall service region,
     IpRangesController.getServiceIpRanges st service region =
     Throw (NotFoundException (IpRangesController.notFoundMessage service region))) /\
  (forall ip,
     searchByIp st ip =
     Return {| IpSearchResult.ip := ip;
               IpSearchResult.found := false;
               IpSearchResult.matches := [] |}).
Proof.
  intros Hps Hqs st.
  destruct (refresh_document st0 doc now [] Hps) as [Hst Hlog].
  assert (Hmap : rebuildMap (groupPrefixes [] (AWSIpRangesResponse.ipv6_prefixes doc)) = []).
  { unfold ipv6Records in Hqs.
    destruct (AWSIpRangesResponse.ipv6_prefixes doc) as [l|]; [subst l|]; reflexivity. }
  subst st. rewrite Hst, Hmap. split; [exact Hlog|]. split; [reflexivity|].
  unfold IpRangesController.getServices, IpRangesController.getRegions,
    IpRangesController.getAllIpRanges, IpRangesController.getServiceIpRanges,
    IpRangesController.ensureDataLoaded, IpRangesService.getServices,
    IpRangesService.getRegions, IpRangesService.getAllServiceIpRanges,
    IpRangesService.getServiceIpRanges, filterByServiceAndRegion, searchByIp,
    regionSet, lastUpdatedOrEmpty, isDataLoaded.
  cbn [ipRangesData serviceIpRangesMap lastUpdated truthy negb bodyPrefixes
       bodyIpv6Prefixes rbind iterable].
  rewrite Hps. unfold ipv6Records in Hqs.
  split; [reflexivity|]. split.
  { destruct (AWSIpRangesResponse.ipv6_prefixes doc) as [l|]; [subst l|]; reflexivity. }
  split.
  { intros region. destruct (regionGiven region); reflexivity. }
  split.
  { intros service region.
    destruct (regionGiven region); cbn [rbind iterable]; [|reflexivity].
    destruct (AWSIpRangesResponse.ipv6_prefixes doc) as [l|]; [subst l|]; reflexivity. }
  intros ip. destruct (includes ":" ip); cbn [rbind iterable]; [|reflexivity].
  destruct (AWSIpRangesResponse.ipv6_prefixes doc) as [l|]; [subst l|]; reflexivity.
Qed.

(** C9 (amended).  [isDataLoaded] is false in the initial state and a
    rejected request never changes it, so it is still false after any
    number of rejected cycles; while it is false each of the four
    endpoints answers with [ServiceUnavailableException]; after one
    successful refresh of a document with no records it is true, the
    listing endpoints return empty lists and a service lookup answers
    [NotFoundException], not [ServiceUnavailableException]. *)
Theorem loaded_flag_and_gate :
  isDataLoaded initial = false /\
  (forall st now, isDataLoaded (refresh st Rejected now) = isDataLoaded st) /\
  (forall nows,
     isDataLoaded (runRefreshes (map (fun now => (Rejected, now)) nows) initial) = false) /\
  (forall st,
     isDataLoaded st = false ->
     IpRangesController.getServices st = Throw ServiceUnavailableException /\
     IpRangesController.getRegions st = Throw ServiceUnavailableException /\
     (forall region,
        IpRangesController.getAllIpRanges st region =
        Throw ServiceUnavailableException) /\
     (forall service region,
        IpRangesController.getServiceIpRanges st service region =
        Throw ServiceUnavailableException)) /\
  (forall st0 doc now,
     AWSIpRangesResponse.prefixes doc = Some [] ->
     ipv6Records doc = [] ->
     refreshLog st0 (Resolved (BodyDoc doc)) now = LogSuccess /\
     isDataLoaded (refresh st0 (Resolved (BodyDoc doc)) now) = true /\
     IpRangesController.getServices (refresh st0 (Resolved (BodyDoc doc)) now) =
       Return {| ServicesListResponse.services := [];
                 ServicesListResponse.syncToken := syncTokenOrEmpty (BodyDoc doc);
                 ServicesListResponse.lastUpdated := now |} /\
     IpRangesController.getRegions (refresh st0 (Resolved (BodyDoc doc)) now) =
       Return {| RegionsListResponse.regions := [];
                 RegionsListResponse.syncToken := syncTokenOrEmpty (BodyDoc doc);
                 RegionsListResponse.lastUpdated := now |} /\
     (forall region,
        IpRangesController.getAllIpRanges
          (refresh st0 (Resolved (BodyDoc doc)) now) region =
        Return {| AllServicesIpRanges.syncToken := syncTokenOrEmpty (BodyDoc doc);
                  AllServicesIpRanges.lastUpdated := now;
                  AllServicesIpRanges.services := [] |}) /\
     (forall service region,
        IpRangesController.getServiceIpRanges
          (refresh st0 (Resolved (BodyDoc doc)) now) service region =
        Throw (NotFoundException
                 (IpRangesController.notFoundMessage service region)))).
Proof.
  split; [reflexivity|]. split.
  { intros st now. now rewrite (proj1 (refresh_rejected st now)). }
  split.
  { intros nows. now rewrite rejected_cycles_keep_state. }
  split.
  { apply not_loaded_unavailable. }
  intros st0 doc now Hps Hqs.
  destruct (empty_document_queries st0 doc now Hps Hqs)
    as (H1 & H2 & H3 & H4 & H5 & H6 & _).
  repeat split; assumption.
Qed.

Lemma loaded_flag_and_gate_witness :
  IpRangesController.getServices initial = Throw ServiceUnavailableException /\
  isDataLoaded (Sample.loadedWith [] []) = true /\
  IpRangesController.getRegions (Sample.loadedWith [] []) =
    Return {| RegionsListResponse.regions := [];
              RegionsListResponse.syncToken := "1766626705";
              RegionsListResponse.lastUpdated := "2025-12-30T10:22:32.506Z" |}.
Proof.
  destruct loaded_flag_and_gate as (_ & _ & _ & Hgate & Hempty).
  split.
  - apply (Hgate initial). reflexivity.
  - destruct (Hempty initial (Sample.document [] []) "2025-12-30T10:22:32.506Z")
      as (_ & Hloaded & _ & Hregions & _); [reflexivity | reflexivity |].
    split; [exact Hloaded | exact Hregions].
Defined.

(** C9, as stated, fails: a response without prefix lists makes the first
    refresh fail, yet [isDataLoaded] is true afterwards and the services
    endpoint answers with a payload. *)
Lemma loaded_after_failed_refresh :
  refreshLog initial (Resolved (BodyDoc Sample.noLists))
    "2025-12-30T10:22:32.506Z" = LogFailure /\
  isDataLoaded Sample.firstBadDocument = true /\
  IpRangesController.getServices Sample.firstBadDocument =
    Return {| ServicesListResponse.services := [];
              ServicesListResponse.syncToken := "1766626705";
              ServicesListResponse.lastUpdated := "2025-12-30T10:22:32.506Z" |}.
Proof.
  repeat split.
Qed.

(* ===================================================================== *)
(** * Counts *)
(* ===================================================================== *)

Lemma rebuildMap_entries (m : list (string * Grouped)) (k : string)
    (v : ServiceIpRanges.t) :
  In (k, v) (rebuildMap m) -> exists g, v = toServiceIpRanges k g.
Proof.
  unfold rebuildMap.
  assert (G : forall acc,
             (forall k v, In (k, v) acc -> exists g, v = toServiceIpRanges k g) ->
             forall k v,
               In (k, v)
                 (fold_left
                    (fun acc entry =>
                       mapSet (fst entry) (toServiceIpRanges (fst entry) (snd entry)) acc)
                    m acc) ->
               exists g, v = toServiceIpRanges k g).
  { induction m as [|[k0 g0] m IH]; intros acc Hacc k1 v1; simpl.
    - apply Hacc.
    - apply IH. intros k2 v2 Hin. apply In_mapSet in Hin as [Heq|Hin].
      + inversion Heq; subst. now exists g0.
      + now apply Hacc. }
  apply G. intros k0 v0 [].
Qed.

Lemma toServiceIpRanges_counts (k : string) (g : Grouped) :
  CountsAgree (toServiceIpRanges k g).
Proof. split; reflexivity. Qed.

Lemma refresh_map_cases (st : State) (http : HttpOutcome) (now : string) :
  serviceIpRangesMap (refresh st http now) = serviceIpRangesMap st \/
  exists m, serviceIpRangesMap (refresh st http now) = rebuildMap m.
Proof.
  destruct http as [|data].
  - left. now rewrite (proj1 (refresh_rejected st now)).
  - destruct (bodyPrefixes data) as [ps|] eqn:E.
    + destruct data as [|s|d]; simpl in E; try discriminate.
      right. rewrite (proj1 (refresh_document st d now ps E)). simpl. eauto.
    + left. now rewrite (proj1 (refresh_unusable st data now E)).
Qed.

Lemma Reachable_counts (st : State) :
  Reachable st ->
  forall k v, In (k, v) (serviceIpRangesMap st) -> CountsAgree v.
Proof.
  intros [cycles ->].
  assert (G : forall st0,
             (forall k v, In (k, v) (serviceIpRangesMap st0) -> CountsAgree v) ->
             forall k v,
               In (k, v) (serviceIpRangesMap (runRefreshes cycles st0)) ->
               CountsAgree v).
  { induction cycles as [|[http now] cycles IH]; intros st0 H0; simpl.
    - exact H0.
    - apply IH. intros k v Hin.
      destruct (refresh_map_cases st0 http now) as [Heq|[m Heq]];
        rewrite Heq in Hin.
      + now apply (H0 k).
      + apply rebuildMap_entries in Hin as [g ->]. apply toServiceIpRanges_counts. }
  apply G. intros k v [].
Qed.

Lemma firstByUpperKey_In (u : string) (m : list (string * ServiceIpRanges.t))
    (v : ServiceIpRanges.t) :
  firstByUpperKey u m = Some v ->
  exists k, In (k, v) m /\ toUpperCase k = u.
Proof.
  induction m as [|[k0 v0] m IH]; simpl; [discriminate|].
  destruct (String.eqb_spec (toUpperCase k0) u) as [E|E].
  - intros [= ->]. exists k0. split; [now left | exact E].
  - intros H. destruct (IH H) as [k [Hin Hk]]. exists k. split; [now right | exact Hk].
Qed.

Lemma filterByServiceAndRegion_counts (st : State) (s r : string)
    (v : ServiceIpRanges.t) :
  filterByServiceAndRegion st s r = Return (Some v) -> CountsAgree v.
Proof.
  unfold filterByServiceAndRegion.
  destruct (negb (truthy (ipRangesData st))); [discriminate|].
  destruct (iterable (bodyPrefixes (ipRangesData st))) as [ps|e]; simpl;
    [|discriminate].
  match goal with |- context [if ?b then _ else _] => destruct b end;
    [discriminate|].
  intros [= <-]. split; reflexivity.
Qed.

Lemma addFiltered_Throw (st : State) (r : string) (keys : list string) (e : JsError) :
  fold_left (addFiltered st r) keys (Throw e) = Throw e.
Proof. induction keys as [|k keys IH]; simpl; [reflexivity | exact IH]. Qed.

Lemma addFiltered_counts (st : State) (r : string) (keys : list string) :
  forall acc l,
    (forall k v, In (k, v) acc -> RestCountsAgree v) ->
    fold_left (addFiltered st r) keys (Return acc) = Return l ->
    forall k v, In (k, v) l -> RestCountsAgree v.
Proof.
  induction keys as [|k0 keys IH]; intros acc l Hacc; simpl.
  - intros [= <-]. exact Hacc.
  - destruct (filterByServiceAndRegion st (toUpperCase k0) r) as [[f|]|e] eqn:E;
      simpl.
    + match goal with |- context [if ?b then _ else _] => destruct b end.
      * apply IH. intros k v Hin. apply In_mapSet in Hin as [Heq|Hin].
        -- inversion Heq; subst.
           apply filterByServiceAndRegion_counts in E. exact E.
        -- now apply (Hacc k).
      * now apply IH.
    + now apply IH.
    + rewrite addFiltered_Throw. discriminate.
Qed.

Lemma omit_all_counts (m : list (string * ServiceIpRanges.t)) :
  forall acc,
    (forall k v, In (k, v) m -> CountsAgree v) ->
    (forall k v, In (k, v) acc -> RestCountsAgree v) ->
    forall k v,
      In (k, v)
        (fold_left
           (fun services entry => mapSet (fst entry) (omitService (snd entry)) services)
           m acc) ->
      RestCountsAgree v.
Proof.
  induction m as [|[k0 v0] m IH]; intros acc Hm Hacc; simpl.
  - exact Hacc.
  - apply IH.
    + intros k v Hin. apply (Hm k). now right.
    + intros k v Hin. apply In_mapSet in Hin as [Heq|Hin].
      * inversion Heq; subst. apply (Hm k0 v0). now left.
      * now apply (Hacc k).
Qed.

(** C10.  In every state the service can reach, every answer of
    [getServiceIpRanges] and every entry of an answer of
    [getAllServiceIpRanges], with or without a region, and hence every
    answer of the two endpoints in front of them, has [count.ipv4] equal
    to the length of [ipv4_prefixes] and [count.ipv6] equal to the length
    of [ipv6_prefixes]. *)
Theorem counts_match_lengths :
  forall st : State,
    Reachable st ->
    (forall name region r,
       IpRangesService.getServiceIpRanges st name region = Return (Some r) ->
       CountsAgree r) /\
    (forall region all name rest,
       IpRangesService.getAllServiceIpRanges st region = Return all ->
       In (name, rest) (AllServicesIpRanges.services all) ->
       RestCountsAgree rest) /\
    (forall name region r,
       IpRangesController.getServiceIpRanges st name region = Return r ->
       CountsAgree r) /\
    (forall region all name rest,
       IpRangesController.getAllIpRanges st region = Return all ->
       In (name, rest) (AllServicesIpRanges.services all) ->
       RestCountsAgree rest).
Proof.
  intros st Hreach.
  pose proof (Reachable_counts st Hreach) as Hmap.
  assert (Hone : forall name region r,
             IpRangesService.getServiceIpRanges st name region = Return (Some r) ->
             CountsAgree r).
  { intros name region r. unfold IpRangesService.getServiceIpRanges.
    destruct (regionGiven region) as [rg|]; [destruct (truthy (ipRangesData st))|].
    - apply filterByServiceAndRegion_counts.
    - intros [= H]. apply firstByUpperKey_In in H as (k & Hin & _). now apply (Hmap k).
    - intros [= H]. apply firstByUpperKey_In in H as (k & Hin & _). now apply (Hmap k). }
  assert (Hall : forall region all name rest,
             IpRangesService.getAllServiceIpRanges st region = Return all ->
             In (name, rest) (AllServicesIpRanges.services all) ->
             RestCountsAgree rest).
  { intros region all name rest. unfold IpRangesService.getAllServiceIpRanges.
    assert (Hplain : forall k v,
               In (k, v)
                 (fold_left
                    (fun services entry =>
                       mapSet (fst entry) (omitService (snd entry)) services)
                    (serviceIpRangesMap st) []) ->
               RestCountsAgree v).
    { apply omit_all_counts; [exact Hmap | intros k v []]. }
    destruct (regionGiven region) as [rg|]; [destruct (truthy (ipRangesData st))|];
      simpl.
    - destruct (fold_left (addFiltered st rg) (mapKeys (serviceIpRangesMap st)) (Return []))
        as [l|e] eqn:E; simpl; [|discriminate].
      intros [= <-]. simpl.
      apply (addFiltered_counts st rg (mapKeys (serviceIpRangesMap st)) [] l);
        [intros k v [] | exact E].
    - intros [= <-]. simpl. apply Hplain.
    - intros [= <-]. simpl. apply Hplain. }
  split; [exact Hone|]. split; [exact Hall|]. split.
  - intros name region r. unfold IpRangesController.getServiceIpRanges.
    destruct (IpRangesController.ensureDataLoaded st); simpl; [|discriminate].
    destruct (IpRangesService.getServiceIpRanges st name region) as [[v|]|e] eqn:E;
      simpl; try discriminate.
    intros [= <-]. now apply (Hone name region).
  - intros region all name rest. unfold IpRangesController.getAllIpRanges.
    destruct (IpRangesController.ensureDataLoaded st); simpl; [|discriminate].
    apply Hall.
Qed.

Lemma Reachable_published : Reachable Sample.published.
Proof.
  exists [(Resolved (BodyDoc (Sample.document [Sample.ec2East; Sample.ec2West]
                                [Sample.cloudfront6])),
           "2025-12-30T10:22:32.506Z")].
  reflexivity.
Qed.

Lemma counts_match_lengths_witness :
  IpRangesService.getServiceIpRanges Sample.published "ec2" None =
    Return (Some (toServiceIpRanges "EC2"
                    {| ipv4 := ["1.2.3.0/24"; "1.2.4.0/24"]; ipv6 := [] |})) /\
  CountsAgree (toServiceIpRanges "EC2"
                 {| ipv4 := ["1.2.3.0/24"; "1.2.4.0/24"]; ipv6 := [] |}).
Proof.
  split.
  - reflexivity.
  - apply (proj1 (counts_match_lengths Sample.published Reachable_published)
             "ec2" None).
    reflexivity.
Defined.

(* ===================================================================== *)
(** * The per-service index *)
(* ===================================================================== *)

Section FreshKeys.

Context {V : Type}.

Lemma mapSet_fresh (k : string) (v : V) (m : list (string * V)) :
  ~ In k (mapKeys m) -> mapSet k v m = m ++ [(k, v)].
Proof.
  unfold mapKeys. induction m as [|[k' v'] m IH]; simpl; intros H.
  - reflexivity.
  - destruct (String.eqb_spec k k') as [->|Hne].
    + exfalso. apply H. now left.
    + f_equal. apply IH. intros Hin. apply H. now right.
Qed.

Lemma mapKeys_mapSet_present (k : string) (v : V) (m : list (string * V)) :
  In k (mapKeys m) -> mapKeys (mapSet k v m) = mapKeys m.
Proof.
  unfold mapKeys. induction m as [|[k' v'] m IH]; simpl; intros H.
  - destruct H.
  - destruct (String.eqb_spec k k') as [->|Hne]; simpl.
    + reflexivity.
    + f_equal. apply IH. destruct H as [H|H]; [congruence | exact H].
Qed.

Lemma NoDup_mapKeys_mapSet (k : string) (v : V) (m : list (string * V)) :
  NoDup (mapKeys m) -> NoDup (mapKeys (mapSet k v m)).
Proof.
  intros Hnd. destruct (in_dec String.string_dec k (mapKeys m)) as [Hin|Hout].
  - now rewrite mapKeys_mapSet_present.
  - rewrite (mapSet_fresh k v m Hout). unfold mapKeys in *. rewrite map_app. simpl.
    apply NoDup_app; [exact Hnd | repeat constructor; intros [] |].
    intros x Hx [Hx'|[]]. subst. contradiction.
Qed.

End FreshKeys.

Lemma fold_mapSet_fresh {A B : Type} (f : string * A -> B) (m : list (string * A)) :
  forall acc,
    NoDup (mapKeys acc ++ mapKeys m) ->
    fold_left (fun acc e => mapSet (fst e) (f e) acc) m acc =
    acc ++ map (fun e => (fst e, f e)) m.
Proof.
  induction m as [|[k a] m IH]; intros acc Hnd; simpl.
  - now rewrite app_nil_r.
  - assert (Hk : ~ In k (mapKeys acc)).
    { intros Hin. apply NoDup_remove_2 in Hnd. apply Hnd. simpl.
      apply in_or_app. now left. }
    rewrite (mapSet_fresh k (f (k, a)) acc Hk). rewrite IH.
    + now rewrite <- app_assoc.
    + unfold mapKeys in *. rewrite map_app. simpl. rewrite <- app_assoc. exact Hnd.
Qed.

Lemma mapGet_published {A B : Type} (f : string * A -> B) (s : string)
    (m : list (string * A)) :
  mapGet s (map (fun e => (fst e, f e)) m) =
  option_map (fun a => f (s, a)) (mapGet s m).
Proof.
  induction m as [|[k a] m IH]; simpl; [reflexivity|].
  destruct (String.eqb_spec s k) as [->|Hne]; [reflexivity | exact IH].
Qed.

Lemma mapKeys_published {A B : Type} (f : string * A -> B) (m : list (string * A)) :
  mapKeys (map (fun e => (fst e, f e)) m) = mapKeys m.
Proof.
  unfold mapKeys. rewrite map_map. reflexivity.
Qed.

(** ** One step of grouping *)

Lemma mapGet_addIpv4 (s : string) (m : list (string * Grouped)) (rec : IPPrefix.t) :
  mapGet s (addIpv4 m rec) =
  if String.eqb s (IPPrefix.service rec)
  then Some {| ipv4 := setAdd (IPPrefix.ip_prefix rec) (ipv4 (entryOf s m));
               ipv6 := ipv6 (entryOf s m) |}
  else mapGet s m.
Proof.
  unfold addIpv4, ensureService, mapHas, entryOf.
  destruct (String.eqb_spec s (IPPrefix.service rec)) as [->|Hne].
  - destruct (mapGet (IPPrefix.service rec) m) as [g|] eqn:E.
    + rewrite E. apply mapGet_mapSet_same.
    + rewrite mapGet_mapSet_same. apply mapGet_mapSet_same.
  - destruct (mapGet (IPPrefix.service rec) m) as [g|] eqn:E.
    + rewrite E. now apply mapGet_mapSet_other.
    + rewrite mapGet_mapSet_same.
      rewrite mapGet_mapSet_other by assumption.
      now apply mapGet_mapSet_other.
Qed.

Lemma mapGet_addIpv6 (s : string) (m : list (string * Grouped)) (rec : IPv6Prefix.t) :
  mapGet s (addIpv6 m rec) =
  if String.eqb s (IPv6Prefix.service rec)
  then Some {| ipv4 := ipv4 (entryOf s m);
               ipv6 := setAdd (IPv6Prefix.ipv6_prefix rec) (ipv6 (entryOf s m)) |}
  else mapGet s m.
Proof.
  unfold addIpv6, ensureService, mapHas, entryOf.
  destruct (String.eqb_spec s (IPv6Prefix.service rec)) as [->|Hne].
  - destruct (mapGet (IPv6Prefix.service rec) m) as [g|] eqn:E.
    + rewrite E. apply mapGet_mapSet_same.
    + rewrite mapGet_mapSet_same. apply mapGet_mapSet_same.
  - destruct (mapGet (IPv6Prefix.service rec) m) as [g|] eqn:E.
    + rewrite E. now apply mapGet_mapSet_other.
    + rewrite mapGet_mapSet_same.
      rewrite mapGet_mapSet_other by assumption.
      now apply mapGet_mapSet_other.
Qed.

Lemma NoDup_keys_addIpv4 (m : list (string * Grouped)) (rec : IPPrefix.t) :
  NoDup (mapKeys m) -> NoDup (mapKeys (addIpv4 m rec)).
Proof.
  intros H. unfold addIpv4, ensureService.
  destruct (mapHas (IPPrefix.service rec) m);
    destruct (mapGet (IPPrefix.service rec) _);
    repeat apply NoDup_mapKeys_mapSet; exact H.
Qed.

Lemma NoDup_keys_addIpv6 (m : list (string * Grouped)) (rec : IPv6Prefix.t) :
  NoDup (mapKeys m) -> NoDup (mapKeys (addIpv6 m rec)).
Proof.
  intros H. unfold addIpv6, ensureService.
  destruct (mapHas (IPv6Prefix.service rec) m);
    destruct (mapGet (IPv6Prefix.service rec) _);
    repeat apply NoDup_mapKeys_mapSet; exact H.
Qed.

Lemma entryOf_addIpv4 (s : string) (m : list (string * Grouped)) (rec : IPPrefix.t) :
  entryOf s (addIpv4 m rec) =
  if String.eqb s (IPPrefix.service rec)
  then {| ipv4 := setAdd (IPPrefix.ip_prefix rec) (ipv4 (entryOf s m));
          ipv6 := ipv6 (entryOf s m) |}
  else entryOf s m.
Proof.
  unfold entryOf at 1. rewrite mapGet_addIpv4.
  destruct (String.eqb s (IPPrefix.service rec)); reflexivity.
Qed.

Lemma entryOf_addIpv6 (s : string) (m : list (string * Grouped)) (rec : IPv6Prefix.t) :
  entryOf s (addIpv6 m rec) =
  if String.eqb s (IPv6Prefix.service rec)
  then {| ipv4 := ipv4 (entryOf s m);
          ipv6 := setAdd (IPv6Prefix.ipv6_prefix rec) (ipv6 (entryOf s m)) |}
  else entryOf s m.
Proof.
  unfold entryOf at 1. rewrite mapGet_addIpv6.
  destruct (String.eqb s (IPv6Prefix.service rec)); reflexivity.
Qed.

(** ** The grouping loops *)

Lemma group4_spec (ps : list IPPrefix.t) :
  forall (m : list (string * Grouped)) (s : string),
    (NoDup (mapKeys m) -> NoDup (mapKeys (fold_left addIpv4 ps m))) /\
    (mapGet s (fold_left addIpv4 ps m) = None <->
     mapGet s m = None /\ ~ In s (map IPPrefix.service ps)) /\
    (forall p,
       In p (ipv4 (entryOf s (fold_left addIpv4 ps m))) <->
       In p (ipv4 (entryOf s m)) \/
       exists rec, In rec ps /\ IPPrefix.service rec = s /\ IPPrefix.ip_prefix rec = p) /\
    ipv6 (entryOf s (fold_left addIpv4 ps m)) = ipv6 (entryOf s m) /\
    (NoDup (ipv4 (entryOf s m)) -> NoDup (ipv4 (entryOf s (fold_left addIpv4 ps m)))).
Proof.
  induction ps as [|rec ps IH]; intros m s; simpl.
  - repeat split; auto; try tauto.
    + intros [H|(rec & [] & _)]. exact H.
  - destruct (IH (addIpv4 m rec) s) as (Hk & Hn & Hin & H6 & Hnd).
    split; [|split; [|split; [|split]]].
    + intros H. apply Hk. now apply NoDup_keys_addIpv4.
    + rewrite Hn, mapGet_addIpv4.
      destruct (String.eqb_spec s (IPPrefix.service rec)) as [->|Hne].
      * split; [intros [H _]; discriminate | intros [_ H]; exfalso; apply H; now left].
      * split; intros [H1 H2]; (split; [exact H1|]).
        -- intros [H|H]; [congruence | contradiction].
        -- intros H. apply H2. now right.
    + intros p. rewrite Hin, entryOf_addIpv4.
      destruct (String.eqb_spec s (IPPrefix.service rec)) as [->|Hne]; simpl.
      * rewrite In_setAdd. split.
        -- intros [[->|H]|(r & Hr & Hs & Hp)].
           ++ right. exists rec. auto.
           ++ now left.
           ++ right. exists r. auto.
        -- intros [H|(r & [->|Hr] & Hs & Hp)].
           ++ left. now right.
           ++ left. left. now symmetry.
           ++ right. exists r. auto.
      * split.
        -- intros [H|(r & Hr & Hs & Hp)]; [now left | right; exists r; auto].
        -- intros [H|(r & [->|Hr] & Hs & Hp)];
             [now left | congruence | right; exists r; auto].
    + rewrite H6, entryOf_addIpv4.
      destruct (String.eqb s (IPPrefix.service rec)); reflexivity.
    + intros H. apply Hnd. rewrite entryOf_addIpv4.
      destruct (String.eqb s (IPPrefix.service rec)); simpl;
        [now apply NoDup_setAdd | exact H].
Qed.

Lemma group6_spec (qs : list IPv6Prefix.t) :
  forall (m : list (string * Grouped)) (s : string),
    (NoDup (mapKeys m) -> NoDup (mapKeys (fold_left addIpv6 qs m))) /\
    (mapGet s (fold_left addIpv6 qs m) = None <->
     mapGet s m = None /\ ~ In s (map IPv6Prefix.service qs)) /\
    (forall p,
       In p (ipv6 (entryOf s (fold_left addIpv6 qs m))) <->
       In p (ipv6 (entryOf s m)) \/
       exists rec, In rec qs /\ IPv6Prefix.service rec = s /\
                   IPv6Prefix.ipv6_prefix rec = p) /\
    ipv4 (entryOf s (fold_left addIpv6 qs m)) = ipv4 (entryOf s m) /\
    (NoDup (ipv6 (entryOf s m)) -> NoDup (ipv6 (entryOf s (fold_left addIpv6 qs m)))).
Proof.
  induction qs as [|rec qs IH]; intros m s; simpl.
  - repeat split; auto; try tauto.
    + intros [H|(rec & [] & _)]. exact H.
  - destruct (IH (addIpv6 m rec) s) as (Hk & Hn & Hin & H4 & Hnd).
    split; [|split; [|split; [|split]]].
    + intros H. apply Hk. now apply NoDup_keys_addIpv6.
    + rewrite Hn, mapGet_addIpv6.
      destruct (String.eqb_spec s (IPv6Prefix.service rec)) as [->|Hne].
      * split; [intros [H _]; discriminate | intros [_ H]; exfalso; apply H; now left].
      * split; intros [H1 H2]; (split; [exact H1|]).
        -- intros [H|H]; [congruence | contradiction].
        -- intros H. apply H2. now right.
    + intros p. rewrite Hin, entryOf_addIpv6.
      destruct (String.eqb_spec s (IPv6Prefix.service rec)) as [->|Hne]; simpl.
      * rewrite In_setAdd. split.
        -- intros [[->|H]|(r & Hr & Hs & Hp)].
           ++ right. exists rec. auto.
           ++ now left.
           ++ right. exists r. auto.
        -- intros [H|(r & [->|Hr] & Hs & Hp)].
           ++ left. now right.
           ++ left. left. now symmetry.
           ++ right. exists r. auto.
      * split.
        -- intros [H|(r & Hr & Hs & Hp)]; [now left | right; exists r; auto].
        -- intros [H|(r & [->|Hr] & Hs & Hp)];
             [now left | congruence | right; exists r; auto].
    + rewrite H4, entryOf_addIpv6.
      destruct (String.eqb s (IPv6Prefix.service rec)); reflexivity.
    + intros H. apply Hnd. rewrite entryOf_addIpv6.
      destruct (String.eqb s (IPv6Prefix.service rec)); simpl;
        [now apply NoDup_setAdd | exact H].
Qed.

(** What the grouped map holds for a document with IPv4 records [ps] and
    IPv6 records [qs]. *)
Lemma groupPrefixes_spec (doc : AWSIpRangesResponse.t) (ps : list IPPrefix.t)
    (s : string) :
  let G := groupPrefixes ps (AWSIpRangesResponse.ipv6_prefixes doc) in
  NoDup (mapKeys G) /\
  (mapGet s G = None <-> ~ In s (serviceNames ps (ipv6Records doc))) /\
  (forall p,
     In p (ipv4 (entryOf s G)) <->
     exists rec, In rec ps /\ IPPrefix.service rec = s /\ IPPrefix.ip_prefix rec = p) /\
  (forall p,
     In p (ipv6 (entryOf s G)) <->
     exists rec, In rec (ipv6Records doc) /\ IPv6Prefix.service rec = s /\
                 IPv6Prefix.ipv6_prefix rec = p) /\
  NoDup (ipv4 (entryOf s G)) /\
  NoDup (ipv6 (entryOf s G)).
Proof.
  unfold groupPrefixes, serviceNames, ipv6Records.
  destruct (group4_spec ps [] s) as (Hk4 & Hn4 & Hin4 & H64 & Hnd4).
  assert (Hempty : entryOf s [] = emptyGrouped) by reflexivity.
  rewrite Hempty in *. simpl in H64, Hin4.
  destruct (AWSIpRangesResponse.ipv6_prefixes doc) as [qs|]; simpl.
  - destruct (group6_spec qs (fold_left addIpv4 ps []) s)
      as (Hk6 & Hn6 & Hin6 & H46 & Hnd6).
    split; [apply Hk6, Hk4; constructor|].
    split.
    { rewrite Hn6, Hn4, in_app_iff. simpl. tauto. }
    split.
    { intros p. rewrite H46, Hin4. simpl. tauto. }
    split.
    { intros p. rewrite Hin6, H64. simpl. tauto. }
    split.
    { rewrite H46. apply Hnd4. constructor. }
    apply Hnd6. rewrite H64. constructor.
  - split; [apply Hk4; constructor|].
    split.
    { rewrite Hn4, app_nil_r. simpl. tauto. }
    split.
    { intros p. rewrite Hin4. simpl. tauto. }
    split.
    { intros p. rewrite H64. simpl. split; [tauto | intros (rec & [] & _)]. }
    split; [apply Hnd4; constructor | rewrite H64; constructor].
Qed.

Lemma rebuildMap_published (m : list (string * Grouped)) :
  NoDup (mapKeys m) -> rebuildMap m = map publishEntry m.
Proof.
  intros H. unfold rebuildMap.
  rewrite (fold_mapSet_fresh (fun e => toServiceIpRanges (fst e) (snd e)) m []).
  - reflexivity.
  - exact H.
Qed.

(* ===================================================================== *)
(** * Queries on a published document *)
(* ===================================================================== *)

Lemma Loaded_index (st : State) (doc : AWSIpRangesResponse.t) :
  Loaded st doc ->
  exists ps now,
    AWSIpRangesResponse.prefixes doc = Some ps /\
    ipRangesData st = BodyDoc doc /\
    lastUpdated st = Some now /\
    serviceIpRangesMap st =
      map publishEntry (groupPrefixes ps (AWSIpRangesResponse.ipv6_prefixes doc)).
Proof.
  intros H. destruct (Loaded_state st doc H) as (ps & now & Hps & ->).
  exists ps, now. repeat split; try assumption. simpl.
  apply rebuildMap_published. apply (groupPrefixes_spec doc ps "").
Qed.

Lemma pushMatching_filter {A : Type} (keep : A -> bool) (field : A -> string)
    (xs : list A) :
  pushMatching keep field xs = map field (filter keep xs).
Proof.
  unfold pushMatching.
  assert (G : forall out,
             fold_left (fun out x => if keep x then out ++ [field x] else out) xs out =
             out ++ map field (filter keep xs)).
  { induction xs as [|x xs IH]; intros out; simpl.
    - now rewrite app_nil_r.
    - rewrite IH. destruct (keep x); simpl; [now rewrite <- app_assoc | reflexivity]. }
  apply (G []).
Qed.

Lemma matches4_iff (s u : string) (rec : IPPrefix.t) :
  matches4 s u rec = true <->
  toUpperCase (IPPrefix.service rec) = s /\ toUpperCase (IPPrefix.region rec) = u.
Proof.
  unfold matches4. rewrite andb_true_iff, !String.eqb_eq. tauto.
Qed.

Lemma matches6_iff (s u : string) (rec : IPv6Prefix.t) :
  matches6 s u rec = true <->
  toUpperCase (IPv6Prefix.service rec) = s /\ toUpperCase (IPv6Prefix.region rec) = u.
Proof.
  unfold matches6. rewrite andb_true_iff, !String.eqb_eq. tauto.
Qed.

Lemma In_regionIpv4 (s r p : string) (ps : list IPPrefix.t) :
  In p (regionIpv4 s r ps) <->
  exists rec, In rec ps /\ IPPrefix.ip_prefix rec = p /\
              toUpperCase (IPPrefix.service rec) = s /\
              toUpperCase (IPPrefix.region rec) = toUpperCase r.
Proof.
  unfold regionIpv4. rewrite in_map_iff. split.
  - intros (rec & Hp & Hin). apply filter_In in Hin as [Hin Hm].
    apply matches4_iff in Hm. exists rec. tauto.
  - intros (rec & Hin & Hp & Hm). exists rec. split; [exact Hp|].
    apply filter_In. split; [exact Hin | now apply matches4_iff].
Qed.

Lemma In_regionIpv6 (s r p : string) (qs : list IPv6Prefix.t) :
  In p (regionIpv6 s r qs) <->
  exists rec, In rec qs /\ IPv6Prefix.ipv6_prefix rec = p /\
              toUpperCase (IPv6Prefix.service rec) = s /\
              toUpperCase (IPv6Prefix.region rec) = toUpperCase r.
Proof.
  unfold regionIpv6. rewrite in_map_iff. split.
  - intros (rec & Hp & Hin). apply filter_In in Hin as [Hin Hm].
    apply matches6_iff in Hm. exists rec. tauto.
  - intros (rec & Hin & Hp & Hm). exists rec. split; [exact Hp|].
    apply filter_In. split; [exact Hin | now apply matches6_iff].
Qed.

(** [filterByServiceAndRegion] on a published document. *)
Lemma filterByServiceAndRegion_loaded (st : State) (doc : AWSIpRangesResponse.t)
    (ps : list IPPrefix.t) (s r : string) :
  ipRangesData st = BodyDoc doc ->
  AWSIpRangesResponse.prefixes doc = Some ps ->
  filterByServiceAndRegion st s r =
  match regionIpv4 s r ps, regionIpv6 s r (ipv6Records doc) with
  | [], [] => Return None
  | l4, l6 =>
      Return (Some {| ServiceIpRanges.service := s;
                      ServiceIpRanges.ipv4_prefixes := l4;
                      ServiceIpRanges.ipv6_prefixes := l6;
                      ServiceIpRanges.count :=
                        {| Count.ipv4 := List.length l4;
                           Count.ipv6 := List.length l6 |} |})
  end.
Proof.
  intros Hdata Hps. unfold filterByServiceAndRegion. rewrite Hdata. simpl.
  rewrite Hps. simpl. rewrite pushMatching_filter.
  fold (regionIpv4 s r ps).
  assert (H6 : match AWSIpRangesResponse.ipv6_prefixes doc with
               | Some l => pushMatching (matches6 s (toUpperCase r))
                             IPv6Prefix.ipv6_prefix l
               | None => []
               end = regionIpv6 s r (ipv6Records doc)).
  { unfold ipv6Records, regionIpv6.
    destruct (AWSIpRangesResponse.ipv6_prefixes doc);
      [apply pushMatching_filter | reflexivity]. }
  rewrite H6.
  destruct (regionIpv4 s r ps); destruct (regionIpv6 s r (ipv6Records doc));
    reflexivity.
Qed.

Lemma firstByUpperKey_None (u : string) (m : list (string * ServiceIpRanges.t)) :
  firstByUpperKey u m = None <->
  forall k, In k (mapKeys m) -> toUpperCase k <> u.
Proof.
  unfold mapKeys. induction m as [|[k0 v0] m IH]; simpl.
  - split; [intros _ k [] | reflexivity].
  - destruct (String.eqb_spec (toUpperCase k0) u) as [E|E].
    + split; [discriminate | intros H; exfalso; apply (H k0); auto].
    + rewrite IH. split.
      * intros H k [<-|Hk]; [exact E | now apply H].
      * intros H k Hk. apply H. now right.
Qed.

Lemma firstByUpperKey_unique (s : string) (m : list (string * ServiceIpRanges.t)) :
  (forall k, In k (mapKeys m) -> toUpperCase k = toUpperCase s -> k = s) ->
  firstByUpperKey (toUpperCase s) m = mapGet s m.
Proof.
  unfold mapKeys. induction m as [|[k0 v0] m IH]; simpl; intros H.
  - reflexivity.
  - destruct (String.eqb_spec (toUpperCase k0) (toUpperCase s)) as [E|E].
    + rewrite (H k0 (or_introl eq_refl) E). now rewrite String.eqb_refl.
    + destruct (String.eqb_spec s k0) as [->|Hne]; [contradiction|].
      apply IH. intros k Hk. apply H. now right.
Qed.

(** The entries of the published map. *)
Lemma published_entry (doc : AWSIpRangesResponse.t) (ps : list IPPrefix.t)
    (k : string) (v : ServiceIpRanges.t) :
  In (k, v) (map publishEntry
               (groupPrefixes ps (AWSIpRangesResponse.ipv6_prefixes doc))) ->
  In k (serviceNames ps (ipv6Records doc)) /\
  ServiceIpRanges.service v = k /\
  (forall p,
     In p (ServiceIpRanges.ipv4_prefixes v) <->
     exists rec, In rec ps /\ IPPrefix.service rec = k /\ IPPrefix.ip_prefix rec = p) /\
  (forall p,
     In p (ServiceIpRanges.ipv6_prefixes v) <->
     exists rec, In rec (ipv6Records doc) /\ IPv6Prefix.service rec = k /\
                 IPv6Prefix.ipv6_prefix rec = p) /\
  NoDup (ServiceIpRanges.ipv4_prefixes v) /\
  NoDup (ServiceIpRanges.ipv6_prefixes v).
Proof.
  set (G := groupPrefixes ps (AWSIpRangesResponse.ipv6_prefixes doc)).
  intros Hin.
  destruct (groupPrefixes_spec doc ps k) as (Hnd & Hnone & H4 & H6 & Hn4 & Hn6).
  fold G in Hnd, Hnone, H4, H6, Hn4, Hn6.
  assert (Hget : mapGet k (map publishEntry G) = Some v).
  { clear - Hin Hnd. unfold mapKeys in Hnd.
    induction G as [|[k0 g0] G IH]; simpl in *; [contradiction|].
    inversion Hnd as [|? ? Hk0 Hnd']; subst.
    destruct Hin as [Heq|Hin].
    - unfold publishEntry in Heq. simpl in Heq. inversion Heq; subst.
      now rewrite String.eqb_refl.
    - destruct (String.eqb_spec k k0) as [->|Hne].
      + exfalso. apply Hk0. apply in_map_iff in Hin as ([k1 g1] & Heq & Hin1).
        unfold publishEntry in Heq. simpl in Heq. inversion Heq; subst.
        apply in_map_iff. exists (k0, g1). auto.
      + now apply IH. }
  unfold publishEntry in Hget.
  rewrite (mapGet_published (fun e => toServiceIpRanges (fst e) (snd e)) k G) in Hget.
  destruct (mapGet k G) as [g|] eqn:E; simpl in Hget; [|discriminate].
  injection Hget as <-.
  assert (Eg : entryOf k G = g) by (unfold entryOf; now rewrite E).
  rewrite Eg in *. simpl.
  repeat split; try assumption; try (apply H4); try (apply H6).
  destruct (in_dec String.string_dec k (serviceNames ps (ipv6Records doc)));
    [assumption|].
  apply Hnone in n. congruence.
Qed.

Lemma published_keys (doc : AWSIpRangesResponse.t) (ps : list IPPrefix.t) (k : string) :
  In k (mapKeys (map publishEntry
                   (groupPrefixes ps (AWSIpRangesResponse.ipv6_prefixes doc)))) <->
  In k (serviceNames ps (ipv6Records doc)).
Proof.
  unfold publishEntry.
  rewrite (mapKeys_published (fun e => toServiceIpRanges (fst e) (snd e))).
  destruct (groupPrefixes_spec doc ps k) as (_ & Hnone & _).
  rewrite mapGet_None_keys in Hnone.
  destruct (in_dec String.string_dec k
              (mapKeys (groupPrefixes ps (AWSIpRangesResponse.ipv6_prefixes doc))));
    destruct (in_dec String.string_dec k (serviceNames ps (ipv6Records doc)));
    tauto.
Qed.

Lemma getServiceIpRanges_plain (st : State) (name : string) (region : option string) :
  regionGiven region = None ->
  IpRangesService.getServiceIpRanges st name region =
  Return (firstByUpperKey (toUpperCase name) (serviceIpRangesMap st)).
Proof.
  intros H. unfold IpRangesService.getServiceIpRanges. now rewrite H.
Qed.

Lemma getServiceIpRanges_region (st : State) (doc : AWSIpRangesResponse.t)
    (name rg : string) (region : option string) :
  ipRangesData st = BodyDoc doc ->
  regionGiven region = Some rg ->
  IpRangesService.getServiceIpRanges st name region =
  filterByServiceAndRegion st (toUpperCase name) rg.
Proof.
  intros Hdata H. unfold IpRangesService.getServiceIpRanges.
  now rewrite H, Hdata.
Qed.

(** C5 (amended).  On a published document [getServiceIpRanges] matches
    the service name without regard to letter case.  Without a region, or
    with the empty string as region, it returns the entry of a service
    whose name equals the requested one up to case, with the prefixes of
    that service, and it returns null exactly when no service has such a
    name.  With a non-empty region it returns exactly the prefixes of the
    records whose service equals the name and whose region equals the
    region, both up to case, and it returns null exactly when no record of
    either family is such.  It never throws. *)
Theorem getServiceIpRanges_by_name_and_region :
  forall (st : State) (doc : AWSIpRangesResponse.t) (ps : list IPPrefix.t)
         (name : string) (region : option string),
    Loaded st doc ->
    AWSIpRangesResponse.prefixes doc = Some ps ->
    (exists o, IpRangesService.getServiceIpRanges st name region = Return o) /\
    (regionGiven region = None ->
       (IpRangesService.getServiceIpRanges st name region = Return None <->
        forall s, In s (serviceNames ps (ipv6Records doc)) -> ~ Literal.sameName s name) /\
       (forall r,
          IpRangesService.getServiceIpRanges st name region = Return (Some r) ->
          Literal.sameName (ServiceIpRanges.service r) name /\
          In (ServiceIpRanges.service r) (serviceNames ps (ipv6Records doc)) /\
          (forall p,
             In p (ServiceIpRanges.ipv4_prefixes r) <->
             exists rec, In rec ps /\
                         IPPrefix.service rec = ServiceIpRanges.service r /\
                         IPPrefix.ip_prefix rec = p) /\
          (forall p,
             In p (ServiceIpRanges.ipv6_prefixes r) <->
             exists rec, In rec (ipv6Records doc) /\
                         IPv6Prefix.service rec = ServiceIpRanges.service r /\
                         IPv6Prefix.ipv6_prefix rec = p))) /\
    (forall rg,
       regionGiven region = Some rg ->
       (IpRangesService.getServiceIpRanges st name region = Return None <->
        (forall rec, In rec ps ->
           ~ (Literal.sameName (IPPrefix.service rec) name /\
              Literal.sameName (IPPrefix.region rec) rg)) /\
        (forall rec, In rec (ipv6Records doc) ->
           ~ (Literal.sameName (IPv6Prefix.service rec) name /\
              Literal.sameName (IPv6Prefix.region rec) rg))) /\
       (forall r,
          IpRangesService.getServiceIpRanges st name region = Return (Some r) ->
          (forall p,
             In p (ServiceIpRanges.ipv4_prefixes r) <->
             exists rec, In rec ps /\ IPPrefix.ip_prefix rec = p /\
                         Literal.sameName (IPPrefix.service rec) name /\
                         Literal.sameName (IPPrefix.region rec) rg) /\
          (forall p,
             In p (ServiceIpRanges.ipv6_prefixes r) <->
             exists rec, In rec (ipv6Records doc) /\ IPv6Prefix.ipv6_prefix rec = p /\
                         Literal.sameName (IPv6Prefix.service rec) name /\
                         Literal.sameName (IPv6Prefix.region rec) rg))).
Proof.
  intros st doc ps name region Hloaded Hps.
  destruct (Loaded_index st doc Hloaded) as (ps' & now & Hps' & Hdata & _ & Hmap).
  assert (ps' = ps) by congruence. subst ps'. clear Hps'.
  unfold Literal.sameName.
  pose proof (filterByServiceAndRegion_loaded st doc ps (toUpperCase name)) as Hfilter.
  split; [|split].
  - destruct (regionGiven region) as [rg|] eqn:Erg.
    + rewrite (getServiceIpRanges_region st doc name rg region Hdata Erg).
      rewrite (Hfilter rg Hdata Hps).
      destruct (regionIpv4 _ rg ps); destruct (regionIpv6 _ rg _); eauto.
    + rewrite (getServiceIpRanges_plain st name region Erg). eauto.
  - intros Erg. rewrite (getServiceIpRanges_plain st name region Erg), Hmap.
    split.
    + split.
      * intros [= H] s Hs. rewrite firstByUpperKey_None in H.
        apply H. now apply published_keys.
      * intros H. f_equal. apply firstByUpperKey_None. intros k Hk.
        apply H. now apply published_keys in Hk.
    + intros r [= H]. apply firstByUpperKey_In in H as (k & Hin & Hk).
      destruct (published_entry doc ps k r Hin) as (Hname & Hsvc & H4 & H6 & _).
      rewrite Hsvc. repeat split; try assumption; try (apply H4); try (apply H6).
  - intros rg Erg.
    rewrite (getServiceIpRanges_region st doc name rg region Hdata Erg).
    rewrite (Hfilter rg Hdata Hps).
    pose proof (In_regionIpv4 (toUpperCase name) rg) as I4.
    pose proof (In_regionIpv6 (toUpperCase name) rg) as I6.
    split.
    + split.
      * intros H.
        assert (E4 : regionIpv4 (toUpperCase name) rg ps = [] /\
                     regionIpv6 (toUpperCase name) rg (ipv6Records doc) = []).
        { destruct (regionIpv4 _ rg ps); destruct (regionIpv6 _ rg _);
            try discriminate; auto. }
        destruct E4 as [E4 E6]. split.
        -- intros rec Hin [H1 H2].
           assert (Hp : In (IPPrefix.ip_prefix rec)
                           (regionIpv4 (toUpperCase name) rg ps)).
           { apply I4. exists rec. auto. }
           rewrite E4 in Hp. destruct Hp.
        -- intros rec Hin [H1 H2].
           assert (Hp : In (IPv6Prefix.ipv6_prefix rec)
                           (regionIpv6 (toUpperCase name) rg (ipv6Records doc))).
           { apply I6. exists rec. auto. }
           rewrite E6 in Hp. destruct Hp.
      * intros [H4 H6].
        destruct (regionIpv4 (toUpperCase name) rg ps) as [|p4 l4] eqn:E4.
        -- destruct (regionIpv6 (toUpperCase name) rg (ipv6Records doc))
             as [|p6 l6] eqn:E6; [reflexivity|].
           exfalso.
           assert (Hp : In p6 (p6 :: l6)) by now left.
           rewrite <- E6 in Hp. apply I6 in Hp as (rec & Hin & _ & H1 & H2).
           apply (H6 rec Hin). auto.
        -- exfalso.
           assert (Hp : In p4 (p4 :: l4)) by now left.
           rewrite <- E4 in Hp. apply I4 in Hp as (rec & Hin & _ & H1 & H2).
           apply (H4 rec Hin). auto.
    + intros r Hr.
      assert (E : ServiceIpRanges.ipv4_prefixes r = regionIpv4 (toUpperCase name) rg ps /\
                  ServiceIpRanges.ipv6_prefixes r =
                    regionIpv6 (toUpperCase name) rg (ipv6Records doc)).
      { destruct (regionIpv4 _ rg ps); destruct (regionIpv6 _ rg _);
          try discriminate; injection Hr as <-; split; reflexivity. }
      destruct E as [-> ->]. split; intros p; [apply I4 | apply I6].
Qed.

Lemma Loaded_published :
  Loaded Sample.published
    (Sample.document [Sample.ec2East; Sample.ec2West] [Sample.cloudfront6]).
Proof.
  apply (Loaded_intro initial _ _ [Sample.ec2East; Sample.ec2West]). reflexivity.
Qed.

Lemma getServiceIpRanges_by_name_and_region_witness :
  (exists o,
     IpRangesService.getServiceIpRanges Sample.published "ec2" (Some "us-east-1") =
     Return o) /\
  (IpRangesService.getServiceIpRanges Sample.published "ec2" (Some "eu-west-1") =
     Return None <->
   (forall rec, In rec [Sample.ec2East; Sample.ec2West] ->
      ~ (Literal.sameName (IPPrefix.service rec) "ec2" /\
         Literal.sameName (IPPrefix.region rec) "eu-west-1")) /\
   (forall rec, In rec [Sample.cloudfront6] ->
      ~ (Literal.sameName (IPv6Prefix.service rec) "ec2" /\
         Literal.sameName (IPv6Prefix.region rec) "eu-west-1"))).
Proof.
  split.
  - apply (getServiceIpRanges_by_name_and_region Sample.published
             (Sample.document [Sample.ec2East; Sample.ec2West] [Sample.cloudfront6])
             [Sample.ec2East; Sample.ec2West] "ec2" (Some "us-east-1")).
    + exact Loaded_published.
    + reflexivity.
  - apply (getServiceIpRanges_by_name_and_region Sample.published
             (Sample.document [Sample.ec2East; Sample.ec2West] [Sample.cloudfront6])
             [Sample.ec2East; Sample.ec2West] "ec2" (Some "eu-west-1")).
    + exact Loaded_published.
    + reflexivity.
    + reflexivity.
Defined.

(** C5, as stated, fails: the empty string given as region is not used as
    a filter.  No record has an empty region, yet the lookup returns the
    whole list of the service instead of null. *)
Lemma empty_region_is_no_filter :
  IpRangesService.getServiceIpRanges Sample.published "EC2" (Some "") =
    Return (Some (toServiceIpRanges "EC2"
                    {| ipv4 := ["1.2.3.0/24"; "1.2.4.0/24"]; ipv6 := [] |})) /\
  (forall rec, In rec [Sample.ec2East; Sample.ec2West] ->
     ~ Literal.sameName (IPPrefix.region rec) "") /\
  (forall rec, In rec [Sample.cloudfront6] ->
     ~ Literal.sameName (IPv6Prefix.region rec) "").
Proof.
  split; [reflexivity|].
  split; intros rec Hin; simpl in Hin; intuition (subst; discriminate).
Qed.

(* ===================================================================== *)
(** * Duplicate records *)
(* ===================================================================== *)

(** Without a region the lists come from the sets of [groupByService] and
    hold no prefix twice. *)
Lemma plain_lookup_NoDup (st : State) (doc : AWSIpRangesResponse.t)
    (name : string) (region : option string) (r : ServiceIpRanges.t) :
  Loaded st doc ->
  regionGiven region = None ->
  IpRangesService.getServiceIpRanges st name region = Return (Some r) ->
  NoDup (ServiceIpRanges.ipv4_prefixes r) /\ NoDup (ServiceIpRanges.ipv6_prefixes r).
Proof.
  intros Hloaded Erg.
  destruct (Loaded_index st doc Hloaded) as (ps & now & Hps & Hdata & _ & Hmap).
  rewrite (getServiceIpRanges_plain st name region Erg), Hmap.
  intros [= H]. apply firstByUpperKey_In in H as (k & Hin & _).
  destruct (published_entry doc ps k r Hin) as (_ & _ & _ & _ & H4 & H6).
  now split.
Qed.

(** C6.  The claim asks that no answer lists a prefix twice, with or
    without a region filter.  For a document that carries the same record
    twice, the lookup without a region lists the prefix once, while the
    lookup and the all-services query with a region list it twice. *)
Theorem region_filter_keeps_duplicates :
  IpRangesService.getServiceIpRanges Sample.duplicated "EC2" None =
    Return (Some {| ServiceIpRanges.service := "EC2";
                    ServiceIpRanges.ipv4_prefixes := ["1.2.3.0/24"];
                    ServiceIpRanges.ipv6_prefixes := [];
                    ServiceIpRanges.count := {| Count.ipv4 := 1; Count.ipv6 := 0 |} |}) /\
  IpRangesService.getServiceIpRanges Sample.duplicated "EC2" (Some "us-east-1") =
    Return (Some {| ServiceIpRanges.service := "EC2";
                    ServiceIpRanges.ipv4_prefixes := ["1.2.3.0/24"; "1.2.3.0/24"];
                    ServiceIpRanges.ipv6_prefixes := [];
                    ServiceIpRanges.count := {| Count.ipv4 := 2; Count.ipv6 := 0 |} |}) /\
  (exists all,
     IpRangesService.getAllServiceIpRanges Sample.duplicated (Some "us-east-1") =
       Return all /\
     ipv4Of "EC2" all = ["1.2.3.0/24"; "1.2.3.0/24"]) /\
  ~ NoDup ["1.2.3.0/24"; "1.2.3.0/24"].
Proof.
  split; [reflexivity|]. split; [reflexivity|]. split.
  - eexists. split; reflexivity.
  - intros H. inversion H as [|x l Hx _]; subst. apply Hx. now left.
Qed.

(* ===================================================================== *)
(** * Strings *)
(* ===================================================================== *)

Lemma append_assoc (a b c : string) :
  String.append (String.append a b) c = String.append a (String.append b c).
Proof. induction a as [|x a IH]; simpl; [reflexivity | now rewrite IH]. Qed.

Lemma append_nil_r (a : string) : String.append a EmptyString = a.
Proof. induction a as [|x a IH]; simpl; [reflexivity | now rewrite IH]. Qed.

Lemma length_append (a b : string) :
  String.length (String.append a b) = (String.length a + String.length b)%nat.
Proof. induction a as [|x a IH]; simpl; [reflexivity | now rewrite IH]. Qed.

Lemma prefix_append (a b : string) : String.prefix a (String.append a b) = true.
Proof.
  induction a as [|x a IH]; simpl; [now destruct b|].
  destruct (ascii_dec x x); [exact IH | contradiction].
Qed.

Lemma includes_prefix (needle s : string) :
  String.prefix needle s = true -> includes needle s = true.
Proof. intros H. destruct s; cbn [includes]; rewrite H; reflexivity. Qed.

Lemma includes_middle (sep a b : string) :
  includes sep (String.append a (String.append sep b)) = true.
Proof.
  induction a as [|x a IH].
  - change (includes sep (String.append sep b) = true).
    apply includes_prefix, prefix_append.
  - change (includes sep (String x (String.append a (String.append sep b))) = true).
    cbn [includes]. rewrite IH. apply orb_true_r.
Qed.

(* ===================================================================== *)
(** * Searching by address *)
(* ===================================================================== *)

Lemma fold_push_filter {A B : Type} (keep : A -> bool) (f : A -> B) (xs : list A) :
  forall acc,
    fold_left (fun out x => if keep x then out ++ [f x] else out) xs acc =
    acc ++ map f (filter keep xs).
Proof.
  induction xs as [|x xs IH]; intros acc; simpl.
  - now rewrite app_nil_r.
  - rewrite IH. destruct (keep x); simpl; [now rewrite <- app_assoc | reflexivity].
Qed.

Lemma scan4_filter (ip : string) (ps : list IPPrefix.t) (acc : list IpSearchMatch.t) :
  fold_left (scan4 ip) ps acc = acc ++ map match4 (filter (inside4 ip) ps).
Proof.
  unfold inside4.
  exact (fold_push_filter (fun rec => isIpv4InCidr ip (IPPrefix.ip_prefix rec))
           match4 ps acc).
Qed.

Lemma expandIpv6_outcome (ip : string) :
  (exists s, expandIpv6 ip = Return s) \/ expandIpv6 ip = Throw RangeError.
Proof.
  unfold expandIpv6. destruct (includes "::" ip); [|eauto].
  match goal with |- context [if ?b then _ else _] => destruct b end; eauto.
Qed.

Lemma isIpv6InCidr_outcome (ip cidr : string) :
  (exists b, isIpv6InCidr ip cidr = Return b) \/ isIpv6InCidr ip cidr = Throw RangeError.
Proof.
  unfold isIpv6InCidr.
  destruct (expandIpv6_outcome ip) as [[s ->]| ->]; simpl; [|now right].
  destruct (expandIpv6_outcome (cidrRange cidr)) as [[t ->]| ->]; simpl; eauto.
Qed.

Lemma scan6_Throw (ip : string) (qs : list IPv6Prefix.t) (e : JsError) :
  fold_left (scan6 ip) qs (Throw e) = Throw e.
Proof. induction qs as [|rec qs IH]; simpl; [reflexivity | exact IH]. Qed.

Lemma scan6_filter (ip : string) (qs : list IPv6Prefix.t) :
  forall acc,
    fold_left (scan6 ip) qs (Return acc) =
      Return (acc ++ map match6 (filter (inside6 ip) qs)) \/
    fold_left (scan6 ip) qs (Return acc) = Throw RangeError.
Proof.
  induction qs as [|rec qs IH]; intros acc; simpl.
  - left. now rewrite app_nil_r.
  - unfold inside6 at 1.
    destruct (isIpv6InCidr_outcome ip (IPv6Prefix.ipv6_prefix rec)) as [[b ->]| ->];
      simpl.
    + destruct b.
      * destruct (IH (acc ++ [match6 rec])) as [H|H]; rewrite H; [left | now right].
        simpl. now rewrite <- app_assoc.
      * apply IH.
    + right. apply scan6_Throw.
Qed.

Lemma scan6_outcome (ip : string) (qs : list IPv6Prefix.t) :
  forall acc,
    (fold_left (scan6 ip) qs (Return acc) = Throw RangeError <->
     exists rec, In rec qs /\
                 isIpv6InCidr ip (IPv6Prefix.ipv6_prefix rec) = Throw RangeError) /\
    ((forall rec, In rec qs ->
        exists b, isIpv6InCidr ip (IPv6Prefix.ipv6_prefix rec) = Return b) ->
     fold_left (scan6 ip) qs (Return acc) =
       Return (acc ++ map match6 (filter (inside6 ip) qs))).
Proof.
  induction qs as [|q qs IH]; intros acc.
  - cbn [fold_left filter map]. rewrite app_nil_r. split.
    + split; [discriminate | intros (rec & [] & _)].
    + reflexivity.
  - cbn [fold_left]. unfold scan6 at 2. unfold scan6 at 3. cbn [rbind].
    destruct (isIpv6InCidr_outcome ip (IPv6Prefix.ipv6_prefix q)) as [[b Hb]|Hthrow].
    + rewrite Hb. cbn [rbind].
      destruct (IH (if b then acc ++ [match6 q] else acc)) as [Hiff Hall]. split.
      * rewrite Hiff. split.
        -- intros (rec & Hin & H). exists rec. split; [now right | exact H].
        -- intros (rec & [<-|Hin] & H); [congruence | now exists rec].
      * intros Hvalid. rewrite Hall by (intros rec Hrec; apply Hvalid; now right).
        cbn [filter]. unfold inside6 at 2. rewrite Hb.
        destruct b; cbn [map]; [now rewrite <- app_assoc | reflexivity].
    + rewrite Hthrow. cbn [rbind]. rewrite scan6_Throw. split.
      * split; [intros _; exists q; split; [now left | exact Hthrow] | reflexivity].
      * intros Hvalid. destruct (Hvalid q (or_introl eq_refl)) as [b Hb]. congruence.
Qed.

(** [searchByIp] on a published document. *)
Lemma searchByIp_loaded (st : State) (doc : AWSIpRangesResponse.t)
    (ps : list IPPrefix.t) (ip : string) :
  ipRangesData st = BodyDoc doc ->
  AWSIpRangesResponse.prefixes doc = Some ps ->
  (includes ":" ip = false ->
   searchByIp st ip = Return (searchResult ip (map match4 (filter (inside4 ip) ps)))) /\
  (includes ":" ip = true ->
   searchByIp st ip =
     Return (searchResult ip (map match6 (filter (inside6 ip) (ipv6Records doc)))) \/
   searchByIp st ip = Throw RangeError).
Proof.
  intros Hdata Hps. unfold searchByIp. rewrite Hdata. simpl. split; intros Hip;
    rewrite Hip.
  - rewrite Hps. simpl. now rewrite scan4_filter.
  - unfold ipv6Records.
    destruct (AWSIpRangesResponse.ipv6_prefixes doc) as [qs|]; simpl.
    + destruct (scan6_filter ip qs []) as [H|H]; rewrite H; simpl; auto.
    + now left.
Qed.


Lemma Ipv6Text_has_colon (s : string) (a : Z) :
  Literal.Ipv6Text s a -> includes ":" s = true.
Proof.
  intros H. destruct H as [gs vs Hlen _|l r vl vr _ _ _].
  - destruct gs as [|g1 [|g2 gs]]; try discriminate.
    unfold join. simpl. apply (includes_middle ":" g1).
  - apply (includes_middle ":" (join ":" l) (String.append ":" (join ":" r))).
Qed.


(* ===================================================================== *)
(** * A match is listed under its service and region *)
(* ===================================================================== *)

Lemma filter_result_ipv4 (st : State) (doc : AWSIpRangesResponse.t)
    (ps : list IPPrefix.t) (s r p : string) :
  ipRangesData st = BodyDoc doc ->
  AWSIpRangesResponse.prefixes doc = Some ps ->
  In p (regionIpv4 s r ps) ->
  exists v,
    filterByServiceAndRegion st s r = Return (Some v) /\
    In p (ServiceIpRanges.ipv4_prefixes v).
Proof.
  intros Hdata Hps Hin.
  rewrite (filterByServiceAndRegion_loaded st doc ps s r Hdata Hps).
  destruct (regionIpv4 s r ps) as [|p0 l4]; [destruct Hin|].
  eexists. split; [reflexivity | exact Hin].
Qed.

Lemma filter_result_ipv6 (st : State) (doc : AWSIpRangesResponse.t)
    (ps : list IPPrefix.t) (s r p : string) :
  ipRangesData st = BodyDoc doc ->
  AWSIpRangesResponse.prefixes doc = Some ps ->
  In p (regionIpv6 s r (ipv6Records doc)) ->
  exists v,
    filterByServiceAndRegion st s r = Return (Some v) /\
    In p (ServiceIpRanges.ipv6_prefixes v).
Proof.
  intros Hdata Hps Hin.
  rewrite (filterByServiceAndRegion_loaded st doc ps s r Hdata Hps).
  destruct (regionIpv6 s r (ipv6Records doc)) as [|p0 l6]; [destruct Hin|].
  destruct (regionIpv4 s r ps); eexists; (split; [reflexivity | exact Hin]).
Qed.

(** Without a region, a service whose name is unique up to case is found
    under its own key. *)
Lemma plain_lookup_unique (st : State) (doc : AWSIpRangesResponse.t)
    (ps : list IPPrefix.t) (s : string) :
  serviceIpRangesMap st =
    map publishEntry (groupPrefixes ps (AWSIpRangesResponse.ipv6_prefixes doc)) ->
  CaseUnique doc ps s ->
  In s (serviceNames ps (ipv6Records doc)) ->
  exists v,
    firstByUpperKey (toUpperCase s) (serviceIpRangesMap st) = Some v /\
    In (s, v) (serviceIpRangesMap st).
Proof.
  intros Hmap [U4 U6] Hs. rewrite Hmap.
  rewrite firstByUpperKey_unique.
  - destruct (mapGet s (map publishEntry
                          (groupPrefixes ps (AWSIpRangesResponse.ipv6_prefixes doc))))
      as [v|] eqn:E.
    + exists v. split; [reflexivity | now apply mapGet_In].
    + exfalso. apply mapGet_None_keys in E. apply E. now apply published_keys.
  - intros k Hk Hup. apply published_keys in Hk. unfold serviceNames in Hk.
    apply in_app_iff in Hk as [Hk|Hk]; apply in_map_iff in Hk as (rec & <- & Hin).
    + now apply U4.
    + now apply U6.
Qed.

(** C4 (amended).  On a published document, if [searchByIp] returns a
    match with prefix [p], service [S] and region [R], and [R] is not
    empty or no other service name equals [S] up to letter case, then
    [getServiceIpRanges(S, R)] succeeds and its list for the family of the
    searched address includes [p]. *)
Theorem search_match_is_listed :
  forall (st : State) (doc : AWSIpRangesResponse.t) (ps : list IPPrefix.t)
         (ip : string) (res : IpSearchResult.t) (m : IpSearchMatch.t),
    Loaded st doc ->
    AWSIpRangesResponse.prefixes doc = Some ps ->
    searchByIp st ip = Return res ->
    In m (IpSearchResult.matches res) ->
    IpSearchMatch.region m <> "" \/ CaseUnique doc ps (IpSearchMatch.service m) ->
    exists r,
      IpRangesService.getServiceIpRanges st (IpSearchMatch.service m)
        (Some (IpSearchMatch.region m)) = Return (Some r) /\
      In (IpSearchMatch.prefix m)
         (if includes ":" ip
          then ServiceIpRanges.ipv6_prefixes r
          else ServiceIpRanges.ipv4_prefixes r).
Proof.
  intros st doc ps ip res m Hloaded Hps Hsearch Hm Hside.
  destruct (Loaded_index st doc Hloaded) as (ps' & now & Hps' & Hdata & _ & Hmap).
  assert (ps' = ps) by congruence. subst ps'. clear Hps'.
  destruct (searchByIp_loaded st doc ps ip Hdata Hps) as [S4 S6].
  assert (Hregion : IpSearchMatch.region m <> "" ->
            regionGiven (Some (IpSearchMatch.region m)) = Some (IpSearchMatch.region m)).
  { intros Hne. unfold regionGiven.
    destruct (String.eqb_spec (IpSearchMatch.region m) ""); [contradiction | reflexivity]. }
  assert (Hplain : IpSearchMatch.region m = "" ->
            regionGiven (Some (IpSearchMatch.region m)) = None).
  { intros ->. reflexivity. }
  destruct (includes ":" ip) eqn:Hip.
  - (* IPv6 *)
    destruct (S6 eq_refl) as [Hs|Hs]; rewrite Hs in Hsearch; [|discriminate].
    injection Hsearch as <-. simpl in Hm.
    apply in_map_iff in Hm as (rec & <- & Hrec). apply filter_In in Hrec as [Hrec _].
    cbn [match6 match4 IpSearchMatch.service IpSearchMatch.region
         IpSearchMatch.prefix] in *.
    destruct (String.string_dec (IPv6Prefix.region rec) "") as [Hempty|Hne].
    + destruct Hside as [Hside|Hside]; [contradiction|].
      rewrite (getServiceIpRanges_plain st _ _ (Hplain Hempty)).
      destruct (plain_lookup_unique st doc ps (IPv6Prefix.service rec) Hmap Hside)
        as (v & Hv & Hin).
      { unfold serviceNames. apply in_app_iff. right. now apply in_map. }
      exists v. split; [now rewrite Hv|].
      rewrite Hmap in Hin.
      destruct (published_entry doc ps _ v Hin) as (_ & _ & _ & H6 & _).
      apply H6. exists rec. auto.
    + rewrite (getServiceIpRanges_region st doc _ _ _ Hdata (Hregion Hne)).
      apply (filter_result_ipv6 st doc ps); try assumption.
      apply In_regionIpv6. exists rec. auto.
  - (* IPv4 *)
    rewrite (S4 eq_refl) in Hsearch. injection Hsearch as <-. simpl in Hm.
    apply in_map_iff in Hm as (rec & <- & Hrec). apply filter_In in Hrec as [Hrec _].
    cbn [match6 match4 IpSearchMatch.service IpSearchMatch.region
         IpSearchMatch.prefix] in *.
    destruct (String.string_dec (IPPrefix.region rec) "") as [Hempty|Hne].
    + destruct Hside as [Hside|Hside]; [contradiction|].
      rewrite (getServiceIpRanges_plain st _ _ (Hplain Hempty)).
      destruct (plain_lookup_unique st doc ps (IPPrefix.service rec) Hmap Hside)
        as (v & Hv & Hin).
      { unfold serviceNames. apply in_app_iff. left. now apply in_map. }
      exists v. split; [now rewrite Hv|].
      rewrite Hmap in Hin.
      destruct (published_entry doc ps _ v Hin) as (_ & _ & H4 & _).
      apply H4. exists rec. auto.
    + rewrite (getServiceIpRanges_region st doc _ _ _ Hdata (Hregion Hne)).
      apply (filter_result_ipv4 st doc ps); try assumption.
      apply In_regionIpv4. exists rec. auto.
Qed.

Lemma search_match_is_listed_witness :
  exists r,
    IpRangesService.getServiceIpRanges Sample.published "EC2" (Some "us-east-1") =
      Return (Some r) /\
    In "1.2.3.0/24" (ServiceIpRanges.ipv4_prefixes r).
Proof.
  apply (search_match_is_listed Sample.published
           (Sample.document [Sample.ec2East; Sample.ec2West] [Sample.cloudfront6])
           [Sample.ec2East; Sample.ec2West] "1.2.3.5"
           {| IpSearchResult.ip := "1.2.3.5";
              IpSearchResult.found := true;
              IpSearchResult.matches := [match4 Sample.ec2East] |}
           (match4 Sample.ec2East)).
  - exact Loaded_published.
  - reflexivity.
  - reflexivity.
  - simpl. left. reflexivity.
  - left. simpl. discriminate.
Defined.

(** C4, as stated, fails: with two service names that differ by case only
    and records without a region, the match found for "1.2.4.5" belongs to
    service "ec2" and region "", but the lookup for that service and
    region returns the entry of "EC2", which does not list the prefix. *)
Lemma match_not_listed_under_case_variant :
  searchByIp Sample.mixedCaseNoRegion "1.2.4.5" =
    Return {| IpSearchResult.ip := "1.2.4.5";
              IpSearchResult.found := true;
              IpSearchResult.matches :=
                [{| IpSearchMatch.service := "ec2";
                    IpSearchMatch.region := "";
                    IpSearchMatch.prefix := "1.2.4.0/24";
                    IpSearchMatch.network_border_group := "" |}] |} /\
  IpRangesService.getServiceIpRanges Sample.mixedCaseNoRegion "ec2" (Some "") =
    Return (Some {| ServiceIpRanges.service := "EC2";
                    ServiceIpRanges.ipv4_prefixes := ["1.2.3.0/24"];
                    ServiceIpRanges.ipv6_prefixes := [];
                    ServiceIpRanges.count := {| Count.ipv4 := 1; Count.ipv6 := 0 |} |}) /\
  ~ In "1.2.4.0/24" ["1.2.3.0/24"].
Proof.
  split; [reflexivity|]. split; [reflexivity|].
  intros [H|[]]. discriminate.
Qed.

(* ===================================================================== *)
(** * All services, with and without a region *)
(* ===================================================================== *)

Lemma In_insertSorted (x y : string) (l : list string) :
  In y (insertSorted x l) <-> y = x \/ In y l.
Proof.
  induction l as [|z l IH]; simpl.
  - intuition.
  - destruct (strLeb x z); simpl; [intuition | rewrite IH; intuition].
Qed.

Lemma In_sort (x : string) (l : list string) : In x (JS.sort l) <-> In x l.
Proof.
  unfold JS.sort. induction l as [|y l IH]; simpl.
  - tauto.
  - rewrite In_insertSorted, IH. intuition.
Qed.

Lemma In_fold_setAdd {A : Type} (f : A -> string) (xs : list A) (r : string) :
  forall acc,
    In r (fold_left (fun acc x => setAdd (f x) acc) xs acc) <->
    In r acc \/ exists x, In x xs /\ f x = r.
Proof.
  induction xs as [|x xs IH]; intros acc; simpl.
  - split; [auto | intros [H|(x & [] & _)]; exact H].
  - rewrite IH, In_setAdd. split.
    + intros [[->|H]|(y & Hy & Hf)]; eauto.
    + intros [H|(y & [->|Hy] & Hf)]; eauto.
Qed.

Lemma In_regionSet (doc : AWSIpRangesResponse.t) (ps : list IPPrefix.t) (r : string) :
  In r (regionSet ps (AWSIpRangesResponse.ipv6_prefixes doc)) <->
  (exists rec, In rec ps /\ IPPrefix.region rec = r) \/
  (exists rec, In rec (ipv6Records doc) /\ IPv6Prefix.region rec = r).
Proof.
  unfold regionSet, ipv6Records.
  destruct (AWSIpRangesResponse.ipv6_prefixes doc) as [qs|].
  - rewrite In_fold_setAdd, In_fold_setAdd. simpl. tauto.
  - rewrite In_fold_setAdd. simpl. split.
    + intros [[]|H]. now left.
    + intros [H|(rec & [] & _)]. now right.
Qed.

Lemma getRegions_loaded (st : State) (doc : AWSIpRangesResponse.t)
    (ps : list IPPrefix.t) :
  ipRangesData st = BodyDoc doc ->
  AWSIpRangesResponse.prefixes doc = Some ps ->
  exists regs,
    IpRangesService.getRegions st = Return regs /\
    forall r,
      In r (RegionsListResponse.regions regs) <->
      (exists rec, In rec ps /\ IPPrefix.region rec = r) \/
      (exists rec, In rec (ipv6Records doc) /\ IPv6Prefix.region rec = r).
Proof.
  intros Hdata Hps. unfold IpRangesService.getRegions. rewrite Hdata. simpl.
  rewrite Hps. simpl. eexists. split; [reflexivity|].
  intros r. simpl. rewrite In_sort. apply In_regionSet.
Qed.

(** Without a region every entry of the map is copied. *)
Lemma getAll_plain (st : State) (doc : AWSIpRangesResponse.t)
    (ps : list IPPrefix.t) (region : option string) :
  serviceIpRangesMap st =
    map publishEntry (groupPrefixes ps (AWSIpRangesResponse.ipv6_prefixes doc)) ->
  regionGiven region = None ->
  exists all,
    IpRangesService.getAllServiceIpRanges st region = Return all /\
    forall s,
      ipv4Of s all =
        ipv4 (entryOf s (groupPrefixes ps (AWSIpRangesResponse.ipv6_prefixes doc))) /\
      ipv6Of s all =
        ipv6 (entryOf s (groupPrefixes ps (AWSIpRangesResponse.ipv6_prefixes doc))).
Proof.
  intros Hmap Erg. unfold IpRangesService.getAllServiceIpRanges.
  rewrite Erg, Hmap. simpl.
  set (G := groupPrefixes ps (AWSIpRangesResponse.ipv6_prefixes doc)).
  assert (Hnd : NoDup (mapKeys G)) by apply (groupPrefixes_spec doc ps "").
  rewrite (fold_mapSet_fresh (fun e => omitService (snd e)) (map publishEntry G) []).
  2:{ simpl. unfold publishEntry.
      now rewrite (mapKeys_published (fun e => toServiceIpRanges (fst e) (snd e))). }
  eexists. split; [reflexivity|].
  intros s. unfold ipv4Of, ipv6Of. simpl.
  rewrite (mapGet_published (fun e => omitService (snd e)) s (map publishEntry G)).
  unfold publishEntry.
  rewrite (mapGet_published (fun e => toServiceIpRanges (fst e) (snd e)) s G).
  unfold entryOf. destruct (mapGet s G); split; reflexivity.
Qed.

(** With a region the services are filtered one by one. *)
Lemma addFiltered_spec (st : State) (doc : AWSIpRangesResponse.t)
    (ps : list IPPrefix.t) (r : string) :
  ipRangesData st = BodyDoc doc ->
  AWSIpRangesResponse.prefixes doc = Some ps ->
  forall keys seen acc,
    FilteredSoFar doc ps r seen acc ->
    exists l,
      fold_left (addFiltered st r) keys (Return acc) = Return l /\
      FilteredSoFar doc ps r (rev keys ++ seen) l.
Proof.
  intros Hdata Hps. induction keys as [|k keys IH]; intros seen acc Hinv.
  - exists acc. split; [reflexivity | exact Hinv].
  - cbn [fold_left]. unfold addFiltered at 2. cbn [rbind].
    rewrite (filterByServiceAndRegion_loaded st doc ps (toUpperCase k) r Hdata Hps).
    assert (Hnext : exists acc',
               match regionIpv4 (toUpperCase k) r ps,
                     regionIpv6 (toUpperCase k) r (ipv6Records doc) with
               | [], [] => Return None
               | l4, l6 =>
                   Return (Some {| ServiceIpRanges.service := toUpperCase k;
                                   ServiceIpRanges.ipv4_prefixes := l4;
                                   ServiceIpRanges.ipv6_prefixes := l6;
                                   ServiceIpRanges.count :=
                                     {| Count.ipv4 := List.length l4;
                                        Count.ipv6 := List.length l6 |} |})
               end = Return acc' /\
               FilteredSoFar doc ps r (k :: seen)
                 (match acc' with
                  | Some f =>
                      if (Nat.ltb 0 (Count.ipv4 (ServiceIpRanges.count f)) ||
                          Nat.ltb 0 (Count.ipv6 (ServiceIpRanges.count f)))%bool
                      then mapSet k (omitService f) acc
                      else acc
                  | None => acc
                  end)).
    { destruct (regionIpv4 (toUpperCase k) r ps) as [|p4 l4] eqn:E4;
        [destruct (regionIpv6 (toUpperCase k) r (ipv6Records doc)) as [|p6 l6] eqn:E6|];
        eexists; (split; [reflexivity|]); cbn -[regionIpv4 regionIpv6];
        intros s; destruct (Hinv s) as [Hseen Hnew];
        destruct (String.string_dec s k) as [->|Hne].
      - split; [intros _ | intros H; exfalso; apply H; now left].
        destruct (in_dec String.string_dec k seen) as [Hk|Hk].
        + apply (Hseen Hk).
        + rewrite (Hnew Hk). now rewrite E4, E6.
      - split.
        + intros [H|H]; [congruence | now apply Hseen].
        + intros H. apply Hnew. intros H'. apply H. now right.
      - rewrite mapGet_mapSet_same. split; [intros _ | intros H; exfalso; apply H; now left].
        simpl. now rewrite E4, E6.
      - rewrite mapGet_mapSet_other by assumption. split.
        + intros [H|H]; [congruence | now apply Hseen].
        + intros H. apply Hnew. intros H'. apply H. now right.
      - rewrite mapGet_mapSet_same. split; [intros _ | intros H; exfalso; apply H; now left].
        simpl. now rewrite E4.
      - rewrite mapGet_mapSet_other by assumption. split.
        + intros [H|H]; [congruence | now apply Hseen].
        + intros H. apply Hnew. intros H'. apply H. now right. }
    destruct Hnext as (acc' & -> & Hinv'). cbn [rbind].
    match goal with
    | |- context [fold_left _ keys ?start] =>
        assert (Hstart : exists acc2, start = Return acc2 /\
                           FilteredSoFar doc ps r (k :: seen) acc2)
    end.
    { destruct acc' as [f|]; [|eauto].
      match goal with |- context [if ?b then _ else _] => destruct b end; eauto. }
    destruct Hstart as (acc2 & -> & Hinv2).
    destruct (IH (k :: seen) acc2 Hinv2) as (l & Hl & Hfinal).
    exists l. split; [exact Hl|].
    simpl. rewrite <- app_assoc. exact Hfinal.
Qed.

Lemma getAll_region (st : State) (doc : AWSIpRangesResponse.t)
    (ps : list IPPrefix.t) (region : option string) (rg : string) :
  ipRangesData st = BodyDoc doc ->
  AWSIpRangesResponse.prefixes doc = Some ps ->
  serviceIpRangesMap st =
    map publishEntry (groupPrefixes ps (AWSIpRangesResponse.ipv6_prefixes doc)) ->
  regionGiven region = Some rg ->
  exists all,
    IpRangesService.getAllServiceIpRanges st region = Return all /\
    forall s p,
      (In p (ipv4Of s all) <->
       In s (serviceNames ps (ipv6Records doc)) /\
       In p (regionIpv4 (toUpperCase s) rg ps)) /\
      (In p (ipv6Of s all) <->
       In s (serviceNames ps (ipv6Records doc)) /\
       In p (regionIpv6 (toUpperCase s) rg (ipv6Records doc))).
Proof.
  intros Hdata Hps Hmap Erg. unfold IpRangesService.getAllServiceIpRanges.
  rewrite Erg, Hdata. cbn [truthy].
  destruct (addFiltered_spec st doc ps rg Hdata Hps
              (mapKeys (serviceIpRangesMap st)) [] [])
    as (l & Hl & Hinv).
  { intros s. split; [intros [] | reflexivity]. }
  rewrite Hl. cbn [rbind]. eexists. split; [reflexivity|].
  intros s p. unfold ipv4Of, ipv6Of. cbn [AllServicesIpRanges.services].
  destruct (Hinv s) as [Hseen Hnew]. rewrite app_nil_r in Hseen, Hnew.
  assert (Hkeys : In s (rev (mapKeys (serviceIpRangesMap st))) <->
                  In s (serviceNames ps (ipv6Records doc))).
  { rewrite <- in_rev, Hmap. apply published_keys. }
  destruct (in_dec String.string_dec s (rev (mapKeys (serviceIpRangesMap st))))
    as [Hin|Hout].
  - specialize (Hseen Hin). apply Hkeys in Hin.
    destruct (mapGet s l) as [rest|].
    + destruct Hseen as [-> ->]. tauto.
    + destruct Hseen as [-> ->]. simpl. tauto.
  - rewrite (Hnew Hout). simpl. rewrite <- Hkeys. tauto.
Qed.

(** C8 (amended).  On a published document in which no two service names
    differ by letter case only, the answer of [getAllServiceIpRanges]
    without a region lists, for every service and each address family,
    exactly the prefixes listed for that service by
    [getAllServiceIpRanges(r)] for some region [r] returned by
    [getRegions]; all these queries return normally. *)
Theorem all_services_is_union_over_regions :
  forall (st : State) (doc : AWSIpRangesResponse.t) (ps : list IPPrefix.t),
    Loaded st doc ->
    AWSIpRangesResponse.prefixes doc = Some ps ->
    (forall s, In s (serviceNames ps (ipv6Records doc)) -> CaseUnique doc ps s) ->
    exists all regs,
      IpRangesService.getAllServiceIpRanges st None = Return all /\
      IpRangesService.getRegions st = Return regs /\
      (forall r, In r (RegionsListResponse.regions regs) ->
         exists allr, IpRangesService.getAllServiceIpRanges st (Some r) = Return allr) /\
      forall s p,
        (In p (ipv4Of s all) <->
         exists r allr,
           In r (RegionsListResponse.regions regs) /\
           IpRangesService.getAllServiceIpRanges st (Some r) = Return allr /\
           In p (ipv4Of s allr)) /\
        (In p (ipv6Of s all) <->
         exists r allr,
           In r (RegionsListResponse.regions regs) /\
           IpRangesService.getAllServiceIpRanges st (Some r) = Return allr /\
           In p (ipv6Of s allr)).
Proof.
  intros st doc ps Hloaded Hps Hunique.
  destruct (Loaded_index st doc Hloaded) as (ps' & now & Hps' & Hdata & _ & Hmap).
  assert (ps' = ps) by congruence. subst ps'. clear Hps'.
  destruct (getAll_plain st doc ps None Hmap eq_refl) as (all & Hall & Hplain).
  destruct (getRegions_loaded st doc ps Hdata Hps) as (regs & Hregs & Hin_regs).
  set (G := groupPrefixes ps (AWSIpRangesResponse.ipv6_prefixes doc)) in *.
  assert (Hempty : IpRangesService.getAllServiceIpRanges st (Some "") = Return all).
  { exact Hall. }
  assert (Hgiven : forall r, r <> "" -> regionGiven (Some r) = Some r).
  { intros r Hr. unfold regionGiven.
    destruct (String.eqb_spec r ""); [contradiction | reflexivity]. }
  exists all, regs. split; [exact Hall|]. split; [exact Hregs|]. split.
  { intros r _. destruct (String.string_dec r "") as [->|Hne]; [eauto|].
    destruct (getAll_region st doc ps (Some r) r Hdata Hps Hmap (Hgiven r Hne))
      as (allr & Hallr & _).
    eauto. }
  intros s p.
  destruct (Hplain s) as [E4 E6]. rewrite E4, E6.
  destruct (groupPrefixes_spec doc ps s) as (_ & _ & H4 & H6 & _).
  fold G in H4, H6. rewrite H4, H6.
  split; split.
  - (* IPv4, from the merged list to a region *)
    intros (rec & Hrec & Hs & Hp).
    assert (Hr : In (IPPrefix.region rec) (RegionsListResponse.regions regs)).
    { apply Hin_regs. left. eauto. }
    exists (IPPrefix.region rec).
    destruct (String.string_dec (IPPrefix.region rec) "") as [E|Hne].
    + exists all. rewrite E in *. split; [exact Hr|]. split; [exact Hempty|].
      rewrite E4. apply H4. eauto.
    + destruct (getAll_region st doc ps _ _ Hdata Hps Hmap (Hgiven _ Hne))
        as (allr & Hallr & Hfilt).
      exists allr. split; [exact Hr|]. split; [exact Hallr|].
      apply Hfilt. split.
      * unfold serviceNames. apply in_app_iff. left. subst s. now apply in_map.
      * apply In_regionIpv4. exists rec. subst s. auto.
  - (* IPv4, from a region to the merged list *)
    intros (r & allr & Hr & Hallr & Hp).
    destruct (String.string_dec r "") as [->|Hne].
    + rewrite Hempty in Hallr. injection Hallr as <-.
      rewrite E4 in Hp. now apply H4.
    + destruct (getAll_region st doc ps _ _ Hdata Hps Hmap (Hgiven _ Hne))
        as (allr' & Hallr' & Hfilt).
      rewrite Hallr in Hallr'. injection Hallr' as <-.
      apply Hfilt in Hp as [Hs Hp].
      apply In_regionIpv4 in Hp as (rec & Hrec & Hpre & Hsvc & _).
      exists rec. split; [exact Hrec|]. split; [|exact Hpre].
      now apply (proj1 (Hunique s Hs)).
  - (* IPv6, from the merged list to a region *)
    intros (rec & Hrec & Hs & Hp).
    assert (Hr : In (IPv6Prefix.region rec) (RegionsListResponse.regions regs)).
    { apply Hin_regs. right. eauto. }
    exists (IPv6Prefix.region rec).
    destruct (String.string_dec (IPv6Prefix.region rec) "") as [E|Hne].
    + exists all. rewrite E in *. split; [exact Hr|]. split; [exact Hempty|].
      rewrite E6. apply H6. eauto.
    + destruct (getAll_region st doc ps _ _ Hdata Hps Hmap (Hgiven _ Hne))
        as (allr & Hallr & Hfilt).
      exists allr. split; [exact Hr|]. split; [exact Hallr|].
      apply Hfilt. split.
      * unfold serviceNames. apply in_app_iff. right. subst s. now apply in_map.
      * apply In_regionIpv6. exists rec. subst s. auto.
  - (* IPv6, from a region to the merged list *)
    intros (r & allr & Hr & Hallr & Hp).
    destruct (String.string_dec r "") as [->|Hne].
    + rewrite Hempty in Hallr. injection Hallr as <-.
      rewrite E6 in Hp. now apply H6.
    + destruct (getAll_region st doc ps _ _ Hdata Hps Hmap (Hgiven _ Hne))
        as (allr' & Hallr' & Hfilt).
      rewrite Hallr in Hallr'. injection Hallr' as <-.
      apply Hfilt in Hp as [Hs Hp].
      apply In_regionIpv6 in Hp as (rec & Hrec & Hpre & Hsvc & _).
      exists rec. split; [exact Hrec|]. split; [|exact Hpre].
      now apply (proj2 (Hunique s Hs)).
Qed.

Lemma published_names_unique (s : string) :
  In s (serviceNames [Sample.ec2East; Sample.ec2West]
          (ipv6Records (Sample.document [Sample.ec2East; Sample.ec2West]
                          [Sample.cloudfront6]))) ->
  CaseUnique (Sample.document [Sample.ec2East; Sample.ec2West] [Sample.cloudfront6])
    [Sample.ec2East; Sample.ec2West] s.
Proof.
  simpl. intros [<-|[<-|[<-|[]]]]; split; intros rec Hin; simpl in Hin;
    repeat match goal with
           | H : _ \/ _ |- _ => destruct H
           | H : False |- _ => destruct H
           end; subst; simpl; intros H; try reflexivity; discriminate.
Qed.

Lemma all_services_is_union_over_regions_witness :
  exists all regs,
    IpRangesService.getAllServiceIpRanges Sample.published None = Return all /\
    IpRangesService.getRegions Sample.published = Return regs /\
    (In "1.2.3.0/24" (ipv4Of "EC2" all) <->
     exists r allr,
       In r (RegionsListResponse.regions regs) /\
       IpRangesService.getAllServiceIpRanges Sample.published (Some r) = Return allr /\
       In "1.2.3.0/24" (ipv4Of "EC2" allr)).
Proof.
  destruct (all_services_is_union_over_regions Sample.published
              (Sample.document [Sample.ec2East; Sample.ec2West] [Sample.cloudfront6])
              [Sample.ec2East; Sample.ec2West]
              Loaded_published eq_refl published_names_unique)
    as (all & regs & Hall & Hregs & _ & Hunion).
  exists all, regs. split; [exact Hall|]. split; [exact Hregs|].
  apply (Hunion "EC2" "1.2.3.0/24").
Defined.

(** C8, as stated, fails: with the service names "EC2" and "ec2" in one
    region, the answer without a region lists under "EC2" only the prefix
    of "EC2", while the answer for the region lists under "EC2" the
    prefixes of both. *)
Lemma case_variants_break_union :
  exists all regs allr,
    IpRangesService.getAllServiceIpRanges Sample.mixedCase None = Return all /\
    IpRangesService.getRegions Sample.mixedCase = Return regs /\
    In "us-east-1" (RegionsListResponse.regions regs) /\
    IpRangesService.getAllServiceIpRanges Sample.mixedCase (Some "us-east-1") =
      Return allr /\
    ipv4Of "EC2" all = ["1.2.3.0/24"] /\
    ipv4Of "EC2" allr = ["1.2.3.0/24"; "1.2.4.0/24"] /\
    ~ In "1.2.4.0/24" (ipv4Of "EC2" all).
Proof.
  eexists. eexists. eexists.
  split; [reflexivity|]. split; [reflexivity|]. split; [now left|].
  split; [reflexivity|]. split; [reflexivity|]. split; [reflexivity|].
  intros [H|[]]. discriminate.
Qed.

(* ===================================================================== *)
(** * Digits and numerals *)
(* ===================================================================== *)

Lemma decDigit_radix (c : ascii) (d : Z) :
  Literal.decDigit c = Some d ->
  radixDigit 10 c = Some d /\ 0 <= d < 10 /\ PlainChar c.
Proof.
  each_ascii c; vm_compute; intros H; try discriminate H;
    injection H as <-; repeat split; try reflexivity; discriminate.
Qed.

Lemma hexDigit_radix (c : ascii) (d : Z) :
  Literal.hexDigit c = Some d ->
  radixDigit 16 c = Some d /\ 0 <= d < 16 /\ PlainChar c.
Proof.
  each_ascii c; vm_compute; intros H; try discriminate H;
    injection H as <-; repeat split; try reflexivity; discriminate.
Qed.

Lemma stripSign_plain (c : ascii) (s : string) :
  c <> "-"%char -> c <> "+"%char -> stripSign (String c s) = (1, String c s).
Proof.
  intros H1 H2. each_ascii c; try reflexivity; contradiction.
Qed.

Lemma stripHexPrefix_plain (R : Z) (s : string) :
  Every PlainChar s -> stripHexPrefix R s = s.
Proof.
  unfold stripHexPrefix. destruct (R =? 16); [|reflexivity].
  destruct s as [|c1 [|c2 r]]; try reflexivity.
  - each_ascii c1; reflexivity.
  - intros (_ & (_ & _ & _ & Hx & HX & _) & _).
    each_ascii c1; try reflexivity; each_ascii c2; try reflexivity; contradiction.
Qed.

Lemma trimStart_plain (c : ascii) (s : string) :
  isWhiteSpace c = false -> trimStart (String c s) = String c s.
Proof. intros H. simpl. now rewrite H. Qed.

Section Numerals.

Variable digit : ascii -> option Z.
Variable R : Z.
Hypothesis R_pos : 1 < R.
Hypothesis digit_radix :
  forall c d, digit c = Some d -> radixDigit R c = Some d /\ 0 <= d < R /\ PlainChar c.

Lemma digitsOf_prefix (s : string) (ds : list Z) :
  Literal.digitsOf digit s = Some ds ->
  digitsPrefix R s = ds /\ Every PlainChar s /\
  List.length ds = String.length s /\ Forall (fun d => 0 <= d < R) ds.
Proof.
  revert ds. induction s as [|c s IH]; intros ds; simpl.
  - intros [= <-]. repeat split. constructor.
  - destruct (digit c) as [d|] eqn:Ec; [|discriminate].
    destruct (Literal.digitsOf digit s) as [ds'|]; [|discriminate].
    intros [= <-]. destruct (digit_radix c d Ec) as (Hr & Hd & Hp).
    destruct (IH ds' eq_refl) as (H1 & H2 & H3 & H4).
    rewrite Hr, H1. simpl. rewrite H3.
    split; [reflexivity|]. split; [split; assumption|].
    split; [reflexivity | constructor; assumption].
Qed.

Lemma digitsValue_positional (ds : list Z) :
  digitsValue R ds = Literal.positional R ds.
Proof.
  unfold digitsValue.
  assert (G : forall a,
             fold_left (fun acc d => acc * R + d) ds a =
             a * R ^ Z.of_nat (List.length ds) + Literal.positional R ds).
  { induction ds as [|d ds IH]; intros a; simpl Literal.positional;
      simpl fold_left.
    - simpl. lia.
    - rewrite IH. change (List.length (d :: ds)) with (S (List.length ds)).
      rewrite Nat2Z.inj_succ, Z.pow_succ_r by lia. ring. }
  rewrite G. lia.
Qed.

Lemma positional_bounds (ds : list Z) :
  Forall (fun d => 0 <= d < R) ds ->
  0 <= Literal.positional R ds < R ^ Z.of_nat (List.length ds).
Proof.
  induction 1 as [|d ds Hd _ IH]; simpl Literal.positional.
  - simpl. lia.
  - change (List.length (d :: ds)) with (S (List.length ds)).
    rewrite Nat2Z.inj_succ, Z.pow_succ_r by lia.
    assert (0 < R ^ Z.of_nat (List.length ds)) by (apply Z.pow_pos_nonneg; lia).
    nia.
Qed.

(** [parseInt] reads a numeral as its value. *)
Lemma parseInt_numeral (s : string) (v : Z) :
  Literal.numeral digit R s v ->
  parseInt s R = Num v /\ Every PlainChar s /\
  0 <= v < R ^ Z.of_nat (String.length s).
Proof.
  intros (Hne & ds & Hds & Hv).
  destruct (digitsOf_prefix s ds Hds) as (Hpre & Hplain & Hlen & Hrange).
  pose proof (positional_bounds ds Hrange) as Hb. rewrite Hlen, Hv in Hb.
  split; [|split; assumption].
  destruct s as [|c s]; [contradiction|].
  destruct Hplain as [Hc Hs]. pose proof Hc as (Hw & Hm & Hp & _).
  unfold parseInt. rewrite trimStart_plain by assumption.
  rewrite stripSign_plain by assumption.
  rewrite stripHexPrefix_plain by (split; assumption).
  rewrite Hpre. destruct ds as [|d ds]; [discriminate Hlen|].
  rewrite digitsValue_positional, Hv. f_equal. lia.
Qed.

End Numerals.

(* ===================================================================== *)
(** * Splitting and joining *)
(* ===================================================================== *)

Lemma Every_impl (P Q : ascii -> Prop) (s : string) :
  (forall c, P c -> Q c) -> Every P s -> Every Q s.
Proof.
  intros HPQ. induction s as [|c s IH]; simpl; [auto|].
  intros [Hc Hs]. split; auto.
Qed.

Lemma Every_append (P : ascii -> Prop) (a b : string) :
  Every P (String.append a b) <-> Every P a /\ Every P b.
Proof.
  induction a as [|c a IH]; simpl; [tauto | rewrite IH; tauto].
Qed.

Lemma Every_join (P : ascii -> Prop) (sep : string) (parts : list string) :
  Every P sep -> Forall (Every P) parts -> Every P (join sep parts).
Proof.
  intros Hsep Hparts. unfold join.
  induction Hparts as [|p parts Hp Hrest IH]; simpl; [exact I|].
  destruct parts as [|q parts]; [exact Hp|].
  apply Every_append. split; [exact Hp|].
  apply Every_append. split; [exact Hsep | exact IH].
Qed.

Lemma splitFrom_nonempty (sep : string) (skip : nat) (s : string) :
  splitFrom sep skip s <> [].
Proof.
  revert skip. induction s as [|c s IH]; intros skip; cbn [splitFrom];
    [discriminate|].
  destruct skip as [|k]; [|apply IH].
  destruct (String.prefix sep (String c s)); [discriminate|].
  destruct (splitFrom sep 0 s); discriminate.
Qed.

Section CharSeparator.

Variable c : ascii.

Lemma splitFrom_char_plain (s : string) :
  Every (fun x => x <> c) s -> splitFrom (String c EmptyString) 0 s = [s].
Proof.
  induction s as [|x s IH]; simpl; [reflexivity|].
  intros [Hx Hs]. destruct (ascii_dec c x) as [E|_]; [congruence|].
  now rewrite (IH Hs).
Qed.

Lemma splitFrom_char_cons (a b : string) :
  Every (fun x => x <> c) a ->
  splitFrom (String c EmptyString) 0 (String.append a (String c b)) = a :: splitFrom (String c EmptyString) 0 b.
Proof.
  induction a as [|x a IH]; simpl.
  - intros _. destruct (ascii_dec c c) as [_|N]; [|contradiction].
    now destruct b.
  - intros [Hx Ha]. destruct (ascii_dec c x) as [E|_]; [congruence|].
    now rewrite (IH Ha).
Qed.

Lemma split_join_char (parts : list string) :
  parts <> [] ->
  Forall (Every (fun x => x <> c)) parts ->
  split (String c EmptyString) (join (String c EmptyString) parts) = parts.
Proof.
  intros Hne Hparts. unfold split, join.
  induction Hparts as [|p parts Hp Hrest IH]; [contradiction|].
  destruct parts as [|q parts].
  - simpl. now apply splitFrom_char_plain.
  - change (String.concat (String c "") (p :: q :: parts))
      with (String.append p (String c (String.concat (String c "") (q :: parts)))).
    rewrite (splitFrom_char_cons p _ Hp). f_equal. apply IH. discriminate.
Qed.

End CharSeparator.

(** ** The [::] separator *)

Lemma prefix_nil (s : string) : String.prefix EmptyString s = true.
Proof. now destruct s. Qed.

Lemma prefix_cons (a b : ascii) (s t : string) :
  String.prefix (String a s) (String b t) =
  if Ascii.eqb a b then String.prefix s t else false.
Proof.
  cbn [String.prefix].
  destruct (ascii_dec a b) as [E|N]; destruct (Ascii.eqb_spec a b);
    congruence.
Qed.

Lemma prefix_colon_head (a t u : string) :
  String.prefix ":" (String.append a (String ":" t)) =
  String.prefix ":" (String.append a (String ":" u)).
Proof.
  destruct a as [|x a]; cbn [String.append]; now rewrite !prefix_cons, !prefix_nil.
Qed.

Lemma splitFrom_pair_plain (s : string) :
  includes "::" s = false -> splitFrom "::" 0 s = [s].
Proof.
  induction s as [|x s IH]; [reflexivity|].
  cbn [includes]. intros H. apply orb_false_iff in H as [Hp Hs].
  cbn [splitFrom]. rewrite Hp, (IH Hs). reflexivity.
Qed.

Lemma splitFrom_pair_cons (a b : string) :
  includes "::" (String.append a ":") = false ->
  splitFrom "::" 0 (String.append a (String.append "::" b)) =
  a :: splitFrom "::" 0 b.
Proof.
  change (String.append "::" b) with (String ":" (String ":" b)).
  induction a as [|x a IH].
  - intros _. cbn [String.append splitFrom].
    rewrite !prefix_cons, prefix_nil. reflexivity.
  - cbn [String.append includes]. intros H. apply orb_false_iff in H as [Hp Hs].
    cbn [splitFrom].
    assert (Hp' : String.prefix "::"
                    (String x (String.append a (String ":" (String ":" b)))) = false).
    { rewrite prefix_cons in *. destruct (Ascii.eqb ":" x); [|reflexivity].
      now rewrite (prefix_colon_head a (String ":" b) ""). }
    rewrite Hp', (IH Hs). reflexivity.
Qed.

Lemma includes_pair_group (g t : string) :
  Every PlainChar g ->
  includes "::" (String.append g t) = includes "::" t.
Proof.
  induction g as [|x g IH]; [reflexivity|].
  intros [Hx Hg]. cbn [String.append includes]. rewrite prefix_cons.
  destruct (Ascii.eqb_spec ":" x) as [E|_].
  - destruct Hx as (_ & _ & _ & _ & _ & _ & Hc & _). congruence.
  - now apply IH.
Qed.

Lemma includes_pair_colon (x : ascii) (t : string) :
  PlainChar x ->
  includes "::" (String ":" (String x t)) = includes "::" (String x t).
Proof.
  intros (_ & _ & _ & _ & _ & _ & Hc & _).
  cbn [includes]. rewrite !prefix_cons.
  destruct (Ascii.eqb_spec ":" x) as [E|_]; [congruence|].
  destruct (Ascii.eqb ":" ":"); reflexivity.
Qed.

Lemma includes_pair_join (gs : list string) (t : string) :
  Forall (fun g => g <> EmptyString /\ Every PlainChar g) gs ->
  includes "::" t = false ->
  gs = [] \/ includes "::" (String.append (join ":" gs) t) = false.
Proof.
  intros Hgs Ht. unfold join. induction Hgs as [|g gs [Hne Hg] Hrest IH].
  - now left.
  - right. destruct gs as [|g2 gs].
    + cbn [String.concat]. now rewrite includes_pair_group.
    + change (String.concat ":" (g :: g2 :: gs))
        with (String.append g (String ":" (String.concat ":" (g2 :: gs)))).
      rewrite append_assoc, includes_pair_group by assumption.
      cbn [String.append].
      inversion Hrest as [|? ? [Hne2 Hg2] _]; subst.
      destruct g2 as [|x g2]; [contradiction|].
      assert (Hhead : exists u,
                 String.append (String.concat ":" (String x g2 :: gs)) t = String x u).
      { destruct gs; cbn [String.concat String.append]; eauto. }
      destruct Hhead as [u Hu]. rewrite Hu, includes_pair_colon by apply Hg2.
      rewrite <- Hu. destruct IH as [IH|IH]; [discriminate | exact IH].
Qed.

(* ===================================================================== *)
(** * 32-bit arithmetic *)
(* ===================================================================== *)

Lemma wrapInt32_small (z : Z) : 0 <= z < 2 ^ 31 -> wrapInt32 z = z.
Proof.
  intros H. unfold wrapInt32. rewrite Z.mod_small; lia.
Qed.

Lemma toUint32_wrapInt32 (z : Z) : toUint32 (wrapInt32 z) = z mod 2 ^ 32.
Proof.
  unfold toUint32, wrapInt32.
  change (2 ^ 32) with 4294967296. change (2 ^ 31) with 2147483648.
  Z.div_mod_to_equations. lia.
Qed.

Lemma wrapInt32_cases (a : Z) :
  0 <= a < 2 ^ 32 ->
  (a < 2 ^ 31 /\ wrapInt32 a = a) \/ (2 ^ 31 <= a /\ wrapInt32 a = a - 2 ^ 32).
Proof.
  intros H. unfold wrapInt32.
  change (2 ^ 32) with 4294967296 in *. change (2 ^ 31) with 2147483648 in *.
  Z.div_mod_to_equations. lia.
Qed.

Lemma land_disjoint (hi lo k : Z) :
  0 <= k -> 0 <= lo < 2 ^ k -> Z.land (hi * 2 ^ k) lo = 0.
Proof.
  intros Hk Hlo. apply Z.bits_inj'. intros n Hn.
  rewrite Z.land_spec, Z.bits_0.
  destruct (Z.lt_ge_cases n k) as [Hlt|Hge].
  - now rewrite Z.mul_pow2_bits_low by lia.
  - rewrite <- (Z.mod_small lo (2 ^ k)) by lia.
    rewrite Z.mod_pow2_bits_high by lia. apply andb_false_r.
Qed.

Lemma lor_disjoint (hi lo k : Z) :
  0 <= k -> 0 <= lo < 2 ^ k -> Z.lor (hi * 2 ^ k) lo = hi * 2 ^ k + lo.
Proof.
  intros Hk Hlo. pose proof (land_disjoint hi lo k Hk Hlo) as H.
  rewrite <- Z.lxor_lor by exact H. symmetry. now apply Z.add_nocarry_lxor.
Qed.

Lemma pack_octets (v1 v2 v3 v4 : Z) :
  0 <= v1 <= 255 -> 0 <= v2 <= 255 -> 0 <= v3 <= 255 -> 0 <= v4 <= 255 ->
  toUint32
    (bor (bor (bor (shl (Num v1) 24) (shl (Num v2) 16)) (shl (Num v3) 8))
         (toInt32 (Num v4))) =
  v1 * 2 ^ 24 + v2 * 2 ^ 16 + v3 * 2 ^ 8 + v4.
Proof.
  intros H1 H2 H3 H4. unfold shl, bor, toInt32.
  change (24 mod 32) with 24. change (16 mod 32) with 16. change (8 mod 32) with 8.
  assert (E31 : 2 ^ 31 = 2147483648) by reflexivity.
  assert (E32 : 2 ^ 32 = 4294967296) by reflexivity.
  assert (E24 : 2 ^ 24 = 16777216) by reflexivity.
  assert (E16 : 2 ^ 16 = 65536) by reflexivity.
  assert (E8 : 2 ^ 8 = 256) by reflexivity.
  rewrite (wrapInt32_small v1), (wrapInt32_small v2), (wrapInt32_small v3),
    (wrapInt32_small v4) by lia.
  rewrite !Z.shiftl_mul_pow2 by lia.
  rewrite (wrapInt32_small (v2 * 2 ^ 16)) by lia.
  rewrite (wrapInt32_small (v3 * 2 ^ 8)) by lia.
  unfold toUint32. rewrite <- !Z.land_ones by lia.
  rewrite !Z.land_lor_distr_l. rewrite !Z.land_ones by lia.
  fold (toUint32 (wrapInt32 (v1 * 2 ^ 24))). rewrite toUint32_wrapInt32.
  rewrite !Z.mod_small by lia.
  rewrite (lor_disjoint v1 (v2 * 2 ^ 16) 24) by lia.
  replace (v1 * 2 ^ 24 + v2 * 2 ^ 16) with ((v1 * 2 ^ 8 + v2) * 2 ^ 16) by lia.
  rewrite (lor_disjoint _ (v3 * 2 ^ 8) 16) by lia.
  replace ((v1 * 2 ^ 8 + v2) * 2 ^ 16 + v3 * 2 ^ 8)
    with ((v1 * 2 ^ 16 + v2 * 2 ^ 8 + v3) * 2 ^ 8) by lia.
  rewrite (lor_disjoint _ v4 8) by lia. lia.
Qed.

Lemma shiftr_wrapInt32 (a c k : Z) :
  0 <= a < 2 ^ 32 -> 0 <= c < 2 ^ 32 -> 0 <= k < 32 ->
  (wrapInt32 a / 2 ^ k = wrapInt32 c / 2 ^ k <-> a / 2 ^ k = c / 2 ^ k).
Proof.
  intros Ha Hc Hk.
  assert (Hsplit : 2 ^ 32 = 2 ^ (32 - k) * 2 ^ k).
  { rewrite <- Z.pow_add_r by lia. f_equal. lia. }
  assert (Hhalf : 2 ^ 31 = 2 ^ (31 - k) * 2 ^ k).
  { rewrite <- Z.pow_add_r by lia. f_equal. lia. }
  assert (Hdouble : 2 ^ (32 - k) = 2 * 2 ^ (31 - k)).
  { rewrite <- Z.pow_succ_r by lia. f_equal. lia. }
  assert (HP : 0 < 2 ^ k) by (apply Z.pow_pos_nonneg; lia).
  assert (HQ : 0 < 2 ^ (31 - k)) by (apply Z.pow_pos_nonneg; lia).
  assert (Hdiv : forall x, (x - 2 ^ 32) / 2 ^ k = x / 2 ^ k - 2 ^ (32 - k)).
  { intros x. rewrite Hsplit.
    replace (x - 2 ^ (32 - k) * 2 ^ k) with (x + (- 2 ^ (32 - k)) * 2 ^ k) by lia.
    rewrite Z.div_add by lia. lia. }
  assert (Hlow : forall x, 0 <= x < 2 ^ 31 -> 0 <= x / 2 ^ k < 2 ^ (31 - k)).
  { intros x Hx. split; [apply Z.div_pos; lia|].
    apply Z.div_lt_upper_bound; lia. }
  assert (Hhigh : forall x, 2 ^ 31 <= x < 2 ^ 32 ->
                            2 ^ (31 - k) <= x / 2 ^ k < 2 ^ (32 - k)).
  { intros x Hx. split.
    - apply Z.div_le_lower_bound; lia.
    - apply Z.div_lt_upper_bound; lia. }
  destruct (wrapInt32_cases a Ha) as [[La ->]|[La ->]];
    destruct (wrapInt32_cases c Hc) as [[Lc ->]|[Lc ->]];
    rewrite ?Hdiv.
  - tauto.
  - pose proof (Hlow a ltac:(lia)). pose proof (Hhigh c ltac:(lia)). lia.
  - pose proof (Hhigh a ltac:(lia)). pose proof (Hlow c ltac:(lia)). lia.
  - lia.
Qed.

Lemma mask_compare (a c p : Z) :
  0 <= a < 2 ^ 32 -> 0 <= c < 2 ^ 32 -> 0 <= p <= 32 ->
  (band (wrapInt32 a) (notPow2Minus1 (32 - p)) =?
   band (wrapInt32 c) (notPow2Minus1 (32 - p))) = true <->
  Z.shiftr a (32 - p) = Z.shiftr c (32 - p).
Proof.
  intros Ha Hc Hp. rewrite Z.eqb_eq. rewrite !Z.shiftr_div_pow2 by lia.
  unfold notPow2Minus1, band.
  destruct (Z.ltb_spec (32 - p) (-53)); [lia|].
  destruct (Z.ltb_spec (32 - p) 0); [lia|].
  destruct (Z.ltb_spec (32 - p) 32) as [Hlt|Hge].
  - rewrite <- (shiftr_wrapInt32 a c (32 - p)) by lia.
    replace (2 ^ (32 - p) - 1) with (Z.ones (32 - p))
      by (rewrite Z.ones_equiv; lia).
    rewrite <- !Z.ldiff_land, !Z.ldiff_ones_r by lia.
    rewrite !Z.shiftl_mul_pow2, !Z.shiftr_div_pow2 by lia.
    assert (0 < 2 ^ (32 - p)) by (apply Z.pow_pos_nonneg; lia).
    split; [intros E; nia | intros ->; reflexivity].
  - destruct (Z.ltb_spec (32 - p) 54); [|lia].
    replace (32 - p) with 32 by lia.
    rewrite !Z.land_0_r, !Z.div_small by lia. tauto.
Qed.

(* ===================================================================== *)
(** * IPv4 containment *)
(* ===================================================================== *)

Lemma PlainChar_not (c x : ascii) :
  PlainChar x -> (c = "."%char \/ c = ":"%char \/ c = "/"%char) -> x <> c.
Proof.
  intros (_ & _ & _ & _ & _ & Hd & Hc & Hs) [->|[->| ->]]; assumption.
Qed.

Lemma Every_plain_not (c : ascii) (s : string) :
  (c = "."%char \/ c = ":"%char \/ c = "/"%char) ->
  Every PlainChar s -> Every (fun x => x <> c) s.
Proof.
  intros Hc. apply Every_impl. intros x Hx. now apply PlainChar_not.
Qed.

Lemma Octet_parse (o : string) (v : Z) :
  Literal.Octet o v ->
  parseInt o 10 = Num v /\ Every PlainChar o /\ 0 <= v <= 255.
Proof.
  intros [Hnum Hmax].
  destruct (parseInt_numeral Literal.decDigit 10 ltac:(lia) decDigit_radix o v Hnum)
    as (Hparse & Hplain & Hrange).
  repeat split; try assumption; lia.
Qed.

Lemma ipv4ToNumber_text (s : string) (a : Z) :
  Literal.Ipv4Text s a ->
  ipv4ToNumber s = a /\ 0 <= a < 2 ^ 32 /\ Every (fun x => x <> "/"%char) s.
Proof.
  intros H. destruct H as [o1 o2 o3 o4 v1 v2 v3 v4 H1 H2 H3 H4].
  destruct (Octet_parse o1 v1 H1) as (P1 & C1 & R1).
  destruct (Octet_parse o2 v2 H2) as (P2 & C2 & R2).
  destruct (Octet_parse o3 v3 H3) as (P3 & C3 & R3).
  destruct (Octet_parse o4 v4 H4) as (P4 & C4 & R4).
  split; [|split].
  - unfold ipv4ToNumber.
    rewrite (split_join_char "." [o1; o2; o3; o4]).
    + cbn [map nth]. rewrite P1, P2, P3, P4. now apply pack_octets.
    + discriminate.
    + repeat constructor; apply (Every_plain_not "."); auto.
  - assert (E : 2 ^ 32 = 4294967296) by reflexivity.
    assert (E24 : 2 ^ 24 = 16777216) by reflexivity.
    assert (E16 : 2 ^ 16 = 65536) by reflexivity.
    assert (E8 : 2 ^ 8 = 256) by reflexivity.
    lia.
  - apply Every_join.
    + split; [discriminate | exact I].
    + repeat constructor; apply (Every_plain_not "/"); auto.
Qed.

Lemma cidr_split (a bits : string) :
  Every (fun x => x <> "/"%char) a ->
  Every (fun x => x <> "/"%char) bits ->
  cidrRange (String.append a (String "/" bits)) = a /\
  cidrBits (String.append a (String "/" bits)) = Some bits.
Proof.
  intros Ha Hb. unfold cidrRange, cidrBits. cbn [split].
  rewrite (splitFrom_char_cons "/" a bits Ha), (splitFrom_char_plain "/" bits Hb).
  split; reflexivity.
Qed.

Lemma prefix_length_parse (bits : string) (len : Z) :
  Literal.numeral Literal.decDigit 10 bits len ->
  parseIntOpt (Some bits) 10 = Num len /\
  Every (fun x => x <> "/"%char) bits /\ 0 <= len.
Proof.
  intros Hnum.
  destruct (parseInt_numeral Literal.decDigit 10 ltac:(lia) decDigit_radix bits len Hnum)
    as (Hparse & Hplain & Hrange).
  split; [exact Hparse|]. split; [|lia].
  apply (Every_plain_not "/"); auto.
Qed.

Lemma isIpv4InCidr_top_bits (ip cidr : string) (a base len : Z) :
  Literal.Ipv4Text ip a ->
  Literal.CidrText Literal.Ipv4Text 32 cidr base len ->
  (isIpv4InCidr ip cidr = true <-> Literal.sameTopBits 32 len a base).
Proof.
  intros Hip Hcidr. destruct Hcidr as [r bits base len Hr Hbits Hlen].
  destruct (ipv4ToNumber_text ip a Hip) as (Ea & Ra & _).
  destruct (ipv4ToNumber_text r base Hr) as (Eb & Rb & Sb).
  destruct (prefix_length_parse bits len Hbits) as (Ep & Sp & Hpos).
  destruct (cidr_split r bits Sb Sp) as [Er Ebits].
  unfold isIpv4InCidr, cidrMask. rewrite Er, Ebits, Ep, Ea, Eb.
  unfold Literal.sameTopBits. apply mask_compare; lia.
Qed.

(* ===================================================================== *)
(** * Binary digit strings *)
(* ===================================================================== *)

Lemma length_binaryBE (w : nat) (v : Z) : String.length (binaryBE w v) = w.
Proof.
  revert v. induction w as [|w IH]; intros v; [reflexivity|].
  cbn [binaryBE]. rewrite length_append, IH. destruct (Z.odd v); simpl; lia.
Qed.

Lemma length_repeatChar (c : ascii) (n : nat) : String.length (repeatChar c n) = n.
Proof. induction n as [|n IH]; simpl; [reflexivity | now rewrite IH]. Qed.

Lemma repeatChar_snoc (c : ascii) (n : nat) :
  String.append (repeatChar c n) (String c EmptyString) = String c (repeatChar c n).
Proof. induction n as [|n IH]; simpl; [reflexivity | now rewrite IH]. Qed.

Lemma binaryBE_zero (w : nat) : binaryBE w 0 = repeatChar "0" w.
Proof.
  induction w as [|w IH]; [reflexivity|].
  cbn [binaryBE]. change (0 / 2) with 0. rewrite IH.
  change (if Z.odd 0 then "1"%string else "0"%string) with "0"%string.
  apply repeatChar_snoc.
Qed.

Lemma padStart_snoc (w : nat) (c : ascii) (s t : string) :
  String.length t = 1%nat ->
  padStart (S w) c (String.append s t) = String.append (padStart w c s) t.
Proof.
  intros Ht. unfold padStart. rewrite length_append, Ht, append_assoc.
  replace (S w - (String.length s + 1))%nat with (w - String.length s)%nat by lia.
  reflexivity.
Qed.

Lemma padStart_posToBinary (p : positive) :
  forall w : nat,
    Z.pos p < 2 ^ Z.of_nat w ->
    padStart w "0" (posToBinary p) = binaryBE w (Z.pos p).
Proof.
  induction p as [q IH|q IH|]; intros w Hw.
  - destruct w as [|w]; [simpl in Hw; lia|].
    cbn [posToBinary binaryBE]. rewrite padStart_snoc by reflexivity.
    rewrite Nat2Z.inj_succ, Z.pow_succ_r in Hw by lia.
    rewrite IH by lia.
    replace (Z.pos q~1 / 2) with (Z.pos q)
      by (rewrite Pos2Z.inj_xI; Z.div_mod_to_equations; lia).
    reflexivity.
  - destruct w as [|w]; [simpl in Hw; lia|].
    cbn [posToBinary binaryBE]. rewrite padStart_snoc by reflexivity.
    rewrite Nat2Z.inj_succ, Z.pow_succ_r in Hw by lia.
    rewrite IH by lia.
    replace (Z.pos q~0 / 2) with (Z.pos q)
      by (rewrite Pos2Z.inj_xO; Z.div_mod_to_equations; lia).
    reflexivity.
  - destruct w as [|w]; [simpl in Hw; lia|].
    cbn [posToBinary binaryBE]. change (1 / 2) with 0. rewrite binaryBE_zero.
    unfold padStart. cbn [String.length]. replace (S w - 1)%nat with w by lia.
    reflexivity.
Qed.

Lemma padStart_toBinaryString (w : nat) (v : Z) :
  0 <= v < 2 ^ Z.of_nat (S w) ->
  padStart (S w) "0" (toBinaryString (Num v)) = binaryBE (S w) v.
Proof.
  intros Hv. destruct v as [|p|p]; [|now apply padStart_posToBinary|lia].
  rewrite binaryBE_zero. unfold padStart, toBinaryString. cbn [String.length].
  replace (S w - 1)%nat with w by lia.
  cbn [repeatChar]. now rewrite repeatChar_snoc.
Qed.

Lemma binaryBE_append (a b : nat) (x y : Z) :
  0 <= y < 2 ^ Z.of_nat b ->
  binaryBE (a + b) (x * 2 ^ Z.of_nat b + y) =
  String.append (binaryBE a x) (binaryBE b y).
Proof.
  revert y. induction b as [|b IH]; intros y Hy.
  - simpl in Hy. replace y with 0 by lia.
    rewrite Nat.add_0_r, append_nil_r. f_equal. simpl. lia.
  - rewrite Nat.add_succ_r. cbn [binaryBE].
    rewrite Nat2Z.inj_succ, Z.pow_succ_r in * by lia.
    replace ((x * (2 * 2 ^ Z.of_nat b) + y) / 2) with (x * 2 ^ Z.of_nat b + y / 2).
    2:{ Z.div_mod_to_equations. lia. }
    rewrite IH.
    2:{ pose proof (Z.div_mod y 2). pose proof (Z.mod_pos_bound y 2). lia. }
    rewrite append_assoc. f_equal. f_equal.
    replace (x * (2 * 2 ^ Z.of_nat b) + y) with (y + 2 * (x * 2 ^ Z.of_nat b)) by lia.
    now rewrite Z.odd_add_mul_2.
Qed.

Lemma append_inj_length (a a' b b' : string) :
  String.length a = String.length a' ->
  String.append a b = String.append a' b' -> a = a' /\ b = b'.
Proof.
  revert a'. induction a as [|x a IH]; intros [|x' a']; simpl; try discriminate.
  - auto.
  - intros [= Hl] [= -> H]. destruct (IH a' Hl H) as [-> ->]. auto.
Qed.

Lemma binaryBE_inj (w : nat) (x y : Z) :
  0 <= x < 2 ^ Z.of_nat w -> 0 <= y < 2 ^ Z.of_nat w ->
  binaryBE w x = binaryBE w y -> x = y.
Proof.
  revert x y. induction w as [|w IH]; intros x y Hx Hy.
  - simpl in *. lia.
  - cbn [binaryBE]. intros H.
    rewrite Nat2Z.inj_succ, Z.pow_succ_r in * by lia.
    apply append_inj_length in H as [H1 H2];
      [|now rewrite !length_binaryBE].
    apply IH in H1.
    + assert (Z.odd x = Z.odd y).
      { destruct (Z.odd x), (Z.odd y); try reflexivity; discriminate. }
      pose proof (Z.div_mod x 2). pose proof (Z.div_mod y 2).
      rewrite (Zmod_odd x), (Zmod_odd y) in *. destruct (Z.odd x), (Z.odd y); try discriminate; lia.
    + pose proof (Z.div_mod x 2). pose proof (Z.mod_pos_bound x 2). lia.
    + pose proof (Z.div_mod y 2). pose proof (Z.mod_pos_bound y 2). lia.
Qed.

Lemma substring_append (s t : string) :
  String.substring 0 (String.length s) (String.append s t) = s.
Proof.
  induction s as [|c s IH]; simpl.
  - now destruct t.
  - now rewrite IH.
Qed.

(** The first [n] characters of the [w]-bit string of [v]. *)
Lemma substring_binaryBE (w n : nat) (v : Z) :
  (n <= w)%nat -> 0 <= v < 2 ^ Z.of_nat w ->
  String.substring 0 n (binaryBE w v) = binaryBE n (v / 2 ^ Z.of_nat (w - n)).
Proof.
  intros Hn Hv.
  assert (Hpos : 0 < 2 ^ Z.of_nat (w - n)) by (apply Z.pow_pos_nonneg; lia).
  replace w with (n + (w - n))%nat at 1 by lia.
  rewrite (Z.div_mod v (2 ^ Z.of_nat (w - n))) at 1 by lia.
  rewrite (Z.mul_comm (2 ^ Z.of_nat (w - n))).
  rewrite binaryBE_append by (apply Z.mod_pos_bound; lia).
  rewrite <- (length_binaryBE n (v / 2 ^ Z.of_nat (w - n))) at 1.
  apply substring_append.
Qed.

(* ===================================================================== *)
(** * IPv6 containment *)
(* ===================================================================== *)

Lemma numeral_leading_zero (s : string) (v : Z) :
  Literal.numeral Literal.hexDigit 16 s v ->
  Literal.numeral Literal.hexDigit 16 (String "0" s) v.
Proof.
  intros (_ & ds & Hds & Hv). split; [discriminate|].
  exists (0 :: ds). split.
  - cbn [Literal.digitsOf]. rewrite Hds. reflexivity.
  - cbn [Literal.positional]. lia.
Qed.

Lemma numeral_padded (k : nat) (s : string) (v : Z) :
  Literal.numeral Literal.hexDigit 16 s v ->
  Literal.numeral Literal.hexDigit 16 (String.append (repeatChar "0" k) s) v.
Proof.
  intros H. induction k as [|k IH]; [exact H|].
  cbn [repeatChar String.append]. now apply numeral_leading_zero.
Qed.

Lemma HexGroup_parse (g : string) (v : Z) :
  Literal.HexGroup g v ->
  g <> EmptyString /\ Every PlainChar g /\ 0 <= v < 2 ^ 16 /\
  parseInt (padStart 4 "0" g) 16 = Num v /\
  Every PlainChar (padStart 4 "0" g).
Proof.
  intros [Hnum Hlen].
  destruct (parseInt_numeral Literal.hexDigit 16 ltac:(lia) hexDigit_radix g v Hnum)
    as (_ & Hplain & Hrange).
  pose proof (numeral_padded (4 - String.length g) g v Hnum) as Hpad.
  destruct (parseInt_numeral Literal.hexDigit 16 ltac:(lia) hexDigit_radix _ v Hpad)
    as (Hparse & Hplain' & _).
  split; [apply Hnum|]. split; [exact Hplain|]. split; [|split; assumption].
  split; [lia|].
  apply Z.lt_le_trans with (16 ^ Z.of_nat (String.length g)); [lia|].
  change (2 ^ 16) with (16 ^ 4). apply Z.pow_le_mono_r; lia.
Qed.

Lemma HexGroup_zero : Literal.HexGroup "0000" 0.
Proof.
  split; [|simpl; lia]. split; [discriminate|]. exists [0; 0; 0; 0]. split; reflexivity.
Qed.

Lemma HexGroups_plain (gs : list string) (vs : list Z) :
  Forall2 Literal.HexGroup gs vs ->
  Forall (fun g => g <> EmptyString /\ Every PlainChar g) gs.
Proof.
  induction 1 as [|g v gs vs Hg _ IH]; constructor; [|exact IH].
  destruct (HexGroup_parse g v Hg) as (H1 & H2 & _). now split.
Qed.

Lemma join_nonempty (sep g : string) (gs : list string) :
  g <> EmptyString -> join sep (g :: gs) <> EmptyString.
Proof.
  intros Hg. unfold join. destruct g as [|c g]; [contradiction|].
  destruct gs; cbn [String.concat String.append]; discriminate.
Qed.

Lemma splitSide_join (gs : list string) (vs : list Z) :
  Forall2 Literal.HexGroup gs vs -> splitSide (Some (join ":" gs)) = gs.
Proof.
  intros H. pose proof (HexGroups_plain gs vs H) as Hplain.
  unfold splitSide. destruct gs as [|g gs]; [reflexivity|].
  inversion Hplain as [|? ? [Hne _] _]; subst.
  destruct (String.eqb_spec (join ":" (g :: gs)) "") as [E|_].
  - now apply join_nonempty in E.
  - apply (split_join_char ":"); [discriminate|].
    eapply Forall_impl; [|exact Hplain].
    intros s [_ Hs]. apply (Every_plain_not ":"); auto.
Qed.

Lemma Forall2_repeat_zero (n : nat) :
  Forall2 Literal.HexGroup (repeat "0000"%string n) (repeat 0 n).
Proof.
  induction n as [|n IH]; simpl; constructor; [apply HexGroup_zero | exact IH].
Qed.

Lemma Ipv6Text_no_slash (s : string) (a : Z) :
  Literal.Ipv6Text s a -> Every (fun x => x <> "/"%char) s.
Proof.
  assert (Hgroups : forall gs vs,
             Forall2 Literal.HexGroup gs vs ->
             Every (fun x => x <> "/"%char) (join ":" gs)).
  { intros gs vs H. apply Every_join; [split; [discriminate | exact I]|].
    eapply Forall_impl; [|exact (HexGroups_plain gs vs H)].
    intros g [_ Hg]. apply (Every_plain_not "/"); auto. }
  intros H. destruct H as [gs vs _ Hgs|l r vl vr _ Hl Hr].
  - now apply (Hgroups gs vs).
  - apply Every_append. split; [now apply (Hgroups l vl)|].
    change (String.append "::" (join ":" r)) with (String ":" (String ":" (join ":" r))).
    split; [discriminate|]. split; [discriminate|]. now apply (Hgroups r vr).
Qed.

(** [expandIpv6] spells out the eight groups of a literal. *)
Lemma expandIpv6_text (s : string) (a : Z) :
  Literal.Ipv6Text s a ->
  exists gs vs,
    expandIpv6 s = Return (join ":" (map (padStart 4 "0") gs)) /\
    Forall2 Literal.HexGroup gs vs /\
    List.length gs = 8%nat /\
    a = Literal.groupsValue vs.
Proof.
  intros H. destruct H as [gs vs Hlen Hgs|l r vl vr Hlen Hl Hr].
  - exists gs, vs. repeat split; try assumption.
    pose proof (HexGroups_plain gs vs Hgs) as Hplain.
    unfold expandIpv6.
    destruct (includes_pair_join gs "" Hplain eq_refl) as [->|Hinc];
      [discriminate Hlen|].
    rewrite append_nil_r in Hinc. rewrite Hinc.
    rewrite (split_join_char ":" gs); [reflexivity | |].
    + intros ->. discriminate Hlen.
    + eapply Forall_impl; [|exact Hplain].
      intros g [_ Hg]. apply (Every_plain_not ":"); auto.
  - pose proof (HexGroups_plain l vl Hl) as Pl.
    pose proof (HexGroups_plain r vr Hr) as Pr.
    exists (l ++ repeat "0000"%string (8 - List.length l - List.length r) ++ r),
           (vl ++ repeat 0 (8 - List.length l - List.length r) ++ vr).
    split; [|split; [|split]].
    + unfold expandIpv6. rewrite includes_middle.
      assert (Hleft : includes "::" (String.append (join ":" l) ":") = false).
      { destruct (includes_pair_join l ":" Pl eq_refl) as [->|E];
          [reflexivity | exact E]. }
      assert (Hright : includes "::" (join ":" r) = false).
      { destruct (includes_pair_join r "" Pr eq_refl) as [->|E]; [reflexivity|].
        now rewrite append_nil_r in E. }
      cbn [split]. rewrite (splitFrom_pair_cons _ _ Hleft).
      rewrite (splitFrom_pair_plain _ Hright).
      cbn [nth_error]. rewrite (splitSide_join l vl Hl), (splitSide_join r vr Hr).
      destruct (Z.ltb_spec (8 - Z.of_nat (List.length l) - Z.of_nat (List.length r)) 0);
        [lia|].
      replace (Z.to_nat (8 - Z.of_nat (List.length l) - Z.of_nat (List.length r)))
        with (8 - List.length l - List.length r)%nat by lia.
      reflexivity.
    + apply Forall2_app; [exact Hl|].
      apply Forall2_app; [apply Forall2_repeat_zero | exact Hr].
    + rewrite !length_app, repeat_length. lia.
    + reflexivity.
Qed.

Lemma join_empty_sep (l : list string) :
  join "" l = fold_right String.append EmptyString l.
Proof.
  unfold join. induction l as [|x l IH]; [reflexivity|].
  destruct l as [|y l].
  - cbn [String.concat fold_right]. now rewrite append_nil_r.
  - change (String.concat "" (x :: y :: l))
      with (String.append x (String.concat "" (y :: l))).
    now rewrite IH.
Qed.

Lemma groups_binary (vs : list Z) :
  Forall (fun v => 0 <= v < 2 ^ 16) vs ->
  forall (wa : nat) (acc : Z),
    0 <= acc < 2 ^ Z.of_nat wa ->
    binaryBE (wa + 16 * List.length vs)
      (fold_left (fun acc g => acc * 2 ^ 16 + g) vs acc) =
    String.append (binaryBE wa acc)
      (fold_right String.append EmptyString (map (binaryBE 16) vs)) /\
    0 <= fold_left (fun acc g => acc * 2 ^ 16 + g) vs acc
      < 2 ^ Z.of_nat (wa + 16 * List.length vs).
Proof.
  induction 1 as [|v vs Hv _ IH]; intros wa acc Hacc.
  - cbn [fold_left map fold_right List.length]. rewrite Nat.mul_0_r, Nat.add_0_r.
    now rewrite append_nil_r.
  - cbn [fold_left map fold_right List.length].
    assert (Hnext : 0 <= acc * 2 ^ 16 + v < 2 ^ Z.of_nat (wa + 16)).
    { rewrite Nat2Z.inj_add, Z.pow_add_r by lia.
      change (2 ^ Z.of_nat 16) with (2 ^ 16). nia. }
    destruct (IH (wa + 16)%nat (acc * 2 ^ 16 + v) Hnext) as [E B].
    replace (wa + 16 * S (List.length vs))%nat
      with (wa + 16 + 16 * List.length vs)%nat by lia.
    split; [|exact B].
    rewrite E. change (2 ^ 16) with (2 ^ Z.of_nat 16).
    rewrite binaryBE_append by exact Hv. apply append_assoc.
Qed.

Lemma binary_groups (gs : list string) (vs : list Z) :
  Forall2 Literal.HexGroup gs vs ->
  map (fun hex => padStart 16 "0" (toBinaryString (parseInt hex 16)))
      (map (padStart 4 "0") gs) = map (binaryBE 16) vs /\
  Forall (fun v => 0 <= v < 2 ^ 16) vs /\
  Forall (Every (fun x => x <> ":"%char)) (map (padStart 4 "0") gs).
Proof.
  induction 1 as [|g v gs vs Hg _ IH]; cbn [map].
  - repeat split; constructor.
  - destruct (HexGroup_parse g v Hg) as (_ & _ & Hv & Hparse & Hplain).
    destruct IH as (E & B & P). rewrite Hparse, E.
    rewrite (padStart_toBinaryString 15 v) by exact Hv.
    repeat split; constructor; try assumption.
    apply (Every_plain_not ":"); auto.
Qed.

(** [ipv6ToBinary] of the expanded text is the 128-bit string of the
    address. *)
Lemma ipv6ToBinary_groups (gs : list string) (vs : list Z) :
  Forall2 Literal.HexGroup gs vs ->
  List.length gs = 8%nat ->
  ipv6ToBinary (join ":" (map (padStart 4 "0") gs)) =
    binaryBE 128 (Literal.groupsValue vs) /\
  0 <= Literal.groupsValue vs < 2 ^ 128.
Proof.
  intros Hgs Hlen. destruct (binary_groups gs vs Hgs) as (E & B & P).
  assert (Hvs : List.length vs = 8%nat).
  { rewrite <- Hlen. symmetry. eapply Forall2_length. exact Hgs. }
  destruct (groups_binary vs B 0 0 ltac:(simpl; lia)) as [Ebin Hrange].
  rewrite Hvs in Ebin, Hrange. cbn [Nat.add binaryBE String.append] in Ebin.
  change (0 + 16 * 8)%nat with 128%nat in Ebin, Hrange.
  change (Z.of_nat 128) with 128 in Hrange.
  split; [|exact Hrange].
  unfold ipv6ToBinary. rewrite (split_join_char ":"); [| |exact P].
  - rewrite E, join_empty_sep. symmetry. exact Ebin.
  - destruct gs; [discriminate Hlen | discriminate].
Qed.

Lemma isIpv6InCidr_top_bits (ip cidr : string) (a base len : Z) :
  Literal.Ipv6Text ip a ->
  Literal.CidrText Literal.Ipv6Text 128 cidr base len ->
  exists inside,
    isIpv6InCidr ip cidr = Return inside /\
    (inside = true <-> Literal.sameTopBits 128 len a base).
Proof.
  intros Hip Hcidr. destruct Hcidr as [r bits base len Hr Hbits Hlen].
  destruct (prefix_length_parse bits len Hbits) as (Ep & Sp & Hpos).
  destruct (cidr_split r bits (Ipv6Text_no_slash r base Hr) Sp) as [Er Ebits].
  destruct (expandIpv6_text ip a Hip) as (gi & vi & Xi & Gi & Li & ->).
  destruct (expandIpv6_text r base Hr) as (gr & vr & Xr & Gr & Lr & ->).
  destruct (ipv6ToBinary_groups gi vi Gi Li) as [Bi Ri].
  destruct (ipv6ToBinary_groups gr vr Gr Lr) as [Br Rr].
  unfold isIpv6InCidr. rewrite Er, Ebits, Ep, Xi. cbn [rbind]. rewrite Xr. cbn [rbind].
  rewrite Bi, Br. eexists. split; [reflexivity|].
  unfold substring0, Literal.sameTopBits.
  rewrite !(substring_binaryBE 128 (Z.to_nat len)) by (try exact Ri; try exact Rr; lia).
  replace (Z.of_nat (128 - Z.to_nat len)) with (128 - len) by lia.
  rewrite !Z.shiftr_div_pow2 by lia.
  rewrite String.eqb_eq. split; [|intros ->; reflexivity].
  assert (Hpow : 0 < 2 ^ (128 - len)) by (apply Z.pow_pos_nonneg; lia).
  assert (Hsplit : 2 ^ 128 = 2 ^ (128 - len) * 2 ^ Z.of_nat (Z.to_nat len)).
  { rewrite <- Z.pow_add_r by lia. f_equal. lia. }
  apply binaryBE_inj.
  - split; [apply Z.div_pos; lia|]. apply Z.div_lt_upper_bound; lia.
  - split; [apply Z.div_pos; lia|]. apply Z.div_lt_upper_bound; lia.
Qed.

(* ===================================================================== *)
(** * The search does not validate *)
(* ===================================================================== *)









(* ===================================================================== *)
(** * Containment and the top bits *)
(* ===================================================================== *)

Lemma sample_address4 : Literal.Ipv4Text "1.2.3.133" 16909189.
Proof.
  apply (Literal.Ipv4Dotted "1" "2" "3" "133" 1 2 3 133);
    (split; [split; [discriminate | eexists; split; reflexivity] | lia]).
Qed.

Lemma sample_cidr4 : Literal.CidrText Literal.Ipv4Text 32 "1.2.3.200/25" 16909256 25.
Proof.
  apply (Literal.CidrSlash Literal.Ipv4Text 32 "1.2.3.200" "25" 16909256 25).
  - apply (Literal.Ipv4Dotted "1" "2" "3" "200" 1 2 3 200);
      (split; [split; [discriminate | eexists; split; reflexivity] | lia]).
  - split; [discriminate | eexists; split; reflexivity].
  - lia.
Qed.

Lemma sample_address6 :
  Literal.Ipv6Text "2600:9000:5207:1::5"
    (Literal.groupsValue [9728; 36864; 20999; 1; 0; 0; 0; 5]).
Proof.
  apply (Literal.Ipv6Compressed ["2600"; "9000"; "5207"; "1"] ["5"]
           [9728; 36864; 20999; 1] [5]).
  - simpl. lia.
  - repeat constructor; try discriminate; try (simpl; lia);
      eexists; split; reflexivity.
  - repeat constructor; try discriminate; try (simpl; lia);
      eexists; split; reflexivity.
Qed.

Lemma sample_cidr6 :
  Literal.CidrText Literal.Ipv6Text 128 "2600:9000:5206::/47"
    (Literal.groupsValue [9728; 36864; 20998; 0; 0; 0; 0; 0]) 47.
Proof.
  apply (Literal.CidrSlash Literal.Ipv6Text 128 "2600:9000:5206::" "47"
           (Literal.groupsValue [9728; 36864; 20998; 0; 0; 0; 0; 0]) 47).
  - apply (Literal.Ipv6Compressed ["2600"; "9000"; "5206"] []
             [9728; 36864; 20998] []).
    + simpl. lia.
    + repeat constructor; try discriminate; try (simpl; lia);
        eexists; split; reflexivity.
    + constructor.
  - split; [discriminate | eexists; split; reflexivity].
  - lia.
Qed.

Lemma sameTopBits_trans (w len x y z : Z) :
  Literal.sameTopBits w len x y -> Literal.sameTopBits w len y z ->
  Literal.sameTopBits w len x z.
Proof. unfold Literal.sameTopBits. congruence. Qed.

Lemma sameTopBits_sym (w len x y : Z) :
  Literal.sameTopBits w len x y -> Literal.sameTopBits w len y x.
Proof. unfold Literal.sameTopBits. congruence. Qed.

(** C1.  For every address text and every CIDR text of the same family
    with a prefix length within the width of the family, the containment
    check returns true exactly when the address and the base address of
    the CIDR, as 32-bit (IPv4) or 128-bit (IPv6) integers, agree on their
    top [len] bits; the IPv6 check returns normally on such inputs.  Hence
    the answer is the same for any two addresses that agree on their top
    [len] bits and any two bases that do, whatever the bits below. *)
Theorem containment_is_top_bits_agreement :
  (forall (ip cidr : string) (a base len : Z),
     Literal.Ipv4Text ip a ->
     Literal.CidrText Literal.Ipv4Text 32 cidr base len ->
     (isIpv4InCidr ip cidr = true <-> Literal.sameTopBits 32 len a base)) /\
  (forall (ip cidr : string) (a base len : Z),
     Literal.Ipv6Text ip a ->
     Literal.CidrText Literal.Ipv6Text 128 cidr base len ->
     exists inside,
       isIpv6InCidr ip cidr = Return inside /\
       (inside = true <-> Literal.sameTopBits 128 len a base)) /\
  (forall (ip ip' cidr cidr' : string) (a a' base base' len : Z),
     Literal.Ipv4Text ip a -> Literal.Ipv4Text ip' a' ->
     Literal.CidrText Literal.Ipv4Text 32 cidr base len ->
     Literal.CidrText Literal.Ipv4Text 32 cidr' base' len ->
     Literal.sameTopBits 32 len a a' ->
     Literal.sameTopBits 32 len base base' ->
     isIpv4InCidr ip cidr = isIpv4InCidr ip' cidr') /\
  (forall (ip ip' cidr cidr' : string) (a a' base base' len : Z),
     Literal.Ipv6Text ip a -> Literal.Ipv6Text ip' a' ->
     Literal.CidrText Literal.Ipv6Text 128 cidr base len ->
     Literal.CidrText Literal.Ipv6Text 128 cidr' base' len ->
     Literal.sameTopBits 128 len a a' ->
     Literal.sameTopBits 128 len base base' ->
     isIpv6InCidr ip cidr = isIpv6InCidr ip' cidr').
Proof.
  split; [exact isIpv4InCidr_top_bits|]. split; [exact isIpv6InCidr_top_bits|].
  split.
  - intros ip ip' cidr cidr' a a' base base' len Ha Ha' Hc Hc' Saa Sbb.
    pose proof (isIpv4InCidr_top_bits ip cidr a base len Ha Hc) as H.
    pose proof (isIpv4InCidr_top_bits ip' cidr' a' base' len Ha' Hc') as H'.
    assert (Heq : Literal.sameTopBits 32 len a base <->
                  Literal.sameTopBits 32 len a' base').
    { split; intros S.
      - eapply sameTopBits_trans; [apply sameTopBits_sym, Saa|].
        eapply sameTopBits_trans; [exact S | exact Sbb].
      - eapply sameTopBits_trans; [exact Saa|].
        eapply sameTopBits_trans; [exact S | apply sameTopBits_sym, Sbb]. }
    destruct (isIpv4InCidr ip cidr), (isIpv4InCidr ip' cidr'); try reflexivity.
    + assert (false = true) by tauto. discriminate.
    + assert (false = true) by tauto. discriminate.
  - intros ip ip' cidr cidr' a a' base base' len Ha Ha' Hc Hc' Saa Sbb.
    destruct (isIpv6InCidr_top_bits ip cidr a base len Ha Hc) as (b & -> & H).
    destruct (isIpv6InCidr_top_bits ip' cidr' a' base' len Ha' Hc') as (b' & -> & H').
    assert (Heq : Literal.sameTopBits 128 len a base <->
                  Literal.sameTopBits 128 len a' base').
    { split; intros S.
      - eapply sameTopBits_trans; [apply sameTopBits_sym, Saa|].
        eapply sameTopBits_trans; [exact S | exact Sbb].
      - eapply sameTopBits_trans; [exact Saa|].
        eapply sameTopBits_trans; [exact S | apply sameTopBits_sym, Sbb]. }
    f_equal. destruct b, b'; try reflexivity.
    + assert (false = true) by tauto. discriminate.
    + assert (false = true) by tauto. discriminate.
Qed.

Lemma containment_is_top_bits_agreement_witness :
  (isIpv4InCidr "1.2.3.133" "1.2.3.200/25" = true <->
   Literal.sameTopBits 32 25 16909189 16909256) /\
  (exists inside,
     isIpv6InCidr "2600:9000:5207:1::5" "2600:9000:5206::/47" = Return inside /\
     (inside = true <->
      Literal.sameTopBits 128 47
        (Literal.groupsValue [9728; 36864; 20999; 1; 0; 0; 0; 5])
        (Literal.groupsValue [9728; 36864; 20998; 0; 0; 0; 0; 0]))).
Proof.
  split.
  - apply (proj1 containment_is_top_bits_agreement).
    + exact sample_address4.
    + exact sample_cidr4.
  - apply (proj1 (proj2 containment_is_top_bits_agreement)).
    + exact sample_address6.
    + exact sample_cidr6.
Defined.

(** The literals above have hexadecimal groups only.  A dotted-decimal
    suffix is outside them: [expandIpv6] takes it for one group and
    [parseInt] reads it up to its first dot, so the two texts below, which
    differ in the bits the suffix stands for, compare equal on 120 bits. *)
Lemma dotted_suffix_is_read_as_one_group :
  expandIpv6 "::ffff:1.2.3.4" =
    Return "0000:0000:0000:0000:0000:0000:ffff:1.2.3.4" /\
  parseInt "1.2.3.4" 16 = Num 1 /\
  parseInt "1.9.9.0" 16 = Num 1 /\
  isIpv6InCidr "::ffff:1.2.3.4" "::ffff:1.9.9.0/120" = Return true.
Proof. repeat split; vm_compute; reflexivity. Qed.

(* ===================================================================== *)
(** * Scenarios *)
(* ===================================================================== *)

(** The service on the two-record document of the examples. *)
Lemma scenario_lookup_by_name :
  IpRangesService.getServiceIpRanges Sample.published "ec2" None =
    Return (Some {| ServiceIpRanges.service := "EC2";
                    ServiceIpRanges.ipv4_prefixes := ["1.2.3.0/24"; "1.2.4.0/24"];
                    ServiceIpRanges.ipv6_prefixes := [];
                    ServiceIpRanges.count := {| Count.ipv4 := 2; Count.ipv6 := 0 |} |}) /\
  IpRangesService.getServiceIpRanges Sample.published "ec2" (Some "us-east-1") =
    Return (Some {| ServiceIpRanges.service := "EC2";
                    ServiceIpRanges.ipv4_prefixes := ["1.2.3.0/24"];
                    ServiceIpRanges.ipv6_prefixes := [];
                    ServiceIpRanges.count := {| Count.ipv4 := 1; Count.ipv6 := 0 |} |}) /\
  IpRangesController.getServiceIpRanges Sample.published "lambda" None =
    Throw (NotFoundException
             "Service 'lambda' not found. Use GET /ip-ranges/services to see available services.").
Proof. repeat split. Qed.

Lemma scenario_search :
  searchByIp Sample.published "1.2.3.5" =
    Return {| IpSearchResult.ip := "1.2.3.5";
              IpSearchResult.found := true;
              IpSearchResult.matches :=
                [{| IpSearchMatch.service := "EC2";
                    IpSearchMatch.region := "us-east-1";
                    IpSearchMatch.prefix := "1.2.3.0/24";
                    IpSearchMatch.network_border_group := "us-east-1" |}] |} /\
  searchByIp Sample.published "9.9.9.9" =
    Return {| IpSearchResult.ip := "9.9.9.9";
              IpSearchResult.found := false;
              IpSearchResult.matches := [] |} /\
  searchByIp Sample.published "2600:9000:5206:1::5" =
    Return {| IpSearchResult.ip := "2600:9000:5206:1::5";
              IpSearchResult.found := true;
              IpSearchResult.matches :=
                [{| IpSearchMatch.service := "CLOUDFRONT";
                    IpSearchMatch.region := "GLOBAL";
                    IpSearchMatch.prefix := "2600:9000:5206::/48";
                    IpSearchMatch.network_border_group := "GLOBAL" |}] |} /\
  searchByIp Sample.published "1:2:3:4:5:6:7:8:9::" = Throw RangeError.
Proof. repeat split; vm_compute; reflexivity. Qed.

Lemma scenario_listings :
  IpRangesController.getServices Sample.published =
    Return {| ServicesListResponse.services := ["CLOUDFRONT"; "EC2"];
              ServicesListResponse.syncToken := "1766626705";
              ServicesListResponse.lastUpdated := "2025-12-30T10:22:32.506Z" |} /\
  IpRangesController.getRegions Sample.published =
    Return {| RegionsListResponse.regions := ["GLOBAL"; "us-east-1"; "us-west-2"];
              RegionsListResponse.syncToken := "1766626705";
              RegionsListResponse.lastUpdated := "2025-12-30T10:22:32.506Z" |} /\
  IpRangesController.getServices initial = Throw ServiceUnavailableException.
Proof. repeat split. Qed.

(* ===================================================================== *)
(** * Sorted listings *)
(* ===================================================================== *)

Lemma strLeb_total (a b : string) : strLeb a b = true \/ strLeb b a = true.
Proof.
  revert b. induction a as [|x a IH]; intros [|y b]; simpl; auto.
  destruct (Z.ltb_spec (code x) (code y)); [auto|].
  destruct (Z.ltb_spec (code y) (code x)); [auto|].
  apply IH.
Qed.

Lemma strLeb_trans (a b c : string) :
  strLeb a b = true -> strLeb b c = true -> strLeb a c = true.
Proof.
  revert b c. induction a as [|x a IH]; intros [|y b] [|z c]; cbn [strLeb];
    try congruence.
  destruct (Z.ltb_spec (code x) (code y)); destruct (Z.ltb_spec (code y) (code x));
    destruct (Z.ltb_spec (code y) (code z)); destruct (Z.ltb_spec (code z) (code y));
    destruct (Z.ltb_spec (code x) (code z)); destruct (Z.ltb_spec (code z) (code x));
    try congruence; try lia.
  apply IH.
Qed.

Lemma HdRel_insertSorted (x y : string) (l : list string) :
  codeUnitLe y x -> HdRel codeUnitLe y l -> HdRel codeUnitLe y (insertSorted x l).
Proof.
  intros Hyx Hl. destruct l as [|z l]; simpl; [now constructor|].
  destruct (strLeb x z); constructor; [exact Hyx|].
  now inversion Hl.
Qed.

Lemma Sorted_insertSorted (x : string) (l : list string) :
  Sorted codeUnitLe l -> Sorted codeUnitLe (insertSorted x l).
Proof.
  induction 1 as [|y l Hs IH Hhd]; simpl.
  - repeat constructor.
  - destruct (strLeb x y) eqn:E.
    + constructor; [now constructor | now constructor].
    + constructor; [exact IH|].
      apply HdRel_insertSorted; [|exact Hhd].
      destruct (strLeb_total x y) as [H|H]; [congruence | exact H].
Qed.

Lemma Sorted_sort (l : list string) : StronglySorted codeUnitLe (JS.sort l).
Proof.
  apply Sorted_StronglySorted.
  - intros a b c. apply strLeb_trans.
  - unfold JS.sort. induction l as [|x l IH]; simpl; [constructor|].
    now apply Sorted_insertSorted.
Qed.

Lemma NoDup_insertSorted (x : string) (l : list string) :
  ~ In x l -> NoDup l -> NoDup (insertSorted x l).
Proof.
  intros Hx Hl. induction Hl as [|y l Hy Hl IH]; simpl.
  - repeat constructor. intros [].
  - destruct (strLeb x y).
    + constructor; [exact Hx | now constructor].
    + constructor.
      * rewrite In_insertSorted. intros [->|H]; [apply Hx; now left | contradiction].
      * apply IH. intros H. apply Hx. now right.
Qed.

Lemma NoDup_sort (l : list string) : NoDup l -> NoDup (JS.sort l).
Proof.
  unfold JS.sort. induction 1 as [|x l Hx Hl IH]; simpl; [constructor|].
  apply NoDup_insertSorted; [|exact IH].
  fold (JS.sort l). now rewrite In_sort.
Qed.

Lemma NoDup_keys_rebuildMap (m : list (string * Grouped)) :
  NoDup (mapKeys (rebuildMap m)).
Proof.
  unfold rebuildMap.
  assert (G : forall acc : list (string * ServiceIpRanges.t),
             NoDup (mapKeys acc) ->
             NoDup (mapKeys
                      (fold_left
                         (fun acc entry =>
                            mapSet (fst entry) (toServiceIpRanges (fst entry) (snd entry)) acc)
                         m acc))).
  { induction m as [|e m IH]; intros acc Hacc; simpl; [exact Hacc|].
    apply IH. now apply NoDup_mapKeys_mapSet. }
  apply G. constructor.
Qed.

Lemma Reachable_keys_NoDup (st : State) :
  Reachable st -> NoDup (mapKeys (serviceIpRangesMap st)).
Proof.
  intros [cycles ->].
  assert (G : forall st0,
             NoDup (mapKeys (serviceIpRangesMap st0)) ->
             NoDup (mapKeys (serviceIpRangesMap (runRefreshes cycles st0)))).
  { induction cycles as [|[http now] cycles IH]; intros st0 H0; simpl; [exact H0|].
    apply IH. destruct (refresh_map_cases st0 http now) as [E|[m E]]; rewrite E.
    - exact H0.
    - apply NoDup_keys_rebuildMap. }
  apply G. constructor.
Qed.

(** X1.  In every state the service can reach, the list returned by
    [getServices] is in ascending code-unit order and has no name twice;
    on a published document it holds exactly the service names of the
    records of both families. *)
Theorem getServices_sorted_unique_complete :
  forall st : State,
    Reachable st ->
    StronglySorted codeUnitLe (ServicesListResponse.services (IpRangesService.getServices st)) /\
    NoDup (ServicesListResponse.services (IpRangesService.getServices st)) /\
    (forall doc ps,
       Loaded st doc ->
       AWSIpRangesResponse.prefixes doc = Some ps ->
       forall s,
         In s (ServicesListResponse.services (IpRangesService.getServices st)) <->
         In s (serviceNames ps (ipv6Records doc))).
Proof.
  intros st Hreach. unfold IpRangesService.getServices. simpl.
  split; [apply Sorted_sort|]. split.
  - apply NoDup_sort. now apply Reachable_keys_NoDup.
  - intros doc ps Hloaded Hps s.
    destruct (Loaded_index st doc Hloaded) as (ps' & now & Hps' & _ & _ & Hmap).
    assert (ps' = ps) by congruence. subst ps'.
    rewrite In_sort, Hmap. apply published_keys.
Qed.

Lemma getServices_sorted_unique_complete_witness :
  StronglySorted codeUnitLe
    (ServicesListResponse.services (IpRangesService.getServices Sample.published)) /\
  (In "EC2"
      (ServicesListResponse.services (IpRangesService.getServices Sample.published)) <->
   In "EC2"
      (serviceNames [Sample.ec2East; Sample.ec2West]
         (ipv6Records (Sample.document [Sample.ec2East; Sample.ec2West]
                         [Sample.cloudfront6])))).
Proof.
  destruct (getServices_sorted_unique_complete Sample.published Reachable_published)
    as (Hs & _ & Hin).
  split; [exact Hs|].
  apply (Hin (Sample.document [Sample.ec2East; Sample.ec2West] [Sample.cloudfront6])
             [Sample.ec2East; Sample.ec2West] Loaded_published eq_refl).
Defined.

Lemma NoDup_fold_setAdd {A : Type} (f : A -> string) (xs : list A) :
  forall acc, NoDup acc -> NoDup (fold_left (fun acc x => setAdd (f x) acc) xs acc).
Proof.
  induction xs as [|x xs IH]; intros acc Hacc; simpl; [exact Hacc|].
  apply IH. now apply NoDup_setAdd.
Qed.

Lemma NoDup_regionSet (ps : list IPPrefix.t) (qs : option (list IPv6Prefix.t)) :
  NoDup (regionSet ps qs).
Proof.
  unfold regionSet. destruct qs as [l|].
  - apply NoDup_fold_setAdd. apply NoDup_fold_setAdd. constructor.
  - apply NoDup_fold_setAdd. constructor.
Qed.

(** X2.  Whenever [getRegions] returns, its list is in ascending
    code-unit order and has no region twice; when the cached body is a
    document with a prefix list, it holds exactly the regions of the
    records of both families. *)
Theorem getRegions_sorted_unique_complete :
  forall (st : State) (regs : RegionsListResponse.t),
    IpRangesService.getRegions st = Return regs ->
    StronglySorted codeUnitLe (RegionsListResponse.regions regs) /\
    NoDup (RegionsListResponse.regions regs) /\
    (forall doc ps,
       ipRangesData st = BodyDoc doc ->
       AWSIpRangesResponse.prefixes doc = Some ps ->
       forall r,
         In r (RegionsListResponse.regions regs) <->
         (exists rec, In rec ps /\ IPPrefix.region rec = r) \/
         (exists rec, In rec (ipv6Records doc) /\ IPv6Prefix.region rec = r)).
Proof.
  intros st regs. unfold IpRangesService.getRegions.
  destruct (truthy (ipRangesData st)) eqn:Et.
  - destruct (bodyPrefixes (ipRangesData st)) as [ps0|] eqn:Ep; simpl; [|discriminate].
    intros [= <-]. simpl. split; [apply Sorted_sort|]. split.
    + apply NoDup_sort, NoDup_regionSet.
    + intros doc ps Hdata Hps r. rewrite Hdata in *. simpl in Ep.
      assert (ps0 = ps) by congruence. subst ps0.
      rewrite In_sort. apply In_regionSet.
  - simpl. intros [= <-]. simpl. split; [constructor|]. split; [constructor|].
    intros doc ps Hdata. rewrite Hdata in Et. discriminate.
Qed.

Lemma getRegions_sorted_unique_complete_witness :
  StronglySorted codeUnitLe ["GLOBAL"; "us-east-1"; "us-west-2"] /\
  NoDup ["GLOBAL"; "us-east-1"; "us-west-2"].
Proof.
  destruct (getRegions_sorted_unique_complete Sample.published
              {| RegionsListResponse.regions := ["GLOBAL"; "us-east-1"; "us-west-2"];
                 RegionsListResponse.syncToken := "1766626705";
                 RegionsListResponse.lastUpdated := "2025-12-30T10:22:32.506Z" |}
              eq_refl) as (H1 & H2 & _).
  split; assumption.
Defined.

(* ===================================================================== *)
(** * Order of the per-service index *)
(* ===================================================================== *)

Lemma setHas_app (y x : string) (acc : list string) :
  setHas y (acc ++ [x]) = setHas y acc || String.eqb y x.
Proof.
  unfold setHas. rewrite existsb_app. simpl. now rewrite orb_false_r.
Qed.

Lemma filter_twice {A : Type} (f g : A -> bool) (l : list A) :
  filter f (filter g l) = filter (fun x => g x && f x) l.
Proof.
  induction l as [|x l IH]; simpl; [reflexivity|].
  destruct (g x); simpl; [destruct (f x); now rewrite IH | exact IH].
Qed.

Lemma fold_setAdd_firstOccurrences (l : list string) :
  forall acc,
    fold_left (fun acc x => setAdd x acc) l acc =
    acc ++ filter (fun y => negb (setHas y acc)) (firstOccurrences l).
Proof.
  induction l as [|x l IH]; intros acc; simpl.
  - now rewrite app_nil_r.
  - rewrite IH, filter_twice. unfold setAdd. destruct (setHas x acc) eqn:E; simpl.
    + f_equal. apply filter_ext_in. intros y _.
      destruct (String.eqb_spec y x) as [->|_]; simpl; [now rewrite E | reflexivity].
    + rewrite <- app_assoc. simpl. f_equal. f_equal.
      apply filter_ext. intros y. rewrite setHas_app.
      destruct (String.eqb y x), (setHas y acc); reflexivity.
Qed.

Lemma setAdd_firstOccurrences (l : list string) :
  fold_left (fun acc x => setAdd x acc) l [] = firstOccurrences l.
Proof.
  rewrite fold_setAdd_firstOccurrences. simpl.
  induction (firstOccurrences l) as [|y r IH]; simpl; [reflexivity | now rewrite IH].
Qed.

Lemma group4_lists (ps : list IPPrefix.t) (s : string) :
  forall m,
    ipv4 (entryOf s (fold_left addIpv4 ps m)) =
    fold_left (fun acc x => setAdd x acc)
      (map IPPrefix.ip_prefix
         (filter (fun rec => String.eqb (IPPrefix.service rec) s) ps))
      (ipv4 (entryOf s m)).
Proof.
  induction ps as [|rec ps IH]; intros m; simpl; [reflexivity|].
  rewrite IH, entryOf_addIpv4. rewrite (String.eqb_sym s).
  destruct (String.eqb (IPPrefix.service rec) s); reflexivity.
Qed.

Lemma group6_lists (qs : list IPv6Prefix.t) (s : string) :
  forall m,
    ipv6 (entryOf s (fold_left addIpv6 qs m)) =
    fold_left (fun acc x => setAdd x acc)
      (map IPv6Prefix.ipv6_prefix
         (filter (fun rec => String.eqb (IPv6Prefix.service rec) s) qs))
      (ipv6 (entryOf s m)).
Proof.
  induction qs as [|rec qs IH]; intros m; simpl; [reflexivity|].
  rewrite IH, entryOf_addIpv6. rewrite (String.eqb_sym s).
  destruct (String.eqb (IPv6Prefix.service rec) s); reflexivity.
Qed.

Lemma mapHas_keys {V : Type} (k : string) (m : list (string * V)) :
  mapHas k m = setHas k (mapKeys m).
Proof.
  unfold mapHas, setHas, mapKeys. induction m as [|[k' v] m IH]; simpl; [reflexivity|].
  destruct (String.eqb k k'); [reflexivity | exact IH].
Qed.

Lemma mapKeys_mapSet {V : Type} (k : string) (v : V) (m : list (string * V)) :
  mapKeys (mapSet k v m) = setAdd k (mapKeys m).
Proof.
  unfold setAdd. rewrite <- mapHas_keys. unfold mapHas.
  destruct (mapGet k m) eqn:E.
  - apply mapKeys_mapSet_present. apply mapGet_In in E.
    unfold mapKeys. apply in_map_iff. now exists (k, v0).
  - apply mapGet_None_keys in E. rewrite (mapSet_fresh k v m E).
    unfold mapKeys. now rewrite map_app.
Qed.

Lemma setAdd_twice (k : string) (l : list string) : setAdd k (setAdd k l) = setAdd k l.
Proof.
  unfold setAdd at 1. 
  assert (H : setHas k (setAdd k l) = true).
  { apply setHas_In, In_setAdd. now left. }
  now rewrite H.
Qed.

Lemma mapKeys_addIpv4 (m : list (string * Grouped)) (rec : IPPrefix.t) :
  mapKeys (addIpv4 m rec) = setAdd (IPPrefix.service rec) (mapKeys m).
Proof.
  unfold addIpv4, ensureService.
  destruct (mapHas (IPPrefix.service rec) m) eqn:E.
  - unfold mapHas in E. destruct (mapGet (IPPrefix.service rec) m); [|discriminate].
    apply mapKeys_mapSet.
  - rewrite mapGet_mapSet_same, !mapKeys_mapSet. apply setAdd_twice.
Qed.

Lemma mapKeys_addIpv6 (m : list (string * Grouped)) (rec : IPv6Prefix.t) :
  mapKeys (addIpv6 m rec) = setAdd (IPv6Prefix.service rec) (mapKeys m).
Proof.
  unfold addIpv6, ensureService.
  destruct (mapHas (IPv6Prefix.service rec) m) eqn:E.
  - unfold mapHas in E. destruct (mapGet (IPv6Prefix.service rec) m); [|discriminate].
    apply mapKeys_mapSet.
  - rewrite mapGet_mapSet_same, !mapKeys_mapSet. apply setAdd_twice.
Qed.

Lemma mapKeys_groupPrefixes (doc : AWSIpRangesResponse.t) (ps : list IPPrefix.t) :
  mapKeys (groupPrefixes ps (AWSIpRangesResponse.ipv6_prefixes doc)) =
  firstOccurrences (serviceNames ps (ipv6Records doc)).
Proof.
  assert (G4 : forall ps m,
             mapKeys (fold_left addIpv4 ps m) =
             fold_left (fun acc x => setAdd x acc) (map IPPrefix.service ps) (mapKeys m)).
  { clear. induction ps as [|rec ps IH]; intros m; simpl; [reflexivity|].
    now rewrite IH, mapKeys_addIpv4. }
  assert (G6 : forall qs m,
             mapKeys (fold_left addIpv6 qs m) =
             fold_left (fun acc x => setAdd x acc) (map IPv6Prefix.service qs) (mapKeys m)).
  { clear. induction qs as [|rec qs IH]; intros m; simpl; [reflexivity|].
    now rewrite IH, mapKeys_addIpv6. }
  rewrite <- setAdd_firstOccurrences. unfold serviceNames, groupPrefixes, ipv6Records.
  rewrite fold_left_app.
  destruct (AWSIpRangesResponse.ipv6_prefixes doc) as [qs|].
  - now rewrite G6, G4.
  - simpl. now rewrite G4.
Qed.

(** X3.  [groupByService] keeps first occurrences: after a successful
    refresh the keys of the per-service map are the service names of the
    document in order of first appearance, IPv4 records before IPv6
    records, and the two lists of every entry are the prefixes of the
    records with exactly that service name, in order of first appearance,
    each once. *)
Theorem grouping_keeps_first_occurrences :
  forall (st : State) (doc : AWSIpRangesResponse.t) (ps : list IPPrefix.t),
    Loaded st doc ->
    AWSIpRangesResponse.prefixes doc = Some ps ->
    mapKeys (serviceIpRangesMap st) =
      firstOccurrences (serviceNames ps (ipv6Records doc)) /\
    (forall s v,
       In (s, v) (serviceIpRangesMap st) ->
       ServiceIpRanges.service v = s /\
       ServiceIpRanges.ipv4_prefixes v =
         firstOccurrences
           (map IPPrefix.ip_prefix
              (filter (fun rec => String.eqb (IPPrefix.service rec) s) ps)) /\
       ServiceIpRanges.ipv6_prefixes v =
         firstOccurrences
           (map IPv6Prefix.ipv6_prefix
              (filter (fun rec => String.eqb (IPv6Prefix.service rec) s)
                 (ipv6Records doc)))).
Proof.
  intros st doc ps Hloaded Hps.
  destruct (Loaded_index st doc Hloaded) as (ps' & now & Hps' & _ & _ & Hmap).
  assert (ps' = ps) by congruence. subst ps'. rewrite Hmap.
  split.
  - unfold publishEntry.
    rewrite (mapKeys_published (fun e => toServiceIpRanges (fst e) (snd e))).
    apply mapKeys_groupPrefixes.
  - intros s v Hin.
    apply in_map_iff in Hin as ([k g] & Heq & Hin). unfold publishEntry in Heq.
    simpl in Heq. injection Heq as -> <-. simpl.
    split; [reflexivity|].
    assert (Hnd : NoDup (mapKeys (groupPrefixes ps (AWSIpRangesResponse.ipv6_prefixes doc))))
      by apply (groupPrefixes_spec doc ps "").
    assert (Eg : entryOf s (groupPrefixes ps (AWSIpRangesResponse.ipv6_prefixes doc)) = g).
    { unfold entryOf.
      assert (Hget : mapGet s (groupPrefixes ps (AWSIpRangesResponse.ipv6_prefixes doc)) = Some g).
      { revert Hin Hnd. generalize (groupPrefixes ps (AWSIpRangesResponse.ipv6_prefixes doc)).
        unfold mapKeys. induction l as [|[k0 g0] l IH]; simpl; [contradiction|].
        intros [Heq|Hin] Hnd; inversion Hnd as [|? ? Hk0 Hnd']; subst.
        - injection Heq as -> ->. now rewrite String.eqb_refl.
        - destruct (String.eqb_spec s k0) as [->|_]; [|now apply IH].
          exfalso. apply Hk0. apply in_map_iff. now exists (k0, g). }
      now rewrite Hget. }
    rewrite <- Eg. unfold groupPrefixes, ipv6Records.
    destruct (AWSIpRangesResponse.ipv6_prefixes doc) as [qs|].
    + destruct (group6_spec qs (fold_left addIpv4 ps []) s) as (_ & _ & _ & H46 & _).
      destruct (group4_spec ps [] s) as (_ & _ & _ & H64 & _).
      rewrite H46, group4_lists, group6_lists, H64.
      change (ipv4 (entryOf s [])) with (@nil string).
      change (ipv6 (entryOf s [])) with (@nil string).
      now rewrite !setAdd_firstOccurrences.
    + destruct (group4_spec ps [] s) as (_ & _ & _ & H64 & _).
      rewrite group4_lists, H64.
      change (ipv4 (entryOf s [])) with (@nil string).
      change (ipv6 (entryOf s [])) with (@nil string).
      now rewrite setAdd_firstOccurrences.
Qed.

Lemma Loaded_sample (ps : list IPPrefix.t) (qs : list IPv6Prefix.t) :
  Loaded (Sample.loadedWith ps qs) (Sample.document ps qs).
Proof. apply (Loaded_intro initial _ _ ps). reflexivity. Qed.

Lemma grouping_keeps_first_occurrences_witness :
  mapKeys (serviceIpRangesMap Sample.duplicated) =
    firstOccurrences
      (serviceNames [Sample.ec2East; Sample.ec2East]
         (ipv6Records (Sample.document [Sample.ec2East; Sample.ec2East] []))).
Proof.
  apply (proj1 (grouping_keeps_first_occurrences Sample.duplicated
                  (Sample.document [Sample.ec2East; Sample.ec2East] [])
                  [Sample.ec2East; Sample.ec2East]
                  (Loaded_sample [Sample.ec2East; Sample.ec2East] [])
                  eq_refl)).
Defined.

(* ===================================================================== *)
(** * Which entry a lookup returns *)
(* ===================================================================== *)

Lemma firstByUpperKey_first (u : string) (m : list (string * ServiceIpRanges.t))
    (v : ServiceIpRanges.t) :
  firstByUpperKey u m = Some v ->
  exists before k after,
    m = before ++ (k, v) :: after /\
    toUpperCase k = u /\
    forall k', In k' (mapKeys before) -> toUpperCase k' <> u.
Proof.
  induction m as [|[k0 v0] m IH]; cbn [firstByUpperKey]; [discriminate|].
  destruct (String.eqb_spec (toUpperCase k0) u) as [E|N].
  - intros [= ->]. exists [], k0, m. split; [reflexivity|]. split; [exact E|].
    intros k' [].
  - intros H. destruct (IH H) as (before & k & after & -> & Hk & Hbefore).
    exists ((k0, v0) :: before), k, after. split; [reflexivity|]. split; [exact Hk|].
    intros k' [<-|Hin]; [exact N | now apply Hbefore].
Qed.

(** X4.  On a published document a lookup without a region returns the
    entry of the first service name, in order of first appearance, that
    equals the requested name up to letter case, and the [service] field
    keeps the spelling of the document; with a region the [service] field
    is the requested name in upper case. *)
Theorem lookup_returns_first_case_variant :
  forall (st : State) (doc : AWSIpRangesResponse.t) (ps : list IPPrefix.t)
         (name : string) (region : option string) (r : ServiceIpRanges.t),
    Loaded st doc ->
    AWSIpRangesResponse.prefixes doc = Some ps ->
    IpRangesService.getServiceIpRanges st name region = Return (Some r) ->
    (regionGiven region = None ->
     exists before after,
       firstOccurrences (serviceNames ps (ipv6Records doc)) =
         before ++ ServiceIpRanges.service r :: after /\
       Literal.sameName (ServiceIpRanges.service r) name /\
       forall k, In k before -> ~ Literal.sameName k name) /\
    (regionGiven region <> None ->
     ServiceIpRanges.service r = toUpperCase name).
Proof.
  intros st doc ps name region r Hloaded Hps Hget.
  destruct (Loaded_index st doc Hloaded) as (ps' & now & Hps' & Hdata & _ & Hmap).
  assert (ps' = ps) by congruence. subst ps'. clear Hps'.
  split.
  - intros Erg. rewrite (getServiceIpRanges_plain st name region Erg) in Hget.
    injection Hget as Hget.
    destruct (firstByUpperKey_first _ _ _ Hget) as (before & k & after & Hm & Hk & Hb).
    assert (Hin : In (k, r) (serviceIpRangesMap st)).
    { rewrite Hm. apply in_or_app. right. now left. }
    rewrite Hmap in Hin. destruct (published_entry doc ps k r Hin) as (_ & Hsvc & _).
    exists (mapKeys before), (mapKeys after). split; [|split].
    + rewrite <- (mapKeys_groupPrefixes doc ps).
      rewrite <- (mapKeys_published (fun e => toServiceIpRanges (fst e) (snd e))).
      fold publishEntry. change (map (fun e => (fst e, toServiceIpRanges (fst e) (snd e))))
        with (map publishEntry).
      rewrite <- Hmap, Hm. unfold mapKeys. rewrite map_app. cbn [map fst].
      now rewrite Hsvc.
    + unfold Literal.sameName. now rewrite Hsvc.
    + intros k' Hin'. unfold Literal.sameName. now apply Hb.
  - intros Erg. destruct (regionGiven region) as [rg|] eqn:E; [|contradiction].
    rewrite (getServiceIpRanges_region st doc name rg region Hdata E),
      (filterByServiceAndRegion_loaded st doc ps (toUpperCase name) rg Hdata Hps) in Hget.
    destruct (regionIpv4 (toUpperCase name) rg ps);
      [destruct (regionIpv6 (toUpperCase name) rg (ipv6Records doc))|];
      try discriminate; now injection Hget as <-.
Qed.

Lemma lookup_returns_first_case_variant_witness :
  exists before after,
    firstOccurrences
      (serviceNames [Sample.ec2East; Sample.lowerEast]
         (ipv6Records (Sample.document [Sample.ec2East; Sample.lowerEast] []))) =
      before ++
      ServiceIpRanges.service
        (toServiceIpRanges "EC2" {| ipv4 := ["1.2.3.0/24"]; ipv6 := [] |}) :: after /\
    Literal.sameName
      (ServiceIpRanges.service
         (toServiceIpRanges "EC2" {| ipv4 := ["1.2.3.0/24"]; ipv6 := [] |})) "ec2" /\
    forall k, In k before -> ~ Literal.sameName k "ec2".
Proof.
  apply (proj1 (lookup_returns_first_case_variant Sample.mixedCase
                  (Sample.document [Sample.ec2East; Sample.lowerEast] [])
                  [Sample.ec2East; Sample.lowerEast] "ec2" None
                  (toServiceIpRanges "EC2" {| ipv4 := ["1.2.3.0/24"]; ipv6 := [] |})
                  (Loaded_sample [Sample.ec2East; Sample.lowerEast] [])
                  eq_refl eq_refl)).
  reflexivity.
Defined.

(* ===================================================================== *)
(** * Entries of the all-services answer *)
(* ===================================================================== *)

Lemma addFiltered_entries (st : State) (doc : AWSIpRangesResponse.t)
    (ps : list IPPrefix.t) (r : string) :
  ipRangesData st = BodyDoc doc ->
  AWSIpRangesResponse.prefixes doc = Some ps ->
  forall keys acc l,
    fold_left (addFiltered st r) keys (Return acc) = Return l ->
    forall k rest,
      In (k, rest) l ->
      In (k, rest) acc \/
      (In k keys /\
       ServiceIpRangesRest.ipv4_prefixes rest = regionIpv4 (toUpperCase k) r ps /\
       ServiceIpRangesRest.ipv6_prefixes rest =
         regionIpv6 (toUpperCase k) r (ipv6Records doc) /\
       (ServiceIpRangesRest.ipv4_prefixes rest <> [] \/
        ServiceIpRangesRest.ipv6_prefixes rest <> [])).
Proof.
  intros Hdata Hps. induction keys as [|k0 keys IH]; intros acc l.
  - simpl. intros [= <-] k rest Hin. now left.
  - cbn [fold_left]. unfold addFiltered at 2. cbn [rbind].
    rewrite (filterByServiceAndRegion_loaded st doc ps (toUpperCase k0) r Hdata Hps).
    destruct (regionIpv4 (toUpperCase k0) r ps) as [|p4 l4] eqn:E4;
      [destruct (regionIpv6 (toUpperCase k0) r (ipv6Records doc)) as [|p6 l6] eqn:E6|];
      cbn [rbind ServiceIpRanges.count Count.ipv4 Count.ipv6 List.length Nat.ltb Nat.leb orb].
    + intros Hl k rest Hin. destruct (IH acc l Hl k rest Hin) as [H|(H & Hrest)];
        [now left | right; split; [now right | exact Hrest]].
    + intros Hl k rest Hin. destruct (IH _ l Hl k rest Hin) as [H|(H & Hrest)].
      * apply In_mapSet in H as [Heq|H]; [|now left].
        injection Heq as -> ->. right. simpl. rewrite E4, E6.
        repeat split; auto. right. discriminate.
      * right. split; [now right | exact Hrest].
    + intros Hl k rest Hin. destruct (IH _ l Hl k rest Hin) as [H|(H & Hrest)].
      * apply In_mapSet in H as [Heq|H]; [|now left].
        injection Heq as -> ->. right. simpl. rewrite E4.
        repeat split; auto. left. discriminate.
      * right. split; [now right | exact Hrest].
Qed.

(** X5.  On a published document [getAllServiceIpRanges] with a region
    returns normally; every entry lists exactly the prefixes of the
    records whose service and region equal, up to letter case, the key and
    the region, in document order, and has at least one prefix; a service
    is left out exactly when no record of either family passes the
    filter.  (The name [__proto__], which a JavaScript object does not
    keep as an own property, is left aside.) *)
Theorem region_filter_omits_empty_services :
  forall (st : State) (doc : AWSIpRangesResponse.t) (ps : list IPPrefix.t)
         (region : option string) (rg : string),
    Loaded st doc ->
    AWSIpRangesResponse.prefixes doc = Some ps ->
    regionGiven region = Some rg ->
    exists all,
      IpRangesService.getAllServiceIpRanges st region = Return all /\
      (forall s rest,
         In (s, rest) (AllServicesIpRanges.services all) ->
         In s (serviceNames ps (ipv6Records doc)) /\
         ServiceIpRangesRest.ipv4_prefixes rest = regionIpv4 (toUpperCase s) rg ps /\
         ServiceIpRangesRest.ipv6_prefixes rest =
           regionIpv6 (toUpperCase s) rg (ipv6Records doc) /\
         (ServiceIpRangesRest.ipv4_prefixes rest <> [] \/
          ServiceIpRangesRest.ipv6_prefixes rest <> [])) /\
      (forall s,
         In s (serviceNames ps (ipv6Records doc)) ->
         s <> "__proto__" ->
         (mapGet s (AllServicesIpRanges.services all) = None <->
          regionIpv4 (toUpperCase s) rg ps = [] /\
          regionIpv6 (toUpperCase s) rg (ipv6Records doc) = [])).
Proof.
  intros st doc ps region rg Hloaded Hps Erg.
  destruct (Loaded_index st doc Hloaded) as (ps' & now & Hps' & Hdata & _ & Hmap).
  assert (ps' = ps) by congruence. subst ps'. clear Hps'.
  unfold IpRangesService.getAllServiceIpRanges. rewrite Erg, Hdata. cbn [truthy].
  destruct (addFiltered_spec st doc ps rg Hdata Hps
              (mapKeys (serviceIpRangesMap st)) [] [])
    as (l & Hl & Hinv).
  { intros s. split; [intros [] | reflexivity]. }
  rewrite Hl. cbn [rbind]. eexists. split; [reflexivity|].
  cbn [AllServicesIpRanges.services]. split.
  - intros s rest Hin.
    destruct (addFiltered_entries st doc ps rg Hdata Hps _ [] l Hl s rest Hin)
      as [[]|(Hk & Hrest)].
    split; [|exact Hrest]. rewrite Hmap in Hk. now apply published_keys in Hk.
  - intros s Hs _. destruct (Hinv s) as [Hseen _]. rewrite app_nil_r in Hseen.
    assert (Hk : In s (rev (mapKeys (serviceIpRangesMap st)))).
    { rewrite <- in_rev, Hmap. now apply published_keys. }
    specialize (Hseen Hk).
    destruct (mapGet s l) as [rest|] eqn:E.
    + split; [discriminate|]. intros [E4 E6]. exfalso.
      apply mapGet_In in E.
      destruct (addFiltered_entries st doc ps rg Hdata Hps _ [] l Hl s rest E)
        as [[]|(_ & H4 & H6 & [Hne|Hne])]; congruence.
    + split; [intros _; exact Hseen | reflexivity].
Qed.

Lemma region_filter_omits_empty_services_witness :
  exists all,
    IpRangesService.getAllServiceIpRanges Sample.published (Some "us-east-1") =
      Return all /\
    (mapGet "CLOUDFRONT" (AllServicesIpRanges.services all) = None <->
     regionIpv4 (toUpperCase "CLOUDFRONT") "us-east-1" [Sample.ec2East; Sample.ec2West] =
       [] /\
     regionIpv6 (toUpperCase "CLOUDFRONT") "us-east-1"
       (ipv6Records (Sample.document [Sample.ec2East; Sample.ec2West]
                       [Sample.cloudfront6])) = []).
Proof.
  destruct (region_filter_omits_empty_services Sample.published
              (Sample.document [Sample.ec2East; Sample.ec2West] [Sample.cloudfront6])
              [Sample.ec2East; Sample.ec2West] (Some "us-east-1") "us-east-1"
              Loaded_published eq_refl eq_refl)
    as (all & Hall & _ & Hnone).
  exists all. split; [exact Hall|].
  apply Hnone.
  - simpl. auto.
  - discriminate.
Defined.

(** X6.  On a published document, for a service name that has no case
    variant, the entry of [getAllServiceIpRanges] without a region is the
    answer of [getServiceIpRanges] for that name less its [service]
    field, and the keys of the answer are the service names of the
    document.  (The name [__proto__] is left aside here too.) *)
Theorem all_services_entry_is_the_lookup :
  forall (st : State) (doc : AWSIpRangesResponse.t) (ps : list IPPrefix.t)
         (region : option string) (s : string),
    Loaded st doc ->
    AWSIpRangesResponse.prefixes doc = Some ps ->
    regionGiven region = None ->
    In s (serviceNames ps (ipv6Records doc)) ->
    CaseUnique doc ps s ->
    s <> "__proto__" ->
    exists all r,
      IpRangesService.getAllServiceIpRanges st region = Return all /\
      IpRangesService.getServiceIpRanges st s region = Return (Some r) /\
      ServiceIpRanges.service r = s /\
      mapGet s (AllServicesIpRanges.services all) = Some (omitService r) /\
      (forall k, k <> "__proto__" ->
                 (In k (mapKeys (AllServicesIpRanges.services all)) <->
                  In k (serviceNames ps (ipv6Records doc)))).
Proof.
  intros st doc ps region s Hloaded Hps Erg Hs Hunique _.
  destruct (Loaded_index st doc Hloaded) as (ps' & now & Hps' & Hdata & _ & Hmap).
  assert (ps' = ps) by congruence. subst ps'. clear Hps'.
  destruct (plain_lookup_unique st doc ps s Hmap Hunique Hs) as (v & Hv & Hin).
  rewrite (getServiceIpRanges_plain st s region Erg), Hv.
  assert (Hfold : fold_left
                    (fun services entry =>
                       mapSet (fst entry) (omitService (snd entry)) services)
                    (serviceIpRangesMap st) [] =
                  map (fun e => (fst e, omitService (snd e))) (serviceIpRangesMap st)).
  { rewrite (fold_mapSet_fresh (fun e => omitService (snd e)) (serviceIpRangesMap st) []);
      [reflexivity|].
    simpl. rewrite Hmap. unfold publishEntry.
    rewrite (mapKeys_published (fun e => toServiceIpRanges (fst e) (snd e))).
    apply (groupPrefixes_spec doc ps ""). }
  unfold IpRangesService.getAllServiceIpRanges.
  rewrite Erg, Hfold. cbn [rbind].
  eexists. exists v. split; [reflexivity|].
  split; [reflexivity|]. cbn [AllServicesIpRanges.services].
  rewrite Hmap in Hin. destruct (published_entry doc ps s v Hin) as (_ & Hsvc & _).
  split; [exact Hsvc|]. split.
  - rewrite (mapGet_published (fun e => omitService (snd e)) s (serviceIpRangesMap st)).
    assert (Hget : mapGet s (serviceIpRangesMap st) = Some v).
    { rewrite <- firstByUpperKey_unique; [exact Hv|].
      intros k Hk Hup. rewrite Hmap in Hk. apply published_keys in Hk.
      unfold serviceNames in Hk. destruct Hunique as [U4 U6].
      apply in_app_iff in Hk as [Hk|Hk]; apply in_map_iff in Hk as (rec & <- & Hrec);
        [now apply U4 | now apply U6]. }
    now rewrite Hget.
  - intros k _. rewrite (mapKeys_published (fun e => omitService (snd e))), Hmap.
    apply published_keys.
Qed.

Lemma all_services_entry_is_the_lookup_witness :
  exists all r,
    IpRangesService.getAllServiceIpRanges Sample.published None = Return all /\
    IpRangesService.getServiceIpRanges Sample.published "EC2" None = Return (Some r) /\
    mapGet "EC2" (AllServicesIpRanges.services all) = Some (omitService r).
Proof.
  destruct (all_services_entry_is_the_lookup Sample.published
              (Sample.document [Sample.ec2East; Sample.ec2West] [Sample.cloudfront6])
              [Sample.ec2East; Sample.ec2West] None "EC2"
              Loaded_published eq_refl eq_refl)
    as (all & r & Hall & Hr & _ & Hget & _).
  - simpl. auto.
  - apply published_names_unique. simpl. auto.
  - discriminate.
  - exists all, r. split; [exact Hall|]. split; [exact Hr | exact Hget].
Defined.

Lemma In_mapGet_NoDup {V : Type} (k : string) (v : V) (m : list (string * V)) :
  NoDup (mapKeys m) -> In (k, v) m -> mapGet k m = Some v.
Proof.
  unfold mapKeys. induction m as [|[k' v'] m IH]; cbn [map fst mapGet]; intros Hnd Hin.
  - destruct Hin.
  - inversion Hnd as [|? ? Hk Hm]; subst.
    destruct Hin as [[= -> ->]|Hin].
    + now rewrite String.eqb_refl.
    + destruct (String.eqb_spec k k') as [->|_]; [|now apply IH].
      exfalso. apply Hk. apply in_map_iff. now exists (k', v).
Qed.

Lemma addFiltered_keys (st : State) (r : string) (keys : list string) :
  forall acc l,
    fold_left (addFiltered st r) keys (Return acc) = Return l ->
    forall k, In k (mapKeys l) -> In k (mapKeys acc) \/ In k keys.
Proof.
  induction keys as [|k0 keys IH]; intros acc l; cbn [fold_left].
  - intros [= <-] k Hk. now left.
  - unfold addFiltered at 2. cbn [rbind].
    destruct (filterByServiceAndRegion st (toUpperCase k0) r) as [[f|]|e]; cbn [rbind].
    + destruct (Nat.ltb 0 (Count.ipv4 (ServiceIpRanges.count f)) ||
                Nat.ltb 0 (Count.ipv6 (ServiceIpRanges.count f)))%bool.
      * intros Hl k Hk. destruct (IH _ l Hl k Hk) as [H|H]; [|right; now right].
        apply mapKeys_mapSet_In in H as [->|H]; [right; now left | now left].
      * intros Hl k Hk. destruct (IH _ l Hl k Hk) as [H|H]; [now left | right; now right].
    + intros Hl k Hk. destruct (IH _ l Hl k Hk) as [H|H]; [now left | right; now right].
    + rewrite addFiltered_Throw. discriminate.
Qed.

(** X7.  In every reachable state every service listed by
    [getAllServiceIpRanges], with or without a region, is listed by
    [getServices]; without a region every entry of the per-service map
    (the name [__proto__] left aside) is listed with its prefixes and
    counts; and the two answers carry the same token and time. *)
Theorem all_services_agrees_with_services_listing :
  forall (st : State) (region : option string) (all : AllServicesIpRanges.t),
    Reachable st ->
    IpRangesService.getAllServiceIpRanges st region = Return all ->
    (forall k,
       In k (mapKeys (AllServicesIpRanges.services all)) ->
       In k (ServicesListResponse.services (IpRangesService.getServices st))) /\
    (regionGiven region = None ->
     forall k v,
       In (k, v) (serviceIpRangesMap st) ->
       k <> "__proto__" ->
       mapGet k (AllServicesIpRanges.services all) = Some (omitService v)) /\
    AllServicesIpRanges.syncToken all =
      ServicesListResponse.syncToken (IpRangesService.getServices st) /\
    AllServicesIpRanges.lastUpdated all =
      ServicesListResponse.lastUpdated (IpRangesService.getServices st).
Proof.
  intros st region all Hreach.
  pose proof (Reachable_keys_NoDup st Hreach) as Hnd.
  assert (Hplain : fold_left
                     (fun services entry =>
                        mapSet (fst entry) (omitService (snd entry)) services)
                     (serviceIpRangesMap st) [] =
                   map (fun e => (fst e, omitService (snd e))) (serviceIpRangesMap st)).
  { now rewrite (fold_mapSet_fresh (fun e => omitService (snd e))
                   (serviceIpRangesMap st) [] Hnd). }
  unfold IpRangesService.getAllServiceIpRanges, IpRangesService.getServices.
  cbn [ServicesListResponse.services ServicesListResponse.syncToken
       ServicesListResponse.lastUpdated].
  rewrite Hplain.
  destruct (regionGiven region) as [rg|];
    [destruct (truthy (ipRangesData st));
     [destruct (fold_left (addFiltered st rg) (mapKeys (serviceIpRangesMap st))
                  (Return [])) as [l|e] eqn:El|]|];
    cbn [rbind]; try discriminate; intros [= <-];
    cbn [AllServicesIpRanges.services AllServicesIpRanges.syncToken
         AllServicesIpRanges.lastUpdated].
  - split; [|split; [discriminate | split; reflexivity]].
    intros k Hk. apply In_sort.
    destruct (addFiltered_keys st rg _ [] l El k Hk) as [[]|H]; exact H.
  - split; [|split; [discriminate | split; reflexivity]].
    intros k Hk. apply In_sort.
    now rewrite (mapKeys_published (fun e => omitService (snd e))) in Hk.
  - split; [|split; [|split; reflexivity]].
    + intros k Hk. apply In_sort.
      now rewrite (mapKeys_published (fun e => omitService (snd e))) in Hk.
    + intros _ k v Hin _.
      rewrite (mapGet_published (fun e => omitService (snd e)) k (serviceIpRangesMap st)).
      now rewrite (In_mapGet_NoDup k v _ Hnd Hin).
Qed.

Lemma all_services_agrees_with_services_listing_witness :
  IpRangesService.getAllServiceIpRanges Sample.published (Some "global") =
    Return {| AllServicesIpRanges.syncToken := "1766626705";
              AllServicesIpRanges.lastUpdated := "2025-12-30T10:22:32.506Z";
              AllServicesIpRanges.services :=
                [("CLOUDFRONT",
                  {| ServiceIpRangesRest.ipv4_prefixes := [];
                     ServiceIpRangesRest.ipv6_prefixes := ["2600:9000:5206::/48"];
                     ServiceIpRangesRest.count :=
                       {| Count.ipv4 := 0; Count.ipv6 := 1 |} |})] |} /\
  In "CLOUDFRONT"
     (ServicesListResponse.services (IpRangesService.getServices Sample.published)).
Proof.
  split; [reflexivity|].
  apply (proj1 (all_services_agrees_with_services_listing Sample.published
                  (Some "global") _ Reachable_published eq_refl)).
  simpl. auto.
Defined.

(* ===================================================================== *)
(** * Letter case of the arguments *)
(* ===================================================================== *)

Lemma toUpperCase_empty (s : string) : toUpperCase s = "" <-> s = "".
Proof. destruct s; cbn [toUpperCase]; split; congruence. Qed.

Lemma regionGiven_sameName (r r' : string) :
  Literal.sameName r r' ->
  (regionGiven (Some r) = None /\ regionGiven (Some r') = None) \/
  (regionGiven (Some r) = Some r /\ regionGiven (Some r') = Some r').
Proof.
  unfold Literal.sameName, regionGiven. intros H.
  destruct (String.eqb_spec r "") as [->|Hr];
    destruct (String.eqb_spec r' "") as [->|Hr']; auto.
  - symmetry in H. apply (toUpperCase_empty r') in H. contradiction.
  - apply (toUpperCase_empty r) in H. contradiction.
Qed.

Lemma filterByServiceAndRegion_sameName (st : State) (s r r' : string) :
  Literal.sameName r r' ->
  filterByServiceAndRegion st s r = filterByServiceAndRegion st s r'.
Proof.
  unfold Literal.sameName, filterByServiceAndRegion. intros H. now rewrite H.
Qed.

Lemma addFiltered_sameName (st : State) (r r' : string) (keys : list string) :
  Literal.sameName r r' ->
  forall acc,
    fold_left (addFiltered st r) keys acc = fold_left (addFiltered st r') keys acc.
Proof.
  intros H. induction keys as [|k keys IH]; intros acc; cbn [fold_left].
  - reflexivity.
  - rewrite IH. f_equal. unfold addFiltered.
    now rewrite (filterByServiceAndRegion_sameName st (toUpperCase k) r r' H).
Qed.

Lemma append_same_suffix (a a' t : string) :
  String.append a t = String.append a' t -> a = a'.
Proof.
  intros H. apply (append_inj_length a a' t t); [|exact H].
  apply (f_equal String.length) in H. rewrite !length_append in H. lia.
Qed.

Lemma notFoundMessage_names (name name' : string) :
  IpRangesController.notFoundMessage name None =
    IpRangesController.notFoundMessage name' None ->
  name = name'.
Proof.
  unfold IpRangesController.notFoundMessage. cbn [regionGiven]. intros H.
  apply (append_inj_length "Service '" "Service '") in H as [_ H]; [|reflexivity].
  now apply append_same_suffix in H.
Qed.

(** X8.  Letter case of the arguments is insignificant to the service in
    every state: for service names equal up to case and regions equal up
    to case the two service methods return the same value, the
    all-services endpoint gives the same answer, and the service endpoint
    gives the same payload or an exception of the same kind.  The message
    of its [NotFoundException] quotes the arguments as they were given,
    so two spellings of a name get different messages. *)
Theorem letter_case_of_arguments_is_ignored :
  forall (st : State) (name name' r r' : string),
    Literal.sameName name name' ->
    Literal.sameName r r' ->
    IpRangesService.getServiceIpRanges st name None =
      IpRangesService.getServiceIpRanges st name' None /\
    IpRangesService.getServiceIpRanges st name (Some r) =
      IpRangesService.getServiceIpRanges st name' (Some r') /\
    IpRangesService.getAllServiceIpRanges st (Some r) =
      IpRangesService.getAllServiceIpRanges st (Some r') /\
    IpRangesController.getAllIpRanges st (Some r) =
      IpRangesController.getAllIpRanges st (Some r') /\
    SameUpToMessage (IpRangesController.getServiceIpRanges st name None)
      (IpRangesController.getServiceIpRanges st name' None) /\
    SameUpToMessage (IpRangesController.getServiceIpRanges st name (Some r))
      (IpRangesController.getServiceIpRanges st name' (Some r')) /\
    (forall region m,
       IpRangesController.getServiceIpRanges st name region =
         Throw (NotFoundException m) ->
       m = IpRangesController.notFoundMessage name region) /\
    (name <> name' ->
     IpRangesController.notFoundMessage name None <>
     IpRangesController.notFoundMessage name' None).
Proof.
  intros st name name' r r' Hname Hr.
  assert (Hplain : IpRangesService.getServiceIpRanges st name None =
                   IpRangesService.getServiceIpRanges st name' None).
  { unfold IpRangesService.getServiceIpRanges, Literal.sameName in *.
    now rewrite Hname. }
  assert (Hregion : IpRangesService.getServiceIpRanges st name (Some r) =
                    IpRangesService.getServiceIpRanges st name' (Some r')).
  { unfold IpRangesService.getServiceIpRanges, Literal.sameName in Hname |- *.
    rewrite Hname.
    destruct (regionGiven_sameName r r' Hr) as [[-> ->]|[-> ->]]; [reflexivity|].
    now rewrite (filterByServiceAndRegion_sameName st (toUpperCase name') r r' Hr). }
  assert (Hall : IpRangesService.getAllServiceIpRanges st (Some r) =
                 IpRangesService.getAllServiceIpRanges st (Some r')).
  { unfold IpRangesService.getAllServiceIpRanges.
    destruct (regionGiven_sameName r r' Hr) as [[-> ->]|[-> ->]]; [reflexivity|].
    now rewrite (addFiltered_sameName st r r' (mapKeys (serviceIpRangesMap st)) Hr). }
  assert (Hsame : forall region region',
             IpRangesService.getServiceIpRanges st name region =
             IpRangesService.getServiceIpRanges st name' region' ->
             SameUpToMessage (IpRangesController.getServiceIpRanges st name region)
               (IpRangesController.getServiceIpRanges st name' region')).
  { intros region region' E. unfold IpRangesController.getServiceIpRanges.
    rewrite E. destruct (IpRangesController.ensureDataLoaded st) as [[]|e];
      cbn [rbind SameUpToMessage]; [|now destruct e].
    destruct (IpRangesService.getServiceIpRanges st name' region') as [[v|]|e];
      cbn [rbind SameUpToMessage]; [reflexivity | exact I | now destruct e]. }
  split; [exact Hplain|]. split; [exact Hregion|]. split; [exact Hall|].
  split; [unfold IpRangesController.getAllIpRanges; now rewrite Hall|].
  split; [now apply Hsame|]. split; [now apply Hsame|]. split.
  - intros region m. unfold IpRangesController.getServiceIpRanges.
    destruct (IpRangesController.ensureDataLoaded st) as [[]|e] eqn:Eg; cbn [rbind].
    + destruct (IpRangesService.getServiceIpRanges st name region) as [[v|]|e] eqn:Es;
        cbn [rbind]; try discriminate.
      * now intros [= <-].
      * intros [= ->]. unfold IpRangesService.getServiceIpRanges in Es.
        destruct (regionGiven region) as [rg|];
          [destruct (truthy (ipRangesData st))|]; try discriminate.
        unfold filterByServiceAndRegion in Es.
        destruct (negb (truthy (ipRangesData st))); [discriminate|].
        destruct (iterable (bodyPrefixes (ipRangesData st))) as [ps|e] eqn:Ei;
          cbn [rbind] in Es.
        -- match type of Es with
           | (if ?c then _ else _) = _ => destruct c; discriminate
           end.
        -- unfold iterable in Ei.
           destruct (bodyPrefixes (ipRangesData st)); [discriminate|].
           injection Ei as <-. discriminate.
    + intros [= ->]. unfold IpRangesController.ensureDataLoaded in Eg.
      destruct (negb (isDataLoaded st)); discriminate.
  - intros Hne E. apply Hne. now apply notFoundMessage_names.
Qed.

Lemma letter_case_of_arguments_is_ignored_witness :
  SameUpToMessage
    (IpRangesController.getServiceIpRanges Sample.published "lambda" None)
    (IpRangesController.getServiceIpRanges Sample.published "LAMBDA" None) /\
  IpRangesController.notFoundMessage "lambda" None <>
    IpRangesController.notFoundMessage "LAMBDA" None.
Proof.
  destruct (letter_case_of_arguments_is_ignored Sample.published
              "lambda" "LAMBDA" "US-EAST-1" "us-east-1" eq_refl eq_refl)
    as (_ & _ & _ & _ & Hsame & _ & _ & Hmsg).
  split; [exact Hsame | apply Hmsg; discriminate].
Defined.

(* ===================================================================== *)
(** * Endpoints on a published document *)
(* ===================================================================== *)

(** X9.  Once a document is published, the three listing endpoints
    answer normally and carry the token of the document and the time of
    the refresh, and the service endpoint either answers or throws
    [NotFoundException] with the message that quotes the request. *)
Theorem loaded_endpoints_answer :
  forall (st : State) (doc : AWSIpRangesResponse.t),
    Loaded st doc ->
    exists now,
      lastUpdated st = Some now /\
      (exists l,
         IpRangesController.getServices st =
         Return {| ServicesListResponse.services := l;
                   ServicesListResponse.syncToken := syncTokenOrEmpty (BodyDoc doc);
                   ServicesListResponse.lastUpdated := now |}) /\
      (exists l,
         IpRangesController.getRegions st =
         Return {| RegionsListResponse.regions := l;
                   RegionsListResponse.syncToken := syncTokenOrEmpty (BodyDoc doc);
                   RegionsListResponse.lastUpdated := now |}) /\
      (forall region,
         exists m,
           IpRangesController.getAllIpRanges st region =
           Return {| AllServicesIpRanges.syncToken := syncTokenOrEmpty (BodyDoc doc);
                     AllServicesIpRanges.lastUpdated := now;
                     AllServicesIpRanges.services := m |}) /\
      (forall name region,
         IpRangesController.getServiceIpRanges st name region =
           Throw (NotFoundException (IpRangesController.notFoundMessage name region)) \/
         exists r, IpRangesController.getServiceIpRanges st name region = Return r).
Proof.
  intros st doc Hloaded.
  destruct (Loaded_index st doc Hloaded) as (ps & now & Hps & Hdata & Hlast & Hmap).
  assert (Hgate : IpRangesController.ensureDataLoaded st = Return tt).
  { unfold IpRangesController.ensureDataLoaded, isDataLoaded. now rewrite Hdata. }
  assert (Hstamp : lastUpdatedOrEmpty st = now).
  { unfold lastUpdatedOrEmpty. now rewrite Hlast. }
  exists now. split; [exact Hlast|]. split; [|split; [|split]].
  - unfold IpRangesController.getServices. rewrite Hgate. cbn [rbind].
    unfold IpRangesService.getServices. rewrite Hstamp, Hdata. eexists. reflexivity.
  - unfold IpRangesController.getRegions. rewrite Hgate. cbn [rbind].
    unfold IpRangesService.getRegions. rewrite Hstamp, Hdata.
    cbn [truthy bodyPrefixes bodyIpv6Prefixes]. rewrite Hps.
    cbn [iterable rbind]. eexists. reflexivity.
  - intros region. unfold IpRangesController.getAllIpRanges. rewrite Hgate.
    cbn [rbind]. unfold IpRangesService.getAllServiceIpRanges.
    rewrite Hstamp, Hdata. cbn [truthy].
    destruct (regionGiven region) as [rg|].
    + destruct (addFiltered_spec st doc ps rg Hdata Hps
                  (mapKeys (serviceIpRangesMap st)) [] [])
        as (l & Hl & _).
      { intros s. split; [intros [] | reflexivity]. }
      rewrite Hl. cbn [rbind]. eexists. reflexivity.
    + cbn [rbind]. eexists. reflexivity.
  - intros name region. unfold IpRangesController.getServiceIpRanges.
    rewrite Hgate. cbn [rbind].
    destruct (regionGiven region) as [rg|] eqn:Erg.
    + rewrite (getServiceIpRanges_region st doc name rg region Hdata Erg),
        (filterByServiceAndRegion_loaded st doc ps (toUpperCase name) rg Hdata Hps).
      destruct (regionIpv4 (toUpperCase name) rg ps);
        [destruct (regionIpv6 (toUpperCase name) rg (ipv6Records doc))|];
        cbn [rbind]; [now left | right; eexists; reflexivity ..].
    + rewrite (getServiceIpRanges_plain st name region Erg).
      destruct (firstByUpperKey (toUpperCase name) (serviceIpRangesMap st));
        cbn [rbind]; [right; eexists; reflexivity | now left].
Qed.

Lemma loaded_endpoints_answer_witness :
  exists now,
    lastUpdated Sample.published = Some now /\
    (exists l,
       IpRangesController.getServices Sample.published =
       Return {| ServicesListResponse.services := l;
                 ServicesListResponse.syncToken := "1766626705";
                 ServicesListResponse.lastUpdated := now |}).
Proof.
  destruct (loaded_endpoints_answer Sample.published
              (Sample.document [Sample.ec2East; Sample.ec2West] [Sample.cloudfront6])
              Loaded_published)
    as (now & Hlast & Hservices & _).
  exists now. split; [exact Hlast | exact Hservices].
Defined.

(* ===================================================================== *)
(** * The cache as a function of the responses *)
(* ===================================================================== *)

Lemma runRefreshes_app (a b : list (HttpOutcome * string)) (st : State) :
  runRefreshes (a ++ b) st = runRefreshes b (runRefreshes a st).
Proof. apply fold_left_app. Qed.

Lemma refresh_resolved_fields (st : State) (data : Body) (now : string) :
  ipRangesData (refresh st (Resolved data) now) = data /\
  lastUpdated (refresh st (Resolved data) now) = Some now.
Proof.
  destruct (bodyPrefixes data) as [ps|] eqn:E.
  - destruct data as [|s|d]; simpl in E; try discriminate.
    rewrite (proj1 (refresh_document st d now ps E)). split; reflexivity.
  - rewrite (proj1 (refresh_unusable st data now E)). split; reflexivity.
Qed.

Lemma rejected_tail (after : list (HttpOutcome * string)) (st : State) :
  Forall (fun c => fst c = Rejected) after -> runRefreshes after st = st.
Proof.
  revert st. induction after as [|[http now] after IH]; intros st H; simpl.
  - reflexivity.
  - inversion H as [|c l Hc Hl]; subst. simpl in Hc. subst http.
    rewrite (proj1 (refresh_rejected st now)). now apply IH.
Qed.

Lemma unusable_keeps_map (st : State) (http : HttpOutcome) (now : string) :
  Unusable http ->
  serviceIpRangesMap (refresh st http now) = serviceIpRangesMap st.
Proof.
  destruct http as [|data]; simpl; intros H.
  - now rewrite (proj1 (refresh_rejected st now)).
  - now rewrite (proj1 (refresh_unusable st data now H)).
Qed.

Lemma unusable_tail (after : list (HttpOutcome * string)) (st : State) :
  Forall (fun c => Unusable (fst c)) after ->
  serviceIpRangesMap (runRefreshes after st) = serviceIpRangesMap st.
Proof.
  revert st. induction after as [|[http now] after IH]; intros st H; simpl.
  - reflexivity.
  - inversion H as [|c l Hc Hl]; subst. simpl in Hc.
    rewrite (IH _ Hl). now apply unusable_keeps_map.
Qed.

(** X10.  The cache after a sequence of refresh cycles: when the cycles
    after some response were all rejected, [ipRangesData] and
    [lastUpdated] are the body and the time of that response, usable or
    not; when the cycles after a response with a prefix list were all
    failures, the per-service map is the grouping of that response; and
    cycles that all fail leave the map as it was. *)
Theorem cache_follows_last_responses :
  forall (before after : list (HttpOutcome * string)) (st0 : State),
    (forall data now,
       Forall (fun c => fst c = Rejected) after ->
       ipRangesData (runRefreshes (before ++ (Resolved data, now) :: after) st0) = data /\
       lastUpdated (runRefreshes (before ++ (Resolved data, now) :: after) st0) =
         Some now) /\
    (forall doc ps now,
       AWSIpRangesResponse.prefixes doc = Some ps ->
       Forall (fun c => Unusable (fst c)) after ->
       serviceIpRangesMap
         (runRefreshes (before ++ (Resolved (BodyDoc doc), now) :: after) st0) =
       rebuildMap (groupPrefixes ps (AWSIpRangesResponse.ipv6_prefixes doc))) /\
    (Forall (fun c => Unusable (fst c)) (before ++ after) ->
     serviceIpRangesMap (runRefreshes (before ++ after) st0) = serviceIpRangesMap st0).
Proof.
  intros before after st0. split; [|split].
  - intros data now Hafter. rewrite runRefreshes_app. cbn [runRefreshes fold_left fst snd].
    fold (runRefreshes after (refresh (runRefreshes before st0) (Resolved data) now)).
    rewrite (rejected_tail after _ Hafter). apply refresh_resolved_fields.
  - intros doc ps now Hps Hafter. rewrite runRefreshes_app.
    cbn [runRefreshes fold_left fst snd].
    fold (runRefreshes after
            (refresh (runRefreshes before st0) (Resolved (BodyDoc doc)) now)).
    rewrite (unusable_tail after _ Hafter).
    now rewrite (proj1 (refresh_document _ doc now ps Hps)).
  - intros H. now apply unusable_tail.
Qed.

Lemma cache_follows_last_responses_witness :
  serviceIpRangesMap
    (runRefreshes
       ([(Rejected, "2025-12-30T09:52:32.506Z")] ++
        (Resolved (BodyDoc (Sample.document [Sample.ec2East; Sample.ec2West]
                              [Sample.cloudfront6])),
         "2025-12-30T10:22:32.506Z")
        :: [(Resolved (BodyDoc Sample.noLists), "2025-12-30T10:52:32.506Z");
            (Rejected, "2025-12-30T11:22:32.506Z")])
       initial) =
  rebuildMap (groupPrefixes [Sample.ec2East; Sample.ec2West] (Some [Sample.cloudfront6])).
Proof.
  apply (proj1 (proj2 (cache_follows_last_responses
                         [(Rejected, "2025-12-30T09:52:32.506Z")]
                         [(Resolved (BodyDoc Sample.noLists), "2025-12-30T10:52:32.506Z");
                          (Rejected, "2025-12-30T11:22:32.506Z")]
                         initial))
           (Sample.document [Sample.ec2East; Sample.ec2West] [Sample.cloudfront6])
           [Sample.ec2East; Sample.ec2West]).
  - reflexivity.
  - repeat constructor.
Defined.

(** X11.  A refresh cycle logs success exactly when the response body
    is an object with a [prefixes] list, whether or not it has
    [ipv6_prefixes], and failure otherwise; when a response without that
    list did arrive, its body and the time are stored and the map is
    kept, and [isDataLoaded] is false afterwards only for a null body. *)
Theorem refresh_succeeds_iff_prefixes_present :
  forall (st : State) (http : HttpOutcome) (now : string),
    (refreshLog st http now = LogSuccess <->
     exists doc ps,
       http = Resolved (BodyDoc doc) /\ AWSIpRangesResponse.prefixes doc = Some ps) /\
    (refreshLog st http now = LogFailure <-> Unusable http) /\
    (forall data,
       http = Resolved data -> Unusable http ->
       refresh st http now = stored st data now /\
       (isDataLoaded (refresh st http now) = false <-> data = BodyNull)).
Proof.
  intros st http now.
  assert (Hcases : (refreshLog st http now = LogFailure /\ Unusable http /\
                    ~ exists doc ps,
                        http = Resolved (BodyDoc doc) /\
                        AWSIpRangesResponse.prefixes doc = Some ps) \/
                   (refreshLog st http now = LogSuccess /\ ~ Unusable http /\
                    exists doc ps,
                      http = Resolved (BodyDoc doc) /\
                      AWSIpRangesResponse.prefixes doc = Some ps)).
  { destruct http as [|data].
    - left. split; [reflexivity|]. split; [exact I|].
      intros (doc & ps & H & _). discriminate.
    - destruct (bodyPrefixes data) as [ps|] eqn:E.
      + destruct data as [|s|d]; simpl in E; try discriminate.
        right. split; [apply (refresh_document st d now ps E)|].
        split; [simpl; congruence | eauto].
      + left. split; [apply (refresh_unusable st data now E)|].
        split; [exact E|].
        intros (doc & ps & H & Hps). injection H as ->. simpl in E. congruence. }
  split; [|split].
  - destruct Hcases as [(Hlog & _ & Hno)|(Hlog & _ & Hyes)]; rewrite Hlog.
    + split; [discriminate | intros H; now destruct Hno].
    + split; [intros _; exact Hyes | reflexivity].
  - destruct Hcases as [(Hlog & Hun & _)|(Hlog & Hus & _)]; rewrite Hlog.
    + split; [intros _; exact Hun | reflexivity].
    + split; [discriminate | intros H; now destruct Hus].
  - intros data -> Hun. simpl in Hun.
    rewrite (proj1 (refresh_unusable st data now Hun)). split; [reflexivity|].
    unfold isDataLoaded, stored. cbn [ipRangesData].
    destruct data; split; congruence.
Qed.

Lemma refresh_succeeds_iff_prefixes_present_witness :
  refresh Sample.published (Resolved (BodyText "<html>")) "2025-12-30T10:52:32.506Z" =
    stored Sample.published (BodyText "<html>") "2025-12-30T10:52:32.506Z" /\
  (isDataLoaded
     (refresh Sample.published (Resolved (BodyText "<html>"))
        "2025-12-30T10:52:32.506Z") = false <->
   BodyText "<html>" = BodyNull).
Proof.
  apply (proj2 (proj2 (refresh_succeeds_iff_prefixes_present
                         Sample.published (Resolved (BodyText "<html>"))
                         "2025-12-30T10:52:32.506Z"))).
  - reflexivity.
  - reflexivity.
Defined.

(** X12.  In every reachable state whose cached body is a document with
    a prefix list, the per-service map is the grouping of that very
    document: body and map can disagree only while the body is
    unusable. *)
Theorem reachable_usable_body_is_loaded :
  forall (st : State) (doc : AWSIpRangesResponse.t) (ps : list IPPrefix.t),
    Reachable st ->
    ipRangesData st = BodyDoc doc ->
    AWSIpRangesResponse.prefixes doc = Some ps ->
    Loaded st doc /\
    serviceIpRangesMap st =
      rebuildMap (groupPrefixes ps (AWSIpRangesResponse.ipv6_prefixes doc)).
Proof.
  intros st doc ps [cycles ->]. revert doc ps.
  induction cycles as [|[http now] cycles IH] using rev_ind; intros doc ps Hdata Hps.
  - discriminate.
  - rewrite runRefreshes_app in *. cbn [runRefreshes fold_left fst snd] in *.
    destruct http as [|data].
    + rewrite (proj1 (refresh_rejected _ now)) in *. now apply IH.
    + rewrite (proj1 (refresh_resolved_fields _ data now)) in Hdata. subst data.
      split; [now apply (Loaded_intro _ doc now ps)|].
      now rewrite (proj1 (refresh_document _ doc now ps Hps)).
Qed.

Lemma reachable_usable_body_is_loaded_witness :
  Loaded Sample.published
    (Sample.document [Sample.ec2East; Sample.ec2West] [Sample.cloudfront6]) /\
  serviceIpRangesMap Sample.published =
    rebuildMap (groupPrefixes [Sample.ec2East; Sample.ec2West]
                  (AWSIpRangesResponse.ipv6_prefixes
                     (Sample.document [Sample.ec2East; Sample.ec2West]
                        [Sample.cloudfront6]))).
Proof.
  apply (reachable_usable_body_is_loaded Sample.published
           (Sample.document [Sample.ec2East; Sample.ec2West] [Sample.cloudfront6])
           [Sample.ec2East; Sample.ec2West]).
  - exact Reachable_published.
  - reflexivity.
  - reflexivity.
Defined.

(* ===================================================================== *)
(** * Queries in front of a body without a prefix list *)
(* ===================================================================== *)

(** X13.  While the cached body is truthy but has no prefix list, the
    regions endpoint, every service lookup with a region and every search
    for a text without a colon throw [TypeError]; the all-services
    endpoint with a region throws [TypeError] exactly when the map is not
    empty; the services endpoint and the queries without a region still
    answer from the map. *)
Theorem unusable_body_breaks_filtered_queries :
  forall st : State,
    truthy (ipRangesData st) = true ->
    bodyPrefixes (ipRangesData st) = None ->
    IpRangesController.getRegions st = Throw TypeError /\
    (forall name region rg,
       regionGiven region = Some rg ->
       IpRangesController.getServiceIpRanges st name region = Throw TypeError) /\
    (forall region rg,
       regionGiven region = Some rg ->
       (IpRangesController.getAllIpRanges st region = Throw TypeError <->
        serviceIpRangesMap st <> [])) /\
    (forall ip, includes ":" ip = false -> searchByIp st ip = Throw TypeError) /\
    IpRangesController.getServices st = Return (IpRangesService.getServices st) /\
    (forall name region,
       regionGiven region = None ->
       IpRangesController.getServiceIpRanges st name region =
       match firstByUpperKey (toUpperCase name) (serviceIpRangesMap st) with
       | Some r => Return r
       | None =>
           Throw (NotFoundException (IpRangesController.notFoundMessage name region))
       end) /\
    (forall region,
       regionGiven region = None ->
       exists all, IpRangesController.getAllIpRanges st region = Return all).
Proof.
  intros st Htruthy Hnone.
  assert (Hgate : IpRangesController.ensureDataLoaded st = Return tt).
  { unfold IpRangesController.ensureDataLoaded, isDataLoaded.
    destruct (ipRangesData st); [discriminate Htruthy | reflexivity ..]. }
  assert (Hfilter : forall s rg, filterByServiceAndRegion st s rg = Throw TypeError).
  { intros s rg. unfold filterByServiceAndRegion. now rewrite Htruthy, Hnone. }
  split; [|split; [|split; [|split; [|split; [|split]]]]].
  - unfold IpRangesController.getRegions, IpRangesService.getRegions.
    now rewrite Hgate, Htruthy, Hnone.
  - intros name region rg Erg.
    unfold IpRangesController.getServiceIpRanges, IpRangesService.getServiceIpRanges.
    now rewrite Hgate, Erg, Htruthy, Hfilter.
  - intros region rg Erg.
    unfold IpRangesController.getAllIpRanges, IpRangesService.getAllServiceIpRanges.
    rewrite Hgate, Erg, Htruthy. cbn [rbind].
    destruct (serviceIpRangesMap st) as [|[k v] m]; cbn [mapKeys map fst fold_left].
    + cbn [rbind]. split; [discriminate | intros H; now destruct H].
    + unfold addFiltered at 2. cbn [rbind]. rewrite Hfilter. cbn [rbind].
      rewrite addFiltered_Throw. cbn [rbind]. split; [discriminate | reflexivity].
  - intros ip Hno. unfold searchByIp. now rewrite Htruthy, Hno, Hnone.
  - unfold IpRangesController.getServices. now rewrite Hgate.
  - intros name region Erg. unfold IpRangesController.getServiceIpRanges.
    rewrite Hgate. cbn [rbind]. rewrite (getServiceIpRanges_plain st name region Erg).
    cbn [rbind]. reflexivity.
  - intros region Erg.
    unfold IpRangesController.getAllIpRanges, IpRangesService.getAllServiceIpRanges.
    rewrite Hgate, Erg. cbn [rbind]. eexists. reflexivity.
Qed.

Lemma unusable_body_breaks_filtered_queries_witness :
  IpRangesController.getRegions Sample.afterBadDocument = Throw TypeError /\
  searchByIp Sample.afterBadDocument "1.2.3.133" = Throw TypeError.
Proof.
  destruct (unusable_body_breaks_filtered_queries Sample.afterBadDocument
              eq_refl eq_refl)
    as (Hregions & _ & _ & Hsearch & _).
  split; [exact Hregions | apply Hsearch; reflexivity].
Defined.

(* ===================================================================== *)
(** * Runs of triggers and settlements *)
(* ===================================================================== *)

Lemma Reachable_refresh (st : State) (http : HttpOutcome) (now : string) :
  Reachable st -> Reachable (refresh st http now).
Proof.
  intros [cycles ->]. exists (cycles ++ [(http, now)]).
  now rewrite runRefreshes_app.
Qed.

Lemma startFetch_invariant (sys : System) :
  NoDup (pending sys) ->
  (forall id, In id (pending sys) -> (id < issued sys)%nat) ->
  NoDup (pending (startFetch sys)) /\
  (forall id, In id (pending (startFetch sys)) -> (id < issued (startFetch sys))%nat).
Proof.
  intros Hnd Hlt. cbn [startFetch pending issued]. split.
  - apply NoDup_app; [exact Hnd | repeat constructor; intros [] |].
    intros id Hin [<-|[]]. apply Hlt in Hin. lia.
  - intros id Hin. apply in_app_iff in Hin as [Hin|[<-|[]]]; [|lia].
    apply Hlt in Hin. lia.
Qed.

Lemma settle_invariant (id : nat) (http : HttpOutcome) (now : string) (sys : System) :
  NoDup (pending sys) ->
  (forall k, In k (pending sys) -> (k < issued sys)%nat) ->
  NoDup (pending (settle id http now sys)) /\
  (forall k, In k (pending (settle id http now sys)) ->
             (k < issued (settle id http now sys))%nat) /\
  issued (settle id http now sys) = issued sys.
Proof.
  intros Hnd Hlt. unfold settle.
  destruct (existsb (Nat.eqb id) (pending sys)); cbn [pending issued].
  - split; [now apply NoDup_filter|]. split; [|reflexivity].
    intros k Hin. apply filter_In in Hin as [Hin _]. now apply Hlt.
  - auto.
Qed.

(** X14.  In every run of triggers and settlements from start-up the
    cached state is one that refresh cycles can produce, the pending
    requests are pairwise distinct and were all issued, every trigger has
    issued exactly one request and no settlement has issued any. *)
Theorem every_run_keeps_requests_distinct :
  forall evs : list Event,
    Reachable (service (run evs boot)) /\
    NoDup (pending (run evs boot)) /\
    (forall id, In id (pending (run evs boot)) -> (id < issued (run evs boot))%nat) /\
    issued (run evs boot) = List.length (filter isTrigger evs) /\
    (inFlight (run evs boot) <= issued (run evs boot))%nat.
Proof.
  assert (G : forall evs sys,
             Reachable (service sys) ->
             NoDup (pending sys) ->
             (forall id, In id (pending sys) -> (id < issued sys)%nat) ->
             Reachable (service (run evs sys)) /\
             NoDup (pending (run evs sys)) /\
             (forall id, In id (pending (run evs sys)) ->
                         (id < issued (run evs sys))%nat) /\
             issued (run evs sys) =
               (issued sys + List.length (filter isTrigger evs))%nat).
  { induction evs as [|ev evs IH]; intros sys Hr Hnd Hlt.
    - cbn [run fold_left filter List.length]. repeat split; auto.
    - cbn [run fold_left]. fold (run evs (step sys ev)).
      destruct ev as [| |id http now]; cbn [step filter isTrigger List.length].
      + destruct (startFetch_invariant sys Hnd Hlt) as [Hnd' Hlt'].
        destruct (IH (onModuleInit sys) Hr Hnd' Hlt') as (H1 & H2 & H3 & H4).
        repeat split; auto. rewrite H4. cbn [onModuleInit startFetch issued]. lia.
      + destruct (startFetch_invariant sys Hnd Hlt) as [Hnd' Hlt'].
        destruct (IH (handleCron sys) Hr Hnd' Hlt') as (H1 & H2 & H3 & H4).
        repeat split; auto. rewrite H4. cbn [handleCron startFetch issued]. lia.
      + destruct (settle_invariant id http now sys Hnd Hlt) as (Hnd' & Hlt' & Hi).
        assert (Hr' : Reachable (service (settle id http now sys))).
        { unfold settle. destruct (existsb (Nat.eqb id) (pending sys));
            [now apply Reachable_refresh | exact Hr]. }
        destruct (IH (settle id http now sys) Hr' Hnd' Hlt') as (H1 & H2 & H3 & H4).
        repeat split; auto. now rewrite H4, Hi. }
  intros evs.
  destruct (G evs boot) as (H1 & H2 & H3 & H4).
  - exists []. reflexivity.
  - constructor.
  - intros id [].
  - split; [exact H1|]. split; [exact H2|]. split; [exact H3|].
    split; [exact H4|].
    unfold inFlight.
    assert (Hbound : forall (l : list nat) (n : nat),
               NoDup l -> (forall id, In id l -> (id < n)%nat) ->
               (List.length l <= n)%nat).
    { intros l n Hnd Hlt.
      rewrite <- (length_seq n 0). apply NoDup_incl_length; [exact Hnd|].
      intros id Hin. apply in_seq. apply Hlt in Hin. lia. }
    now apply Hbound.
Qed.

(** X15.  Responses are applied in order of arrival, not of issue: when
    an older request settles with a usable document after a newer request
    has settled, the cache holds the document and the time of the older
    request; the two requests leave the pending list and no other
    does. *)
Theorem last_settled_response_wins :
  forall (sys : System) (i j : nat) (doc_i : AWSIpRangesResponse.t)
         (ps_i : list IPPrefix.t) (body_j : HttpOutcome) (now_i now_j : string),
    In i (pending sys) -> In j (pending sys) -> (i < j)%nat ->
    AWSIpRangesResponse.prefixes doc_i = Some ps_i ->
    Loaded (service (settle i (Resolved (BodyDoc doc_i)) now_i
                       (settle j body_j now_j sys))) doc_i /\
    lastUpdated (service (settle i (Resolved (BodyDoc doc_i)) now_i
                            (settle j body_j now_j sys))) = Some now_i /\
    (forall k, In k (pending (settle i (Resolved (BodyDoc doc_i)) now_i
                               (settle j body_j now_j sys))) <->
               In k (pending sys) /\ k <> i /\ k <> j).
Proof.
  intros sys i j doc_i ps_i body_j now_i now_j Hi Hj Hlt Hps.
  destruct (settle_pending j body_j now_j sys Hj) as (Hs & Hgone & Hkeep).
  assert (Hi' : In i (pending (settle j body_j now_j sys))).
  { apply Hkeep; [lia | exact Hi]. }
  destruct (settle_pending i (Resolved (BodyDoc doc_i)) now_i _ Hi')
    as (Hs' & Hgone' & Hkeep').
  rewrite Hs'. split; [now apply (Loaded_intro _ doc_i now_i ps_i)|].
  split; [apply refresh_resolved_fields|].
  intros k. destruct (Nat.eq_dec k i) as [->|Hki].
  - split; [intros H; contradiction | intros (_ & H & _); contradiction].
  - rewrite (Hkeep' k Hki). destruct (Nat.eq_dec k j) as [->|Hkj].
    + split; [intros H; contradiction | intros (_ & _ & H); contradiction].
    + rewrite (Hkeep k Hkj). tauto.
Qed.

Lemma last_settled_response_wins_witness :
  Loaded (service
            (settle 0 (Resolved (BodyDoc (Sample.document [Sample.ec2East] [])))
               "2025-12-30T10:53:02.506Z"
               (settle 1 (Resolved (BodyDoc (Sample.document [Sample.ec2West] [])))
                  "2025-12-30T10:52:32.506Z" (run [ModuleInit; CronTick] boot))))
    (Sample.document [Sample.ec2East] []).
Proof.
  apply (proj1 (last_settled_response_wins (run [ModuleInit; CronTick] boot) 0 1
                  (Sample.document [Sample.ec2East] []) [Sample.ec2East]
                  (Resolved (BodyDoc (Sample.document [Sample.ec2West] [])))
                  "2025-12-30T10:53:02.506Z" "2025-12-30T10:52:32.506Z"
                  ltac:(simpl; auto) ltac:(simpl; auto) ltac:(lia) eq_refl)).
Defined.

(* ===================================================================== *)
(** * Searching among well-formed records *)
(* ===================================================================== *)

Lemma includes_char_absent (c : ascii) (s : string) :
  Every (fun x => x <> c) s -> includes (String c EmptyString) s = false.
Proof.
  induction s as [|x s IH]; intros H.
  - reflexivity.
  - destruct H as [Hx Hs]. cbn [includes]. rewrite prefix_cons, (IH Hs).
    destruct (Ascii.eqb_spec c x); [congruence | reflexivity].
Qed.

Lemma Ipv4Text_no_colon (s : string) (a : Z) :
  Literal.Ipv4Text s a -> includes ":" s = false.
Proof.
  intros H. apply includes_char_absent.
  destruct H as [o1 o2 o3 o4 v1 v2 v3 v4 H1 H2 H3 H4].
  apply Octet_parse in H1 as (_ & P1 & _). apply Octet_parse in H2 as (_ & P2 & _).
  apply Octet_parse in H3 as (_ & P3 & _). apply Octet_parse in H4 as (_ & P4 & _).
  apply Every_join.
  - split; [discriminate | exact I].
  - repeat constructor; apply (Every_plain_not ":"); auto.
Qed.

Lemma inside4_unfold (ip : string) (rec : IPPrefix.t) :
  inside4 ip rec = isIpv4InCidr ip (IPPrefix.ip_prefix rec).
Proof. unfold inside4. reflexivity. Qed.

Lemma found_iff_matches (ip : string) (matches : list IpSearchMatch.t) :
  IpSearchResult.found (searchResult ip matches) = true <-> exists m, In m matches.
Proof.
  unfold searchResult. cbn [IpSearchResult.found].
  destruct matches as [|m l]; cbn [List.length Nat.ltb Nat.leb].
  - split; [discriminate | intros [m []]].
  - split; [intros _; exists m; now left | reflexivity].
Qed.

(** X16.  On a published document whose IPv4 records all carry
    well-formed CIDR texts, the search for a dotted-decimal address
    returns exactly the records whose range agrees with the address on
    its top [len] bits, echoes the address, and sets [found] exactly when
    there is a match. *)
Theorem search_ipv4_finds_covering_records :
  forall (st : State) (doc : AWSIpRangesResponse.t) (ps : list IPPrefix.t)
         (ip : string) (a : Z),
    Loaded st doc ->
    AWSIpRangesResponse.prefixes doc = Some ps ->
    Literal.Ipv4Text ip a ->
    (forall rec, In rec ps ->
       exists base len,
         Literal.CidrText Literal.Ipv4Text 32 (IPPrefix.ip_prefix rec) base len) ->
    exists res,
      searchByIp st ip = Return res /\
      IpSearchResult.ip res = ip /\
      (forall m,
         In m (IpSearchResult.matches res) <->
         exists rec base len,
           In rec ps /\ m = match4 rec /\
           Literal.CidrText Literal.Ipv4Text 32 (IPPrefix.ip_prefix rec) base len /\
           Literal.sameTopBits 32 len a base) /\
      (IpSearchResult.found res = true <->
       exists m, In m (IpSearchResult.matches res)).
Proof.
  intros st doc ps ip a Hloaded Hps Hip Hvalid.
  destruct (Loaded_index st doc Hloaded) as (ps' & now & Hps' & Hdata & _).
  assert (ps' = ps) by congruence. subst ps'. clear Hps'.
  destruct (searchByIp_loaded st doc ps ip Hdata Hps) as [H4 _].
  rewrite (H4 (Ipv4Text_no_colon ip a Hip)).
  eexists. split; [reflexivity|]. split; [reflexivity|]. split.
  - intros m. cbn [searchResult IpSearchResult.matches]. rewrite in_map_iff. split.
    + intros (rec & <- & Hin). apply filter_In in Hin as [Hin Hinside].
      destruct (Hvalid rec Hin) as (base & len & Hcidr).
      rewrite inside4_unfold in Hinside.
      exists rec, base, len. split; [exact Hin|]. split; [reflexivity|].
      split; [exact Hcidr|].
      exact (proj1 (isIpv4InCidr_top_bits ip (IPPrefix.ip_prefix rec) a base len
                      Hip Hcidr) Hinside).
    + intros (rec & base & len & Hin & -> & Hcidr & Hsame).
      exists rec. split; [reflexivity|]. apply filter_In. split; [exact Hin|].
      rewrite inside4_unfold.
      exact (proj2 (isIpv4InCidr_top_bits ip (IPPrefix.ip_prefix rec) a base len
                      Hip Hcidr) Hsame).
  - apply found_iff_matches.
Qed.

Lemma sample_records4 (rec : IPPrefix.t) :
  In rec [Sample.ec2East; Sample.ec2West] ->
  exists base len,
    Literal.CidrText Literal.Ipv4Text 32 (IPPrefix.ip_prefix rec) base len.
Proof.
  intros [<-|[<-|[]]].
  - exists 16909056, 24.
    apply (Literal.CidrSlash Literal.Ipv4Text 32 "1.2.3.0" "24" 16909056 24).
    + apply (Literal.Ipv4Dotted "1" "2" "3" "0" 1 2 3 0);
        (split; [split; [discriminate | eexists; split; reflexivity] | lia]).
    + split; [discriminate | eexists; split; reflexivity].
    + lia.
  - exists 16909312, 24.
    apply (Literal.CidrSlash Literal.Ipv4Text 32 "1.2.4.0" "24" 16909312 24).
    + apply (Literal.Ipv4Dotted "1" "2" "4" "0" 1 2 4 0);
        (split; [split; [discriminate | eexists; split; reflexivity] | lia]).
    + split; [discriminate | eexists; split; reflexivity].
    + lia.
Qed.

Lemma search_ipv4_finds_covering_records_witness :
  exists res,
    searchByIp Sample.published "1.2.3.133" = Return res /\
    IpSearchResult.ip res = "1.2.3.133" /\
    (forall m,
       In m (IpSearchResult.matches res) <->
       exists rec base len,
         In rec [Sample.ec2East; Sample.ec2West] /\ m = match4 rec /\
         Literal.CidrText Literal.Ipv4Text 32 (IPPrefix.ip_prefix rec) base len /\
         Literal.sameTopBits 32 len 16909189 base) /\
    (IpSearchResult.found res = true <->
     exists m, In m (IpSearchResult.matches res)).
Proof.
  apply (search_ipv4_finds_covering_records Sample.published
           (Sample.document [Sample.ec2East; Sample.ec2West] [Sample.cloudfront6])
           [Sample.ec2East; Sample.ec2West] "1.2.3.133" 16909189).
  - exact Loaded_published.
  - reflexivity.
  - exact sample_address4.
  - exact sample_records4.
Defined.

Lemma scan6_valid (ip : string) (a : Z) (qs : list IPv6Prefix.t) :
  Literal.Ipv6Text ip a ->
  (forall rec, In rec qs ->
     exists base len,
       Literal.CidrText Literal.Ipv6Text 128 (IPv6Prefix.ipv6_prefix rec) base len) ->
  forall acc,
    fold_left (scan6 ip) qs (Return acc) =
    Return (acc ++ map match6 (filter (inside6 ip) qs)).
Proof.
  intros Hip. induction qs as [|q qs IH]; intros Hvalid acc.
  - simpl. now rewrite app_nil_r.
  - destruct (Hvalid q (or_introl eq_refl)) as (base & len & Hcidr).
    destruct (isIpv6InCidr_top_bits ip (IPv6Prefix.ipv6_prefix q) a base len Hip Hcidr)
      as (inside & Hin & _).
    assert (Hq : inside6 ip q = inside) by (unfold inside6; rewrite Hin; now destruct inside).
    cbn [fold_left filter]. rewrite Hq. unfold scan6 at 2. cbn [rbind].
    rewrite Hin. cbn [rbind].
    rewrite IH by (intros rec Hrec; apply Hvalid; now right).
    destruct inside; cbn [map]; [now rewrite <- app_assoc | reflexivity].
Qed.

(** X17.  On a published document whose IPv6 records all carry
    well-formed CIDR texts, the search for a colon-hexadecimal address
    does not throw and returns exactly the records whose range agrees
    with the address on its top [len] bits. *)
Theorem search_ipv6_finds_covering_records :
  forall (st : State) (doc : AWSIpRangesResponse.t) (ps : list IPPrefix.t)
         (ip : string) (a : Z),
    Loaded st doc ->
    AWSIpRangesResponse.prefixes doc = Some ps ->
    Literal.Ipv6Text ip a ->
    (forall rec, In rec (ipv6Records doc) ->
       exists base len,
         Literal.CidrText Literal.Ipv6Text 128 (IPv6Prefix.ipv6_prefix rec) base len) ->
    exists res,
      searchByIp st ip = Return res /\
      IpSearchResult.ip res = ip /\
      (forall m,
         In m (IpSearchResult.matches res) <->
         exists rec base len,
           In rec (ipv6Records doc) /\ m = match6 rec /\
           Literal.CidrText Literal.Ipv6Text 128 (IPv6Prefix.ipv6_prefix rec) base len /\
           Literal.sameTopBits 128 len a base) /\
      (IpSearchResult.found res = true <->
       exists m, In m (IpSearchResult.matches res)).
Proof.
  intros st doc ps ip a Hloaded Hps Hip Hvalid.
  destruct (Loaded_index st doc Hloaded) as (ps' & now & Hps' & Hdata & _).
  assert (Hsearch : searchByIp st ip =
                    Return (searchResult ip
                              (map match6 (filter (inside6 ip) (ipv6Records doc))))).
  { unfold searchByIp. rewrite Hdata. cbn [truthy negb bodyIpv6Prefixes].
    rewrite (Ipv6Text_has_colon ip a Hip). unfold ipv6Records in *.
    destruct (AWSIpRangesResponse.ipv6_prefixes doc) as [qs|].
    - now rewrite (scan6_valid ip a qs Hip Hvalid []).
    - reflexivity. }
  rewrite Hsearch. eexists. split; [reflexivity|]. split; [reflexivity|]. split.
  - intros m. cbn [searchResult IpSearchResult.matches]. rewrite in_map_iff. split.
    + intros (rec & <- & Hin). apply filter_In in Hin as [Hin Hinside].
      destruct (Hvalid rec Hin) as (base & len & Hcidr).
      exists rec, base, len. split; [exact Hin|]. split; [reflexivity|].
      split; [exact Hcidr|].
      destruct (isIpv6InCidr_top_bits ip (IPv6Prefix.ipv6_prefix rec) a base len Hip Hcidr)
        as (inside & Hret & Hiff).
      unfold inside6 in Hinside. rewrite Hret in Hinside.
      apply Hiff. now destruct inside.
    + intros (rec & base & len & Hin & -> & Hcidr & Hsame).
      exists rec. split; [reflexivity|]. apply filter_In. split; [exact Hin|].
      destruct (isIpv6InCidr_top_bits ip (IPv6Prefix.ipv6_prefix rec) a base len Hip Hcidr)
        as (inside & Hret & Hiff).
      unfold inside6. rewrite Hret. apply Hiff in Hsame. now subst inside.
  - apply found_iff_matches.
Qed.

Lemma sample_records6 (rec : IPv6Prefix.t) :
  In rec (ipv6Records
            (Sample.document [Sample.ec2East; Sample.ec2West] [Sample.cloudfront6])) ->
  exists base len,
    Literal.CidrText Literal.Ipv6Text 128 (IPv6Prefix.ipv6_prefix rec) base len.
Proof.
  intros [<-|[]].
  exists (Literal.groupsValue [9728; 36864; 20998; 0; 0; 0; 0; 0]), 48.
  apply (Literal.CidrSlash Literal.Ipv6Text 128 "2600:9000:5206::" "48"
           (Literal.groupsValue [9728; 36864; 20998; 0; 0; 0; 0; 0]) 48).
  - apply (Literal.Ipv6Compressed ["2600"; "9000"; "5206"] []
             [9728; 36864; 20998] []).
    + simpl. lia.
    + repeat constructor; try discriminate; try (simpl; lia);
        eexists; split; reflexivity.
    + constructor.
  - split; [discriminate | eexists; split; reflexivity].
  - lia.
Qed.

Lemma search_ipv6_finds_covering_records_witness :
  exists res,
    searchByIp Sample.published "2600:9000:5207:1::5" = Return res /\
    IpSearchResult.ip res = "2600:9000:5207:1::5" /\
    (forall m,
       In m (IpSearchResult.matches res) <->
       exists rec base len,
         In rec (ipv6Records
                   (Sample.document [Sample.ec2East; Sample.ec2West]
                      [Sample.cloudfront6])) /\
         m = match6 rec /\
         Literal.CidrText Literal.Ipv6Text 128 (IPv6Prefix.ipv6_prefix rec) base len /\
         Literal.sameTopBits 128 len
           (Literal.groupsValue [9728; 36864; 20999; 1; 0; 0; 0; 5]) base) /\
    (IpSearchResult.found res = true <->
     exists m, In m (IpSearchResult.matches res)).
Proof.
  apply (search_ipv6_finds_covering_records Sample.published
           (Sample.document [Sample.ec2East; Sample.ec2West] [Sample.cloudfront6])
           [Sample.ec2East; Sample.ec2West] "2600:9000:5207:1::5"
           (Literal.groupsValue [9728; 36864; 20999; 1; 0; 0; 0; 5])).
  - exact Loaded_published.
  - reflexivity.
  - exact sample_address6.
  - exact sample_records6.
Defined.

(* ===================================================================== *)
(** * When the search throws *)
(* ===================================================================== *)

(** X18.  On a published document the search for a text without a colon
    always returns; the search for a text with a colon throws a
    [RangeError] exactly when the containment check throws for some IPv6
    record, and returns the accepted records when no check throws; when
    the text itself cannot be expanded, the search throws exactly when the
    document has an IPv6 record. *)
Theorem search_throws_iff_a_check_throws :
  forall (st : State) (doc : AWSIpRangesResponse.t) (ps : list IPPrefix.t)
         (ip : string),
    Loaded st doc ->
    AWSIpRangesResponse.prefixes doc = Some ps ->
    (includes ":" ip = false -> exists res, searchByIp st ip = Return res) /\
    (includes ":" ip = true ->
     (searchByIp st ip = Throw RangeError <->
      exists rec, In rec (ipv6Records doc) /\
                  isIpv6InCidr ip (IPv6Prefix.ipv6_prefix rec) = Throw RangeError) /\
     ((forall rec, In rec (ipv6Records doc) ->
         exists b, isIpv6InCidr ip (IPv6Prefix.ipv6_prefix rec) = Return b) ->
      searchByIp st ip =
        Return (searchResult ip (map match6 (filter (inside6 ip) (ipv6Records doc))))) /\
     (expandIpv6 ip = Throw RangeError ->
      (searchByIp st ip = Throw RangeError <-> ipv6Records doc <> []))).
Proof.
  intros st doc ps ip Hloaded Hps.
  destruct (Loaded_index st doc Hloaded) as (ps' & now & Hps' & Hdata & _).
  assert (ps' = ps) by congruence. subst ps'. clear Hps'.
  split.
  - intros Hno. destruct (searchByIp_loaded st doc ps ip Hdata Hps) as [H4 _].
    rewrite (H4 Hno). eexists. reflexivity.
  - intros Hyes.
    assert (Hsearch : searchByIp st ip =
                      rbind (fold_left (scan6 ip) (ipv6Records doc) (Return []))
                        (fun matches => Return (searchResult ip matches))).
    { unfold searchByIp. rewrite Hdata. cbn [truthy negb bodyIpv6Prefixes].
      rewrite Hyes. unfold ipv6Records.
      destruct (AWSIpRangesResponse.ipv6_prefixes doc); reflexivity. }
    destruct (scan6_outcome ip (ipv6Records doc) []) as [Hiff Hall].
    assert (Hthrow : searchByIp st ip = Throw RangeError <->
                     fold_left (scan6 ip) (ipv6Records doc) (Return []) =
                     Throw RangeError).
    { rewrite Hsearch.
      destruct (fold_left (scan6 ip) (ipv6Records doc) (Return [])); cbn [rbind];
        split; congruence. }
    split; [|split].
    + now rewrite Hthrow.
    + intros Hvalid. rewrite Hsearch, (Hall Hvalid). reflexivity.
    + intros Hexp. rewrite Hthrow, Hiff. split.
      * intros (rec & Hin & _) E. rewrite E in Hin. destruct Hin.
      * intros Hne. destruct (ipv6Records doc) as [|q qs]; [contradiction|].
        exists q. split; [now left|]. unfold isIpv6InCidr. now rewrite Hexp.
Qed.

Lemma search_throws_iff_a_check_throws_witness :
  searchByIp Sample.published "1:2:3:4:5::6:7:8:9" = Throw RangeError <->
  ipv6Records (Sample.document [Sample.ec2East; Sample.ec2West] [Sample.cloudfront6])
    <> [].
Proof.
  apply (proj2 (search_throws_iff_a_check_throws Sample.published
                  (Sample.document [Sample.ec2East; Sample.ec2West]
                     [Sample.cloudfront6])
                  [Sample.ec2East; Sample.ec2West] "1:2:3:4:5::6:7:8:9"
                  Loaded_published eq_refl)).
  - vm_compute. reflexivity.
  - vm_compute. reflexivity.
Defined.

(* ===================================================================== *)
(** * Nesting of ranges, and ranges without a length *)
(* ===================================================================== *)

Lemma sameTopBits_shorter (width len len' x y : Z) :
  0 <= len' <= len -> len <= width ->
  Literal.sameTopBits width len x y -> Literal.sameTopBits width len' x y.
Proof.
  unfold Literal.sameTopBits. intros Hlen Hw H.
  replace (width - len') with ((width - len) + (len - len')) by lia.
  rewrite <- !Z.shiftr_shiftr by lia. now rewrite H.
Qed.

(** X19.  Ranges nest: an address inside [range/len] is inside
    [range/len'] for every shorter length [len'], and the base text of a
    range is inside the range; for both families. *)
Theorem shorter_prefix_contains_longer :
  (forall (ip range bits bits' : string) (a base len len' : Z),
     Literal.Ipv4Text ip a -> Literal.Ipv4Text range base ->
     Literal.numeral Literal.decDigit 10 bits len ->
     Literal.numeral Literal.decDigit 10 bits' len' ->
     len' <= len -> len <= 32 ->
     isIpv4InCidr ip (String.append range (String "/" bits)) = true ->
     isIpv4InCidr ip (String.append range (String "/" bits')) = true) /\
  (forall (range bits : string) (base len : Z),
     Literal.Ipv4Text range base ->
     Literal.numeral Literal.decDigit 10 bits len -> len <= 32 ->
     isIpv4InCidr range (String.append range (String "/" bits)) = true) /\
  (forall (ip range bits bits' : string) (a base len len' : Z),
     Literal.Ipv6Text ip a -> Literal.Ipv6Text range base ->
     Literal.numeral Literal.decDigit 10 bits len ->
     Literal.numeral Literal.decDigit 10 bits' len' ->
     len' <= len -> len <= 128 ->
     isIpv6InCidr ip (String.append range (String "/" bits)) = Return true ->
     isIpv6InCidr ip (String.append range (String "/" bits')) = Return true) /\
  (forall (range bits : string) (base len : Z),
     Literal.Ipv6Text range base ->
     Literal.numeral Literal.decDigit 10 bits len -> len <= 128 ->
     isIpv6InCidr range (String.append range (String "/" bits)) = Return true).
Proof.
  split; [|split; [|split]].
  - intros ip range bits bits' a base len len' Hip Hr Hb Hb' Hle Hw Hin.
    destruct (prefix_length_parse bits' len' Hb') as (_ & _ & Hpos).
    apply (isIpv4InCidr_top_bits ip _ a base len' Hip
             (Literal.CidrSlash Literal.Ipv4Text 32 range bits' base len' Hr Hb'
                ltac:(lia))).
    apply (sameTopBits_shorter 32 len len'); [lia | lia |].
    now apply (isIpv4InCidr_top_bits ip _ a base len Hip
                 (Literal.CidrSlash Literal.Ipv4Text 32 range bits base len Hr Hb Hw)).
  - intros range bits base len Hr Hb Hw.
    apply (isIpv4InCidr_top_bits range _ base base len Hr
             (Literal.CidrSlash Literal.Ipv4Text 32 range bits base len Hr Hb Hw)).
    reflexivity.
  - intros ip range bits bits' a base len len' Hip Hr Hb Hb' Hle Hw Hin.
    destruct (prefix_length_parse bits' len' Hb') as (_ & _ & Hpos).
    destruct (isIpv6InCidr_top_bits ip _ a base len' Hip
                (Literal.CidrSlash Literal.Ipv6Text 128 range bits' base len' Hr Hb'
                   ltac:(lia)))
      as (inside' & Hret' & Hiff').
    destruct (isIpv6InCidr_top_bits ip _ a base len Hip
                (Literal.CidrSlash Literal.Ipv6Text 128 range bits base len Hr Hb Hw))
      as (inside & Hret & Hiff).
    rewrite Hret'. f_equal. apply Hiff'.
    apply (sameTopBits_shorter 128 len len'); [lia | lia |].
    apply Hiff. congruence.
  - intros range bits base len Hr Hb Hw.
    destruct (isIpv6InCidr_top_bits range _ base base len Hr
                (Literal.CidrSlash Literal.Ipv6Text 128 range bits base len Hr Hb Hw))
      as (inside & Hret & Hiff).
    rewrite Hret. f_equal. now apply Hiff.
Qed.

Lemma sample_length (bits : string) (len : Z) (ds : list Z) :
  bits <> EmptyString ->
  Literal.digitsOf Literal.decDigit bits = Some ds ->
  Literal.positional 10 ds = len ->
  Literal.numeral Literal.decDigit 10 bits len.
Proof. intros Hne Hds Hv. split; [exact Hne|]. now exists ds. Qed.

Lemma sample_range4 : Literal.Ipv4Text "1.2.3.0" 16909056.
Proof.
  apply (Literal.Ipv4Dotted "1" "2" "3" "0" 1 2 3 0);
    (split; [split; [discriminate | eexists; split; reflexivity] | lia]).
Qed.

Lemma shorter_prefix_contains_longer_witness :
  isIpv4InCidr "1.2.3.133" "1.2.3.0/16" = true.
Proof.
  apply (proj1 shorter_prefix_contains_longer "1.2.3.133" "1.2.3.0" "24" "16"
           16909189 16909056 24 16 sample_address4 sample_range4).
  - apply (sample_length "24" 24 [2; 4]); [discriminate | reflexivity | reflexivity].
  - apply (sample_length "16" 16 [1; 6]); [discriminate | reflexivity | reflexivity].
  - lia.
  - lia.
  - vm_compute. reflexivity.
Defined.

Lemma wrapInt32_eqb (a c : Z) :
  0 <= a < 2 ^ 32 -> 0 <= c < 2 ^ 32 ->
  (wrapInt32 a =? wrapInt32 c) = (a =? c).
Proof.
  intros Ha Hc.
  assert (E : 2 ^ 32 = 4294967296) by reflexivity.
  assert (E' : 2 ^ 31 = 2147483648) by reflexivity.
  destruct (Z.eqb_spec a c) as [->|Hne]; [apply Z.eqb_refl|].
  apply Z.eqb_neq.
  destruct (wrapInt32_cases a Ha) as [[La ->]|[La ->]];
    destruct (wrapInt32_cases c Hc) as [[Lc ->]|[Lc ->]]; lia.
Qed.

Lemma ipv4ToNumber_range (s : string) : 0 <= ipv4ToNumber s < 2 ^ 32.
Proof. unfold ipv4ToNumber, toUint32. apply Z.mod_pos_bound. reflexivity. Qed.

Lemma no_slash_split (cidr : string) :
  Every (fun x => x <> "/"%char) cidr ->
  cidrRange cidr = cidr /\ cidrBits cidr = None.
Proof.
  intros H. unfold cidrRange, cidrBits. cbn [split].
  rewrite (splitFrom_char_plain "/" cidr H). split; reflexivity.
Qed.

(** X20.  A range text without a slash has no prefix length, and
    [parseInt] of the missing piece is [NaN].  Whenever the length is
    [NaN], the IPv4 check compares all 32 bits of the two packed numbers,
    and the IPv6 check accepts every address as soon as both texts
    expand. *)
Theorem range_without_prefix_length :
  forall ip cidr : string,
    (Every (fun x => x <> "/"%char) cidr ->
     cidrRange cidr = cidr /\ parseIntOpt (cidrBits cidr) 10 = NaN) /\
    (parseIntOpt (cidrBits cidr) 10 = NaN ->
     isIpv4InCidr ip cidr = (ipv4ToNumber ip =? ipv4ToNumber (cidrRange cidr)) /\
     isIpv6InCidr ip cidr =
       rbind (expandIpv6 ip) (fun _ =>
         rbind (expandIpv6 (cidrRange cidr)) (fun _ => Return true))).
Proof.
  intros ip cidr. split.
  - intros H. destruct (no_slash_split cidr H) as [-> ->]. split; reflexivity.
  - intros Hnan. split.
    + unfold isIpv4InCidr, cidrMask. rewrite Hnan. unfold band.
      change (Z.lnot 0) with (-1). rewrite !Z.land_m1_r.
      apply wrapInt32_eqb; apply ipv4ToNumber_range.
    + unfold isIpv6InCidr. rewrite Hnan.
      destruct (expandIpv6 ip); [|reflexivity]. cbn [rbind].
      destruct (expandIpv6 (cidrRange cidr)); reflexivity.
Qed.

Lemma range_without_prefix_length_witness :
  isIpv4InCidr "1.2.3.133" "1.2.3.0" =
    (ipv4ToNumber "1.2.3.133" =? ipv4ToNumber (cidrRange "1.2.3.0")) /\
  isIpv6InCidr "1.2.3.133" "1.2.3.0" =
    rbind (expandIpv6 "1.2.3.133") (fun _ =>
      rbind (expandIpv6 (cidrRange "1.2.3.0")) (fun _ => Return true)).
Proof.
  apply (proj2 (range_without_prefix_length "1.2.3.133" "1.2.3.0")).
  vm_compute. reflexivity.
Defined.

(* ===================================================================== *)
(** * Prefix lengths outside the width *)
(* ===================================================================== *)

Lemma substring_whole (n : nat) (s : string) :
  (String.length s <= n)%nat -> String.substring 0 n s = s.
Proof.
  revert n. induction s as [|c s IH]; intros n H.
  - now destruct n.
  - destruct n as [|n]; cbn [String.length] in H; [lia|].
    cbn [String.substring]. rewrite IH by lia. reflexivity.
Qed.

Lemma substring_none (s : string) : String.substring 0 0 s = EmptyString.
Proof. now destruct s. Qed.

Lemma binaryBE_eqb (w : nat) (x y : Z) :
  0 <= x < 2 ^ Z.of_nat w -> 0 <= y < 2 ^ Z.of_nat w ->
  String.eqb (binaryBE w x) (binaryBE w y) = (x =? y).
Proof.
  intros Hx Hy. destruct (Z.eqb_spec x y) as [->|Hne].
  - apply String.eqb_refl.
  - apply String.eqb_neq. intros E. apply Hne. now apply (binaryBE_inj w).
Qed.

(** X21.  IPv6 prefix lengths outside the width: for two address texts
    and a length text that [parseInt] reads as [n], a length of 128 or
    more makes [isIpv6InCidr] compare all 128 bits, and a length of 0 or
    less makes it accept every address. *)
Theorem prefix_length_outside_width :
  forall (ip range bits : string) (a base n : Z),
    Literal.Ipv6Text ip a -> Literal.Ipv6Text range base ->
    Every (fun x => x <> "/"%char) bits ->
    parseInt bits 10 = Num n ->
    (128 <= n ->
     isIpv6InCidr ip (String.append range (String "/" bits)) = Return (a =? base)) /\
    (n <= 0 ->
     isIpv6InCidr ip (String.append range (String "/" bits)) = Return true).
Proof.
  intros ip range bits a base n Hip Hr Hbits Hparse.
  destruct (cidr_split range bits (Ipv6Text_no_slash range base Hr) Hbits)
    as [Er Ebits].
  destruct (expandIpv6_text ip a Hip) as (gi & vi & Xi & Gi & Li & ->).
  destruct (expandIpv6_text range base Hr) as (gr & vr & Xr & Gr & Lr & ->).
  destruct (ipv6ToBinary_groups gi vi Gi Li) as [Bi Ri].
  destruct (ipv6ToBinary_groups gr vr Gr Lr) as [Br Rr].
  unfold isIpv6InCidr. rewrite Er, Ebits. cbn [parseIntOpt].
  rewrite Hparse, Xi. cbn [rbind]. rewrite Xr. cbn [rbind].
  rewrite Bi, Br. unfold substring0. split.
  - intros Hn. rewrite !substring_whole by (rewrite length_binaryBE; lia).
    f_equal. now apply binaryBE_eqb.
  - intros Hn. replace (Z.to_nat n) with 0%nat by lia.
    now rewrite !substring_none.
Qed.

Lemma sample_range6 :
  Literal.Ipv6Text "2600:9000:5206::"
    (Literal.groupsValue [9728; 36864; 20998; 0; 0; 0; 0; 0]).
Proof.
  apply (Literal.Ipv6Compressed ["2600"; "9000"; "5206"] []
           [9728; 36864; 20998] []).
  - simpl. lia.
  - repeat constructor; try discriminate; try (simpl; lia);
      eexists; split; reflexivity.
  - constructor.
Qed.

Lemma prefix_length_outside_width_witness :
  isIpv6InCidr "2600:9000:5207:1::5" "2600:9000:5206::/200" =
    Return (Literal.groupsValue [9728; 36864; 20999; 1; 0; 0; 0; 5] =?
            Literal.groupsValue [9728; 36864; 20998; 0; 0; 0; 0; 0]).
Proof.
  apply (proj1 (prefix_length_outside_width "2600:9000:5207:1::5" "2600:9000:5206::"
                  "200" (Literal.groupsValue [9728; 36864; 20999; 1; 0; 0; 0; 5])
                  (Literal.groupsValue [9728; 36864; 20998; 0; 0; 0; 0; 0]) 200
                  sample_address6 sample_range6
                  ltac:(repeat split; discriminate) ltac:(vm_compute; reflexivity))).
  lia.
Defined.

(* ===================================================================== *)
(** * Dotted texts with missing, surplus or large parts *)
(* ===================================================================== *)

Lemma missing_part (k : Z) :
  shl NaN k = shl (Num 0) k /\ toInt32 NaN = toInt32 (Num 0).
Proof.
  assert (E : wrapInt32 0 = 0) by (apply wrapInt32_small; lia).
  unfold shl, toInt32. rewrite E. split; reflexivity.
Qed.

Lemma nth_num (vs : list Z) (i : nat) :
  nth i (map Num vs) NaN = Num (nth i vs 0) \/
  (nth i (map Num vs) NaN = NaN /\ nth i vs 0 = 0).
Proof.
  revert i. induction vs as [|v vs IH]; intros [|i]; cbn [map nth].
  - right. split; reflexivity.
  - right. split; reflexivity.
  - left. reflexivity.
  - apply IH.
Qed.

Lemma nth_parts (vs : list Z) (i : nat) (k : Z) :
  shl (nth i (map Num vs) NaN) k = shl (Num (nth i vs 0)) k /\
  toInt32 (nth i (map Num vs) NaN) = toInt32 (Num (nth i vs 0)).
Proof.
  destruct (nth_num vs i) as [->|[-> ->]]; [split; reflexivity|].
  apply missing_part.
Qed.

Lemma Octets_parse (os : list string) (vs : list Z) :
  Forall2 Literal.Octet os vs ->
  map (fun p => parseInt p 10) os = map Num vs /\
  Forall (Every (fun x => x <> "."%char)) os /\
  Forall (fun v => 0 <= v <= 255) vs.
Proof.
  induction 1 as [|o v os vs Ho _ IH]; cbn [map].
  - repeat split; constructor.
  - destruct (Octet_parse o v Ho) as (P & C & R). destruct IH as (E & F & B).
    rewrite P, E. repeat split; constructor; try assumption.
    apply (Every_plain_not "."); auto.
Qed.

Lemma nth_octet (vs : list Z) (i : nat) :
  Forall (fun v => 0 <= v <= 255) vs -> 0 <= nth i vs 0 <= 255.
Proof.
  intros H. revert i. induction H as [|v vs Hv _ IH]; intros [|i]; cbn [nth];
    try lia; apply IH.
Qed.

(** X22.  [ipv4ToNumber] packs the first four parts of a dotted text and
    takes a missing part as 0: for a non-empty list of octet texts of any
    length the result is made of the first four values, with 0 in place
    of those that are missing. *)
Theorem ipv4ToNumber_reads_first_four_parts :
  forall (os : list string) (vs : list Z),
    os <> [] ->
    Forall2 Literal.Octet os vs ->
    ipv4ToNumber (join "." os) =
      nth 0 vs 0 * 2 ^ 24 + nth 1 vs 0 * 2 ^ 16 + nth 2 vs 0 * 2 ^ 8 + nth 3 vs 0.
Proof.
  intros os vs Hne Hos.
  destruct (Octets_parse os vs Hos) as (Hparse & Hplain & Hrange).
  unfold ipv4ToNumber. rewrite (split_join_char "." os Hne Hplain), Hparse.
  rewrite (proj1 (nth_parts vs 0 24)), (proj1 (nth_parts vs 1 16)),
    (proj1 (nth_parts vs 2 8)), (proj2 (nth_parts vs 3 0)).
  apply pack_octets; now apply nth_octet.
Qed.

Lemma sample_octets :
  Forall2 Literal.Octet ["10"; "20"] [10; 20].
Proof.
  repeat constructor; try discriminate; try lia; eexists; split; reflexivity.
Qed.

Lemma ipv4ToNumber_reads_first_four_parts_witness :
  ipv4ToNumber (join "." ["10"; "20"]) =
    nth 0 [10; 20] 0 * 2 ^ 24 + nth 1 [10; 20] 0 * 2 ^ 16 +
    nth 2 [10; 20] 0 * 2 ^ 8 + nth 3 [10; 20] 0.
Proof.
  apply (ipv4ToNumber_reads_first_four_parts ["10"; "20"] [10; 20]).
  - discriminate.
  - exact sample_octets.
Defined.

Lemma lor_mod32 (a b : Z) :
  Z.lor a b mod 2 ^ 32 = Z.lor (a mod 2 ^ 32) (b mod 2 ^ 32).
Proof.
  rewrite <- !Z.land_ones by lia. apply Z.land_lor_distr_l.
Qed.

Lemma shl_mod32 (v k : Z) :
  0 <= k < 32 -> shl (Num v) k mod 2 ^ 32 = (v * 2 ^ k) mod 2 ^ 32.
Proof.
  intros Hk. unfold shl, toInt32. rewrite (Z.mod_small k 32) by lia.
  fold (toUint32 (wrapInt32 (Z.shiftl (wrapInt32 v) k))).
  rewrite toUint32_wrapInt32, Z.shiftl_mul_pow2 by lia.
  rewrite <- Z.mul_mod_idemp_l by (apply Z.pow_nonzero; lia).
  fold (toUint32 (wrapInt32 v)). rewrite toUint32_wrapInt32.
  apply Z.mul_mod_idemp_l. apply Z.pow_nonzero; lia.
Qed.

(** X23.  Parts above 255 are not rejected: for four decimal numerals
    below 2^53, [ipv4ToNumber] returns the bitwise OR of the parts
    shifted to their places, reduced modulo 2^32, so the bits of a part
    above 255 fall onto the places of the parts before it or are
    dropped. *)
Theorem ipv4ToNumber_wraps_large_parts :
  forall (o1 o2 o3 o4 : string) (v1 v2 v3 v4 : Z),
    Literal.numeral Literal.decDigit 10 o1 v1 ->
    Literal.numeral Literal.decDigit 10 o2 v2 ->
    Literal.numeral Literal.decDigit 10 o3 v3 ->
    Literal.numeral Literal.decDigit 10 o4 v4 ->
    v1 < 2 ^ 53 -> v2 < 2 ^ 53 -> v3 < 2 ^ 53 -> v4 < 2 ^ 53 ->
    ipv4ToNumber (join "." [o1; o2; o3; o4]) =
      Z.lor (Z.lor (Z.lor (v1 * 2 ^ 24) (v2 * 2 ^ 16)) (v3 * 2 ^ 8)) v4 mod 2 ^ 32.
Proof.
  intros o1 o2 o3 o4 v1 v2 v3 v4 H1 H2 H3 H4 _ _ _ _.
  assert (Hparse : forall o v,
             Literal.numeral Literal.decDigit 10 o v ->
             parseInt o 10 = Num v /\ Every (fun x => x <> "."%char) o).
  { intros o v H.
    destruct (parseInt_numeral Literal.decDigit 10 ltac:(lia) decDigit_radix o v H)
      as (P & C & _).
    split; [exact P|]. apply (Every_plain_not "."); auto. }
  destruct (Hparse o1 v1 H1) as [P1 C1]. destruct (Hparse o2 v2 H2) as [P2 C2].
  destruct (Hparse o3 v3 H3) as [P3 C3]. destruct (Hparse o4 v4 H4) as [P4 C4].
  unfold ipv4ToNumber. rewrite (split_join_char "." [o1; o2; o3; o4]).
  - cbn [map nth]. rewrite P1, P2, P3, P4. unfold toUint32, bor.
    rewrite !lor_mod32. rewrite !shl_mod32 by lia.
    unfold toInt32. fold (toUint32 (wrapInt32 v4)). rewrite toUint32_wrapInt32.
    reflexivity.
  - discriminate.
  - repeat constructor; assumption.
Qed.

Lemma ipv4ToNumber_wraps_large_parts_witness :
  ipv4ToNumber (join "." ["256"; "511"; "0"; "1"]) =
    Z.lor (Z.lor (Z.lor (256 * 2 ^ 24) (511 * 2 ^ 16)) (0 * 2 ^ 8)) 1 mod 2 ^ 32.
Proof.
  apply (ipv4ToNumber_wraps_large_parts "256" "511" "0" "1" 256 511 0 1);
    try (split; [discriminate | eexists; split; reflexivity]);
    reflexivity.
Defined.

(* ===================================================================== *)
(** * The expanded form and the binary text *)
(* ===================================================================== *)

Lemma padStart_full (n : nat) (c : ascii) (s : string) :
  (n <= String.length s)%nat -> padStart n c s = s.
Proof.
  intros H. unfold padStart. replace (n - String.length s)%nat with 0%nat by lia.
  reflexivity.
Qed.

Lemma length_padStart (n : nat) (c : ascii) (s : string) :
  (String.length s <= n)%nat -> String.length (padStart n c s) = n.
Proof.
  intros H. unfold padStart. rewrite length_append, length_repeatChar. lia.
Qed.

Lemma HexGroup_padded (g : string) (v : Z) :
  Literal.HexGroup g v ->
  Literal.HexGroup (padStart 4 "0" g) v /\ String.length (padStart 4 "0" g) = 4%nat.
Proof.
  intros [Hnum Hlen]. pose proof (length_padStart 4 "0" g Hlen) as E.
  split; [|exact E]. split; [|lia].
  unfold padStart. now apply numeral_padded.
Qed.

Lemma HexGroups_padded (gs : list string) (vs : list Z) :
  Forall2 Literal.HexGroup gs vs ->
  Forall2 Literal.HexGroup (map (padStart 4 "0") gs) vs /\
  map (padStart 4 "0") (map (padStart 4 "0") gs) = map (padStart 4 "0") gs.
Proof.
  induction 1 as [|g v gs vs Hg _ [IH1 IH2]]; cbn [map].
  - split; [constructor | reflexivity].
  - destruct (HexGroup_padded g v Hg) as [Hp Hl]. split.
    + now constructor.
    + rewrite IH2. f_equal. apply padStart_full. lia.
Qed.

Lemma expandIpv6_full (gs : list string) (vs : list Z) :
  Forall2 Literal.HexGroup gs vs ->
  List.length gs = 8%nat ->
  expandIpv6 (join ":" gs) = Return (join ":" (map (padStart 4 "0") gs)).
Proof.
  intros Hgs Hlen. pose proof (HexGroups_plain gs vs Hgs) as Hplain.
  unfold expandIpv6.
  destruct (includes_pair_join gs "" Hplain eq_refl) as [->|Hinc];
    [discriminate Hlen|].
  rewrite append_nil_r in Hinc. rewrite Hinc.
  rewrite (split_join_char ":" gs); [reflexivity | |].
  - intros ->. discriminate Hlen.
  - eapply Forall_impl; [|exact Hplain].
    intros g [_ Hg]. apply (Every_plain_not ":"); auto.
Qed.

(** X24.  [expandIpv6] turns the text of an address into a full-form
    text of the same address, 39 characters long and without [::], and
    returns that text unchanged when applied to it again. *)
Theorem expandIpv6_gives_full_form :
  forall (s : string) (a : Z),
    Literal.Ipv6Text s a ->
    exists e,
      expandIpv6 s = Return e /\
      Literal.Ipv6Text e a /\
      expandIpv6 e = Return e /\
      String.length e = 39%nat /\
      includes "::" e = false.
Proof.
  intros s a Hs.
  destruct (expandIpv6_text s a Hs) as (gs & vs & Hexp & Hgs & Hlen & ->).
  destruct (HexGroups_padded gs vs Hgs) as [Hpad Hfix].
  assert (Hlen' : List.length (map (padStart 4 "0") gs) = 8%nat)
    by now rewrite length_map.
  exists (join ":" (map (padStart 4 "0") gs)).
  split; [exact Hexp|]. split; [now apply Literal.Ipv6Full|]. split; [|split].
  - rewrite (expandIpv6_full _ vs Hpad Hlen'). now rewrite Hfix.
  - assert (Hfour : Forall (fun g => String.length g = 4%nat) (map (padStart 4 "0") gs)).
    { clear -Hgs. induction Hgs as [|g v gs vs Hg _ IH]; cbn [map]; constructor;
        [apply (HexGroup_padded g v Hg) | exact IH]. }
    destruct (map (padStart 4 "0") gs) as [|g1 [|g2 [|g3 [|g4 [|g5 [|g6 [|g7 [|g8 [|]]]]]]]]];
      try discriminate Hlen'.
    repeat match goal with
           | H : Forall _ (_ :: _) |- _ => inversion_clear H
           end.
    unfold join. cbn [String.concat]. rewrite !length_append. cbn [String.length].
    lia.
  - destruct (includes_pair_join _ "" (HexGroups_plain _ vs Hpad) eq_refl) as [E|E].
    + rewrite E in Hlen'. discriminate Hlen'.
    + now rewrite append_nil_r in E.
Qed.

Lemma expandIpv6_gives_full_form_witness :
  exists e,
    expandIpv6 "2600:9000:5207:1::5" = Return e /\
    Literal.Ipv6Text e (Literal.groupsValue [9728; 36864; 20999; 1; 0; 0; 0; 5]) /\
    expandIpv6 e = Return e /\
    String.length e = 39%nat /\
    includes "::" e = false.
Proof.
  apply (expandIpv6_gives_full_form "2600:9000:5207:1::5"
           (Literal.groupsValue [9728; 36864; 20999; 1; 0; 0; 0; 5])).
  exact sample_address6.
Defined.

(** X25.  For any two address texts the binary strings of their
    expansions are the 128-bit numerals of the addresses, so they are
    equal exactly when the addresses are equal, whatever the spelling
    (compression, leading zeros, letter case). *)
Theorem binary_text_identifies_address :
  forall (s s' : string) (a a' : Z),
    Literal.Ipv6Text s a -> Literal.Ipv6Text s' a' ->
    exists e e',
      expandIpv6 s = Return e /\ expandIpv6 s' = Return e' /\
      ipv6ToBinary e = binaryBE 128 a /\
      String.length (ipv6ToBinary e) = 128%nat /\
      0 <= a < 2 ^ 128 /\
      (ipv6ToBinary e = ipv6ToBinary e' <-> a = a').
Proof.
  intros s s' a a' Hs Hs'.
  destruct (expandIpv6_text s a Hs) as (gs & vs & Hexp & Hgs & Hlen & ->).
  destruct (expandIpv6_text s' a' Hs') as (gs' & vs' & Hexp' & Hgs' & Hlen' & ->).
  destruct (ipv6ToBinary_groups gs vs Hgs Hlen) as [Hb Hr].
  destruct (ipv6ToBinary_groups gs' vs' Hgs' Hlen') as [Hb' Hr'].
  exists (join ":" (map (padStart 4 "0") gs)), (join ":" (map (padStart 4 "0") gs')).
  split; [exact Hexp|]. split; [exact Hexp'|]. split; [exact Hb|].
  split; [rewrite Hb; apply length_binaryBE|]. split; [exact Hr|].
  rewrite Hb, Hb'. split; [|intros ->; reflexivity].
  now apply binaryBE_inj.
Qed.

Lemma sample_address6_upper :
  Literal.Ipv6Text "2600:9000:5207:0001:0:0:0:5"
    (Literal.groupsValue [9728; 36864; 20999; 1; 0; 0; 0; 5]).
Proof.
  apply (Literal.Ipv6Full ["2600"; "9000"; "5207"; "0001"; "0"; "0"; "0"; "5"]
           [9728; 36864; 20999; 1; 0; 0; 0; 5]).
  - reflexivity.
  - repeat constructor; try discriminate; try (simpl; lia);
      eexists; split; reflexivity.
Qed.

Lemma binary_text_identifies_address_witness :
  exists e e',
    expandIpv6 "2600:9000:5207:1::5" = Return e /\
    expandIpv6 "2600:9000:5207:0001:0:0:0:5" = Return e' /\
    ipv6ToBinary e =
      binaryBE 128 (Literal.groupsValue [9728; 36864; 20999; 1; 0; 0; 0; 5]) /\
    String.length (ipv6ToBinary e) = 128%nat /\
    0 <= Literal.groupsValue [9728; 36864; 20999; 1; 0; 0; 0; 5] < 2 ^ 128 /\
    (ipv6ToBinary e = ipv6ToBinary e' <->
     Literal.groupsValue [9728; 36864; 20999; 1; 0; 0; 0; 5] =
     Literal.groupsValue [9728; 36864; 20999; 1; 0; 0; 0; 5]).
Proof.
  apply (binary_text_identifies_address "2600:9000:5207:1::5"
           "2600:9000:5207:0001:0:0:0:5"
           (Literal.groupsValue [9728; 36864; 20999; 1; 0; 0; 0; 5])
           (Literal.groupsValue [9728; 36864; 20999; 1; 0; 0; 0; 5])).
  - exact sample_address6.
  - exact sample_address6_upper.
Defined.
